(** * HairStock: inventory consistency and derived analytics

    A shallow embedding of the stock mutation engine
    ([DataContext]: [createProduct], [updateProductQuantity],
    [createTransaction], [deleteTransaction]; [StockAdjustment]:
    [finalStock], [handleConfirmAction]) and of the read-side analytics
    ([History.openingStockData], [ProductPerformance.productStats]).

    Conventions of the embedding:
    - JavaScript numbers that hold counts and timestamps are [Z]. Where
      the code divides ([productStats], [calcTrend]) the numbers are
      doubles, the primitive [float], and [Math.round] decodes the double
      and rounds it exactly.
    - Row identifiers (uuid strings handed out by the store) are [nat],
      drawn from a counter kept by the store.
    - The remote store and the React state of [DataProvider] are two
      separate parts of the [World]; every request to the store consumes
      one scripted outcome, so a failing network is an input.
    - Columns that no operation below reads (name, brand, variant,
      image, notes, warehouse) are left out of the rows.

    The development then covers the rest of the provider
    ([deleteProduct], the totals), the keypad of [StockAdjustment], the
    form of [AddProduct], the dashboard ([Dashboard]), the log
    ([History.groupedHistory], [formatTime]), the ranking and the chart
    of [Analytics], and the warehouse functions of [DataContext], which
    have a state of their own that carries the warehouse column.
    Strings are sequences of UTF-8 bytes. The bars of the ranking, of
    which only the range is stated, are rounded from exact ratios. *)

From Stdlib Require Import ZArith List Bool Lia String Ascii.
From Stdlib Require Import QArith Qround.
From Stdlib Require Import Floats.
From Stdlib Require Import Sorted Permutation.
Import ListNotations.

Local Open Scope Z_scope.

(** ** Data model *)

Definition Id := nat.

(** [type: 'in' | 'out'] *)
Inductive TxType : Type := TxIn | TxOut.

Definition TxType_eqb (a b : TxType) : bool :=
  match a, b with
  | TxIn, TxIn | TxOut, TxOut => true
  | _, _ => false
  end.

Record Product : Type := mkProduct {
  p_id : Id;
  p_quantity : Z
}.

Record Transaction : Type := mkTransaction {
  t_id : Id;
  t_product_id : Id;
  t_type : TxType;
  t_amount : Z;
  t_created_at : Z
}.

(** [ProductInsert]: [quantity?] and [created_at?] are optional. *)
Record ProductInsert : Type := mkProductInsert {
  pi_quantity : option Z;
  pi_created_at : option Z
}.

Record TransactionInsert : Type := mkTransactionInsert {
  ti_product_id : Id;
  ti_type : TxType;
  ti_amount : Z;
  ti_created_at : option Z
}.

(** [x || d] on an optional number: [undefined] and [0] are falsy. *)
Definition or_default (x : option Z) (d : Z) : Z :=
  match x with
  | Some v => if v =? 0 then d else v
  | None => d
  end.

(** ** The world: remote store and provider state *)

(** The requests the engine sends to the store. *)
Inductive Request : Type :=
| InsertProduct (quantity : Z)
| UpdateQuantity (productId : Id) (quantity : Z)
| InsertTransaction (productId : Id) (ty : TxType) (amount : Z)
| DeleteTransaction (transactionId : Id).

Record Store : Type := mkStore {
  db_products : list Product;
  db_transactions : list Transaction;
  db_next_id : Id;
  db_now : Z;
  (** outcomes of the coming requests, [true] for success; once the
      script is exhausted every request succeeds *)
  db_outcomes : list bool;
  (** every request received, oldest first *)
  db_requests : list Request
}.

Record Ctx : Type := mkCtx {
  user : option Id;
  configured : bool;
  products : list Product;
  transactions : list Transaction;
  allTransactions : list Transaction;
  console : list string
}.

Record World : Type := mkWorld {
  store : Store;
  ctx : Ctx
}.

(** ** A state monad over the world *)

Definition M (A : Type) : Type := World -> A * World.

Definition ret {A} (a : A) : M A := fun w => (a, w).

Definition bind {A B} (m : M A) (k : A -> M B) : M B :=
  fun w => let (a, w') := m w in k a w'.

Notation "x <- m ;; k" := (bind m (fun x => k))
  (at level 61, m at next level, right associativity).
Notation "m ;;; k" := (bind m (fun _ => k))
  (at level 61, right associativity).

Definition exec {A} (m : M A) (w : World) : World := snd (m w).
Definition eval {A} (m : M A) (w : World) : A := fst (m w).

Definition getCtx : M Ctx := fun w => (ctx w, w).

Definition setProducts (f : list Product -> list Product) : M unit :=
  fun w =>
    let c := ctx w in
    (tt, mkWorld (store w)
           (mkCtx (user c) (configured c) (f (products c))
                  (transactions c) (allTransactions c) (console c))).

Definition setTransactions (f : list Transaction -> list Transaction) : M unit :=
  fun w =>
    let c := ctx w in
    (tt, mkWorld (store w)
           (mkCtx (user c) (configured c) (products c)
                  (f (transactions c)) (allTransactions c) (console c))).

Definition setAllTransactions (f : list Transaction -> list Transaction) : M unit :=
  fun w =>
    let c := ctx w in
    (tt, mkWorld (store w)
           (mkCtx (user c) (configured c) (products c)
                  (transactions c) (f (allTransactions c)) (console c))).

(** [console.error] / [console.warn] *)
Definition log (msg : string) : M unit :=
  fun w =>
    let c := ctx w in
    (tt, mkWorld (store w)
           (mkCtx (user c) (configured c) (products c)
                  (transactions c) (allTransactions c) (console c ++ [msg]))).

(** *** Store requests

    supabase-js reports a failed request in the [error] field of the
    response; it does not throw unless asked to. A request that fails
    leaves the tables as they were. *)

Definition next_outcome (s : Store) : bool :=
  match db_outcomes s with
  | [] => true
  | b :: _ => b
  end.

Definition setQuantity (productId : Id) (q : Z) (p : Product) : Product :=
  if Nat.eqb (p_id p) productId then mkProduct (p_id p) q else p.

(** [supabase.from('products').update({ quantity }).eq('id', productId)];
    returns [true] when the response carries no error. *)
Definition db_update_quantity (productId : Id) (q : Z) : M bool :=
  fun w =>
    let s := store w in
    let ok := next_outcome s in
    (ok, mkWorld
           (mkStore
              (if ok then map (setQuantity productId q) (db_products s)
               else db_products s)
              (db_transactions s) (db_next_id s) (db_now s)
              (tl (db_outcomes s))
              (db_requests s ++ [UpdateQuantity productId q]))
           (ctx w)).

(** [supabase.from('products').insert(row).select().single()] *)
Definition db_insert_product (quantity : Z) : M (option Product) :=
  fun w =>
    let s := store w in
    let ok := next_outcome s in
    let row := mkProduct (db_next_id s) quantity in
    (if ok then Some row else None,
     mkWorld
       (mkStore
          (if ok then db_products s ++ [row] else db_products s)
          (db_transactions s)
          (if ok then S (db_next_id s) else db_next_id s)
          (db_now s)
          (tl (db_outcomes s))
          (db_requests s ++ [InsertProduct quantity]))
       (ctx w)).

(** [supabase.from('transactions').insert(row).select().single()];
    [created_at] defaults to the store's [now()]. *)
Definition db_insert_transaction (productId : Id) (ty : TxType) (amount : Z)
    (created_at : option Z) : M (option Transaction) :=
  fun w =>
    let s := store w in
    let ok := next_outcome s in
    let at_ := match created_at with Some d => d | None => db_now s end in
    let row := mkTransaction (db_next_id s) productId ty amount at_ in
    (if ok then Some row else None,
     mkWorld
       (mkStore
          (db_products s)
          (if ok then db_transactions s ++ [row] else db_transactions s)
          (if ok then S (db_next_id s) else db_next_id s)
          (db_now s)
          (tl (db_outcomes s))
          (db_requests s ++ [InsertTransaction productId ty amount]))
       (ctx w)).

(** [supabase.from('transactions').delete().eq('id', transactionId)] *)
Definition db_delete_transaction (transactionId : Id) : M bool :=
  fun w =>
    let s := store w in
    let ok := next_outcome s in
    (ok, mkWorld
           (mkStore
              (db_products s)
              (if ok
               then filter (fun t => negb (Nat.eqb (t_id t) transactionId))
                      (db_transactions s)
               else db_transactions s)
              (db_next_id s) (db_now s)
              (tl (db_outcomes s))
              (db_requests s ++ [DeleteTransaction transactionId]))
           (ctx w)).

(** ** Stock mutation engine ([DataProvider]) *)

Local Open Scope string_scope.
Local Open Scope list_scope.
Local Open Scope Z_scope.

(** [{ data: Product | null; error: string | null }] *)
Record CreateResult : Type := mkCreateResult {
  cr_data : option Product;
  cr_error : option string
}.

(** [{ success: boolean; error: string | null }] *)
Record DeleteResult : Type := mkDeleteResult {
  dr_success : bool;
  dr_error : option string
}.

(** [createProduct]: insert the product row; when the initial quantity
    is positive, insert the initial ['in'] transaction as well. A failure
    of that second insert is logged with [console.warn] and does not
    change the returned value. *)
Definition createProduct (productData : ProductInsert) : M CreateResult :=
  c <- getCtx ;;
  match user c with
  | None => ret (mkCreateResult None (Some "请先登录"))
  | Some _ =>
    if negb (configured c)
    then ret (mkCreateResult None (Some "Supabase 未正确配置，请检查环境变量"))
    else
      data <- db_insert_product (or_default (pi_quantity productData) 0) ;;
      match data with
      | None =>
        (* the message depends on the error code; this is the default *)
        log "[createProduct] Supabase 错误" ;;;
        ret (mkCreateResult None (Some "创建失败"))
      | Some newProduct =>
        setProducts (fun prev => prev ++ [newProduct]) ;;;
        let initialQty := or_default (pi_quantity productData) 0 in
        (if 0 <? initialQty
         then
           txData <- db_insert_transaction (p_id newProduct) TxIn initialQty
                       (pi_created_at productData) ;;
           match txData with
           | Some newTx =>
             setTransactions (fun prev => newTx :: prev) ;;;
             setAllTransactions (fun prev => prev ++ [newTx])
           | None => log "[createProduct] 初始库存交易创建失败"
           end
         else ret tt) ;;;
        ret (mkCreateResult (Some newProduct) None)
      end
  end.

(** [updateProductQuantity] *)
Definition updateProductQuantity (productId : Id) (newQuantity : Z) : M bool :=
  ok <- db_update_quantity productId newQuantity ;;
  if ok
  then
    setProducts (map (setQuantity productId newQuantity)) ;;;
    ret true
  else
    log "更新库存失败" ;;;
    ret false.

(** [createTransaction] *)
Definition createTransaction (transactionData : TransactionInsert)
    : M (option Transaction) :=
  c <- getCtx ;;
  match user c with
  | None => ret None
  | Some _ =>
    data <- db_insert_transaction (ti_product_id transactionData)
              (ti_type transactionData) (ti_amount transactionData)
              (ti_created_at transactionData) ;;
    match data with
    | None =>
      log "创建交易记录失败" ;;;
      ret None
    | Some newTransaction =>
      setTransactions (fun prev => newTransaction :: prev) ;;;
      setAllTransactions (fun prev => prev ++ [newTransaction]) ;;;
      ret (Some newTransaction)
    end
  end.

(** [deleteTransaction]: [transactions] and [products] are the values
    the provider rendered with, read once at the start. *)
Definition deleteTransaction (transactionId : Id) : M DeleteResult :=
  c <- getCtx ;;
  match user c with
  | None => ret (mkDeleteResult false (Some "请先登录"))
  | Some _ =>
    match find (fun t => Nat.eqb (t_id t) transactionId) (transactions c) with
    | None => ret (mkDeleteResult false (Some "交易记录不存在"))
    | Some transaction =>
      let product :=
        find (fun p => Nat.eqb (p_id p) (t_product_id transaction)) (products c) in
      let restore : M bool :=
        match product with
        | Some product =>
          let adjustment :=
            match t_type transaction with
            | TxIn => - t_amount transaction
            | TxOut => t_amount transaction
            end in
          let newQuantity := Z.max 0 (p_quantity product + adjustment) in
          ok <- db_update_quantity (p_id product) newQuantity ;;
          if ok
          then
            setProducts (map (setQuantity (p_id product) newQuantity)) ;;;
            ret true
          else
            log "恢复库存失败" ;;;
            ret false
        | None => ret true
        end in
      restored <- restore ;;
      if negb restored
      then ret (mkDeleteResult false (Some "库存恢复失败，交易记录未删除。请重试。"))
      else
        deleted <- db_delete_transaction transactionId ;;
        if negb deleted
        then
          match product with
          | Some product =>
            db_update_quantity (p_id product) (p_quantity product) ;;;
            setProducts (map (setQuantity (p_id product) (p_quantity product)))
          | None => ret tt
          end ;;;
          ret (mkDeleteResult false (Some "删除交易记录失败，库存已回滚"))
        else
          setTransactions
            (filter (fun t => negb (Nat.eqb (t_id t) transactionId))) ;;;
          setAllTransactions
            (filter (fun t => negb (Nat.eqb (t_id t) transactionId))) ;;;
          ret (mkDeleteResult true None)
    end
  end.

(** ** Stock adjustment page ([StockAdjustment]) *)

(** [operation: 'add' | 'subtract'] *)
Inductive Operation : Type := add | subtract.

Definition finalStock (currentStock adjustAmount : Z) (operation : Operation) : Z :=
  match operation with
  | add => currentStock + adjustAmount
  | subtract => Z.max 0 (currentStock - adjustAmount)
  end.

(** What the user sees when [handleConfirmAction] ends. *)
Inductive ConfirmOutcome : Type :=
| Ignored                 (** [isSubmitting] was set *)
| Navigated               (** [navigate(-1)] *)
| Alerted (msg : string)  (** [alert(error.message)] *).

(** [handleConfirmAction]; [product], [adjustAmount], [operation] and
    [customDate] are the values of the render the dialog belongs to.
    [customDate] is the text of the date field as [new Date] reads it:
    [Some d] for a text that is a date, [None] for any other text, the
    cleared field among them. For such a text
    [new Date(customDate).toISOString()] throws a RangeError while the
    argument of [createTransaction] is built, after the quantity has
    been written: the [catch] block logs and alerts the error's message
    (the wording is the engine's; V8's is used here),
    [createTransaction] is not called and the quantity is not written
    back. *)
Definition handleConfirmAction (isSubmitting : bool) (product : Product)
    (operation : Operation) (adjustAmount : Z) (customDate : option Z)
    : M ConfirmOutcome :=
  if isSubmitting then ret Ignored
  else
    let currentStock := p_quantity product in
    let actualAmount :=
      match operation with
      | subtract => Z.min adjustAmount currentStock
      | add => adjustAmount
      end in
    updateSuccess <- updateProductQuantity (p_id product)
                       (finalStock currentStock adjustAmount operation) ;;
    if negb updateSuccess
    then
      log "库存调整失败" ;;;
      ret (Alerted "更新库存失败")
    else
      match customDate with
      | None =>
        log "库存调整失败" ;;;
        ret (Alerted "Invalid time value")
      | Some created_at =>
        newTx <- createTransaction
                   (mkTransactionInsert (p_id product)
                      (match operation with add => TxIn | subtract => TxOut end)
                      actualAmount (Some created_at)) ;;
        match newTx with
        | None =>
          updateProductQuantity (p_id product) currentStock ;;;
          log "库存调整失败" ;;;
          ret (Alerted "交易记录创建失败，库存已回滚")
        | Some _ => ret Navigated
        end
      end.

(** ** Sequences of user actions *)

Inductive Action : Type :=
| CreateProduct (productData : ProductInsert)
| AdjustStock (productId : Id) (operation : Operation)
    (adjustAmount : Z) (customDate : option Z).

(** One user action. The adjustment page resolves its product with
    [products.find(p => p.id === productId)]; without a product it shows
    a "not found" page that has no confirm button. *)
Definition perform (a : Action) : M unit :=
  match a with
  | CreateProduct productData => createProduct productData ;;; ret tt
  | AdjustStock productId operation adjustAmount customDate =>
    c <- getCtx ;;
    match find (fun p => Nat.eqb (p_id p) productId) (products c) with
    | Some product =>
      handleConfirmAction false product operation adjustAmount customDate ;;;
      ret tt
    | None => ret tt
    end
  end.

Fixpoint performAll (l : list Action) : M unit :=
  match l with
  | [] => ret tt
  | a :: l' => perform a ;;; performAll l'
  end.

(** Sums over the ledger. *)
Definition sumAmounts (productId : Id) (ty : TxType) (l : list Transaction) : Z :=
  fold_right Z.add 0
    (map t_amount
       (filter (fun t => Nat.eqb (t_product_id t) productId
                         && TxType_eqb (t_type t) ty) l)).

Definition quantityOf (productId : Id) (l : list Product) : option Z :=
  option_map p_quantity (find (fun p => Nat.eqb (p_id p) productId) l).

(** A session that begins with empty tables and an empty cache. *)
Definition newWorld (u : option Id) (cfg : bool) (now : Z) (outcomes : list bool)
    : World :=
  mkWorld (mkStore [] [] 0%nat now outcomes [])
          (mkCtx u cfg [] [] [] []).

Definition noFailure (w : World) : bool :=
  forallb (fun b => b) (db_outcomes (store w)).

(** ** Analytics: opening stock ([History.openingStockData]) *)

Record OpeningStock : Type := mkOpeningStock {
  os_id : Id;
  os_currentQty : Z;
  os_openingQty : Z;
  os_change : Z
}.

(** One turn of the [for (const t of transactions)] loop. *)
Definition stockChangeStep (product : Product) (monthStart : Z)
    (stockChange : Z) (t : Transaction) : Z :=
  if Nat.eqb (t_product_id t) (p_id product) && (monthStart <=? t_created_at t)
  then stockChange + (match t_type t with
                      | TxIn => t_amount t
                      | TxOut => - t_amount t
                      end)
  else stockChange.

Definition openingStockData (products : list Product)
    (transactions : list Transaction) (openingMonth : Z) : list OpeningStock :=
  let monthStart := openingMonth in
  map (fun product =>
         let stockChange :=
           fold_left (stockChangeStep product monthStart) transactions 0 in
         let openingQty := Z.max 0 (p_quantity product - stockChange) in
         mkOpeningStock (p_id product) (p_quantity product) openingQty stockChange)
      products.

(** ** Analytics: product performance ([ProductPerformance.productStats]) *)

Inductive Trend : Type := up | down | stable.
Inductive Turnover : Type := High | Med | Low.

(** *** Numbers that are divided

    [productStats] and [calcTrend] divide, so their numbers are the
    doubles of the language: the primitive [float], binary64 with
    rounding to nearest, ties to even. *)

(** An integer as a number: the nearest double, which is the integer
    itself below 2^53 in magnitude. *)
Definition Number (n : Z) : float :=
  SF2Prim (binary_normalize prec emax n 0 false).

(** What [Math.round] returns: an integral number. [Integer n] is the
    double that holds the integer [n], [Integer 0] being +0. *)
Inductive Rounded : Type :=
| Integer (n : Z)
| MinusZero
| NotANumber
| Infinite (negative : bool).

(** [Math.round]: the integer nearest to [x], the larger one when [x]
    is half way between two; a result of 0 keeps the sign of [x]; a
    number that is not finite is returned as it is. The double
    [(-1)^s * m * 2^e] is decoded and rounded in integer arithmetic, so
    the result is exact; it fits a double, being [x] itself from 2^52 on. *)
Definition Math_round (x : float) : Rounded :=
  match Prim2SF x with
  | S754_zero s => if s then MinusZero else Integer 0
  | S754_infinity s => Infinite s
  | S754_nan => NotANumber
  | S754_finite s m e =>
    let v := if s then Zneg m else Zpos m in
    let n :=
      if 0 <=? e then v * 2 ^ e
      else (2 * v + 2 ^ (- e)) / (2 * 2 ^ (- e)) in
    if (n =? 0) && s then MinusZero else Integer n
  end.

(** [Math.abs] of an integral number. *)
Definition Math_abs (r : Rounded) : Rounded :=
  match r with
  | Integer n => Integer (Z.abs n)
  | MinusZero => Integer 0
  | NotANumber => NotANumber
  | Infinite _ => Infinite false
  end.

(** [r > k] and [r < k] for an integral number [r] and an integer [k]. *)
Definition exceeds (r : Rounded) (k : Z) : bool :=
  match r with
  | Integer n => k <? n
  | MinusZero => k <? 0
  | NotANumber => false
  | Infinite negative => negb negative
  end.

Definition below (r : Rounded) (k : Z) : bool :=
  match r with
  | Integer n => n <? k
  | MinusZero => 0 <? k
  | NotANumber => false
  | Infinite negative => negative
  end.

(** [Math.max(x, y)]: NaN when either is NaN; of +0 and -0 the
    positive one. *)
Definition Math_max (x y : float) : float :=
  if is_nan x || is_nan y then nan
  else if (x <? y)%float then y
  else if (y <? x)%float then x
  else if get_sign x then y else x.

(** [x || 1] on a number: 0, -0 and NaN are replaced. *)
Definition or_one (x : float) : float :=
  if is_nan x || is_zero x then 1%float else x.

Record ProductStat : Type := mkProductStat {
  ps_id : Id;
  ps_consumed : Z;
  ps_inStock : Z;
  ps_trend : Trend;
  ps_trendValue : Rounded;
  ps_turnoverRate : Turnover
}.

(** [.reduce((sum, t) => sum + t.amount, 0)] *)
Definition sumAmount (l : list Transaction) : Z :=
  fold_left (fun sum t => sum + t_amount t) l 0.

(** [((thisMonthOut - lastMonthOut) / lastMonthOut) * 100] *)
Definition change (thisMonthOut lastMonthOut : Z) : float :=
  ((Number thisMonthOut - Number lastMonthOut) / Number lastMonthOut
   * 100)%float.

(** The trend block: [change] is compared unrounded, [trendValue] is
    rounded. *)
Definition trendOf (thisMonthOut lastMonthOut : Z) : Trend * Rounded :=
  if 0 <? lastMonthOut
  then
    let trendValue := Math_abs (Math_round (change thisMonthOut lastMonthOut)) in
    if (5 <? change thisMonthOut lastMonthOut)%float then (up, trendValue)
    else if (change thisMonthOut lastMonthOut <? -5)%float
         then (down, trendValue)
         else (stable, trendValue)
  else if 0 <? thisMonthOut then (up, Integer 100)
  else (stable, Integer 0).

(** [1000 * 60 * 60 * 24 * 30] *)
Definition MS_PER_30_DAYS : Z := 1000 * 60 * 60 * 24 * 30.

(** [actualMonths]: the age of the last element of [outTransactions],
    in units of thirty days, at least 1. *)
Definition actualMonths (now : Z) (outTransactions : list Transaction)
    : float :=
  if (0 <? List.length outTransactions)%nat
  then
    match nth_error outTransactions (List.length outTransactions - 1) with
    | Some earliest =>
      let diffMs := now - t_created_at earliest in
      Math_max 1 (Number diffMs / Number MS_PER_30_DAYS)
    | None => 1%float
    end
  else 1%float.

(** The turnover block. *)
Definition turnoverOf (now : Z) (quantity : Z)
    (outTransactions : list Transaction) (totalConsumed : Z) : Turnover :=
  let avgMonthlyConsumption :=
    (Number totalConsumed / actualMonths now outTransactions)%float in
  if 0 <? quantity
  then
    let monthsOfStock :=
      (Number quantity / or_one avgMonthlyConsumption)%float in
    if (monthsOfStock <? 2)%float then High
    else if (monthsOfStock <? 6)%float then Med
    else Low
  else if (10 <? avgMonthlyConsumption)%float then High
  else Low.

Section ProductPerformance.

(** [new Date(t).getMonth()] and [.getFullYear()] in the browser's
    time zone. The page reads the clock twice, with [new Date()] and
    with [Date.now()]; both readings are [now] here. *)
Variables getMonth getFullYear : Z -> Z.

Definition isOutOf (product : Product) (t : Transaction) : bool :=
  Nat.eqb (t_product_id t) (p_id product) && TxType_eqb (t_type t) TxOut.

Definition inMonth (month year : Z) (t : Transaction) : bool :=
  (getMonth (t_created_at t) =? month)
  && (getFullYear (t_created_at t) =? year).

Definition productStats (now : Z) (products : list Product)
    (transactions : list Transaction) : list ProductStat :=
  let currentMonth := getMonth now in
  let currentYear := getFullYear now in
  let lastMonth := if currentMonth =? 0 then 11 else currentMonth - 1 in
  let lastMonthYear := if currentMonth =? 0 then currentYear - 1 else currentYear in
  map (fun product =>
         let thisMonthOut :=
           sumAmount (filter (fun t => isOutOf product t
                                       && inMonth currentMonth currentYear t)
                             transactions) in
         let lastMonthOut :=
           sumAmount (filter (fun t => isOutOf product t
                                       && inMonth lastMonth lastMonthYear t)
                             transactions) in
         let totalConsumed :=
           sumAmount (filter (isOutOf product) transactions) in
         let '(trend, trendValue) := trendOf thisMonthOut lastMonthOut in
         let outTransactions := filter (isOutOf product) transactions in
         let turnoverRate :=
           turnoverOf now (p_quantity product) outTransactions totalConsumed in
         mkProductStat (p_id product) totalConsumed (p_quantity product)
                       trend trendValue turnoverRate)
      products.

End ProductPerformance.

(** ** Vocabulary of the statements *)

(** The outcome the store will give to its [n]-th coming request. *)
Definition outcomeAt (n : nat) (w : World) : bool :=
  nth n (db_outcomes (store w)) true.

(** Every row of [l] that carries the id of [product] carries its
    quantity too: the rendered snapshot is not stale. *)
Definition snapshotAgrees (product : Product) (l : list Product) : bool :=
  forallb (fun p => implb (Nat.eqb (p_id p) (p_id product))
                          (p_quantity p =? p_quantity product)) l.

Definition removeTransaction (transactionId : Id) (l : list Transaction)
    : list Transaction :=
  filter (fun t => negb (Nat.eqb (t_id t) transactionId)) l.

(** The quantity [deleteTransaction] writes for [product]. *)
Definition reversedQuantity (product : Product) (transaction : Transaction) : Z :=
  match t_type transaction with
  | TxIn => Z.max 0 (p_quantity product - t_amount transaction)
  | TxOut => Z.max 0 (p_quantity product + t_amount transaction)
  end.

(** Net movement of a product over a ledger. *)
Definition ledgerNet (productId : Id) (l : list Transaction) : Z :=
  sumAmounts productId TxIn l - sumAmounts productId TxOut l.

(** The date field holds a date. *)
Definition validDate (customDate : option Z) : bool :=
  match customDate with
  | Some _ => true
  | None => false
  end.

(** The actions that keep the ledger: the add-product form reads its
    quantity with [parseInt] from a string of digits, so the initial
    quantity is never negative; an adjustment keeps the ledger when its
    date field holds a date. *)
Definition actionValid (a : Action) : bool :=
  match a with
  | CreateProduct productData => 0 <=? or_default (pi_quantity productData) 0
  | AdjustStock _ _ _ customDate => validDate customDate
  end.

(** Store and provider agree, every product's quantity is the net of its
    ledger, identifiers come from the store's counter, and no failure is
    scripted. *)
Definition consistent (w : World) : Prop :=
  products (ctx w) = db_products (store w)
  /\ (forall p, In p (db_products (store w)) ->
       p_quantity p = ledgerNet (p_id p) (db_transactions (store w)))
  /\ (forall p, In p (db_products (store w)) ->
       (p_id p < db_next_id (store w))%nat)
  /\ (forall t, In t (db_transactions (store w)) ->
       (t_product_id t < db_next_id (store w))%nat)
  /\ noFailure w = true.

(** Net change of a product over the transactions created at or after
    [monthStart]: the ['in'] amounts minus the ['out'] amounts. *)
Definition netChangeSince (productId : Id) (monthStart : Z)
    (l : list Transaction) : Z :=
  ledgerNet productId (filter (fun t => monthStart <=? t_created_at t) l).

(** No transaction of the product is dated at or after [monthStart]. *)
Definition noMovementSince (productId : Id) (monthStart : Z)
    (l : list Transaction) : bool :=
  forallb (fun t => negb (Nat.eqb (t_product_id t) productId
                          && (monthStart <=? t_created_at t))) l.

(** No row holds a negative quantity. *)
Definition nonnegative (l : list Product) : Prop :=
  Forall (fun p => 0 <= p_quantity p) l.

(** *** The constraint on amounts

    The [transactions] table of the shipped schema carries
    [check (amount > 0)]: the store refuses an insert that violates
    it. A refusal is an outcome of the script, so that the store applies
    its constraint is a property of a run. *)

Definition violatesCheck (r : Request) : bool :=
  match r with
  | InsertTransaction _ _ amount => amount <=? 0
  | _ => false
  end.

(** The requests sent between [w] and [w'], oldest first. *)
Definition requestsSent (w w' : World) : list Request :=
  skipn (List.length (db_requests (store w))) (db_requests (store w')).

(** In the run from [w] to [w'] every request that violates the
    constraint was refused; the [k]-th request of a run receives the
    [k]-th outcome scripted in [w]. *)
Definition checkApplied (w w' : World) : Prop :=
  forall (k : nat) (r : Request),
    nth_error (requestsSent w w') k = Some r ->
    violatesCheck r = true ->
    outcomeAt k w = false.

(** The run from [w] to [w'] kept the ledger it found and added rows of
    a positive amount only, each of type ['in'] or ['out']. *)
Definition writesPositive (w w' : World) : Prop :=
  exists rows : list Transaction,
    db_transactions (store w') = db_transactions (store w) ++ rows
    /\ Forall (fun t => 0 < t_amount t
                        /\ (t_type t = TxIn \/ t_type t = TxOut)) rows.

(** A product that holds nothing, known to store and provider. *)
Definition sampleEmptyWorld (outcomes : list bool) : World :=
  mkWorld (mkStore [mkProduct 0%nat 0] [] 1%nat 0 outcomes [])
          (mkCtx (Some 7%nat) true [mkProduct 0%nat 0] [] [] []).

(** *** The analytics as the specification words them *)

(** Trend with the thresholds applied to the rounded percentage
    [round(100 * (thisMonthOut - lastMonthOut) / lastMonthOut)]. *)
Definition trendAsSpecified (thisMonthOut lastMonthOut : Z) : Trend * Rounded :=
  if lastMonthOut =? 0
  then if 0 <? thisMonthOut then (up, Integer 100) else (stable, Integer 0)
  else
    let pct :=
      Math_round (100 * (Number thisMonthOut - Number lastMonthOut)
                  / Number lastMonthOut)%float in
    if exceeds pct 5 then (up, Math_abs pct)
    else if below pct (-5) then (down, Math_abs pct)
    else (stable, Math_abs pct).

(** The integers from [lo], [len] of them. *)
Definition zrange (lo : Z) (len : nat) : list Z :=
  map (fun i => lo + Z.of_nat i) (seq 0 len).

(** The direction of the trend as exact arithmetic gives it. *)
Definition trendExact (thisMonthOut lastMonthOut : Z) : Trend :=
  let delta := 100 * (thisMonthOut - lastMonthOut) in
  if 5 * lastMonthOut <? delta then up
  else if delta <? -5 * lastMonthOut then down
  else stable.

Definition Trend_eqb (a b : Trend) : bool :=
  match a, b with
  | up, up | down, down | stable, stable => true
  | _, _ => false
  end.

(** The earliest creation time in a list of transactions. *)
Fixpoint earliestDate (l : list Transaction) : option Z :=
  match l with
  | [] => None
  | t :: l' =>
    match earliestDate l' with
    | None => Some (t_created_at t)
    | Some d => Some (Z.min (t_created_at t) d)
    end
  end.

(** [max(1, (now - earliest) / 30 days)], and 1 without a date. *)
Definition monthsSince (now : Z) (earliest : option Z) : float :=
  match earliest with
  | Some d => Math_max 1 (Number (now - d) / Number MS_PER_30_DAYS)
  | None => 1%float
  end.

(** Turnover with [max(avgMonthlyConsumption, 1)] as the divisor. *)
Definition turnoverAsSpecified (now : Z) (quantity : Z)
    (outTransactions : list Transaction) (totalConsumed : Z) : Turnover :=
  let avgMonthlyConsumption :=
    (Number totalConsumed / monthsSince now (earliestDate outTransactions))%float in
  if 0 <? quantity
  then
    let monthsOfStockRemaining :=
      (Number quantity / Math_max avgMonthlyConsumption 1)%float in
    if (monthsOfStockRemaining <? 2)%float then High
    else if (monthsOfStockRemaining <? 6)%float then Med
    else Low
  else if (10 <? avgMonthlyConsumption)%float then High
  else Low.

(** Newest first, the order in which the provider fetches the ledger. *)
Fixpoint newestFirst (l : list Transaction) : Prop :=
  match l with
  | [] => True
  | t :: l' =>
    (forall t', In t' l' -> t_created_at t' <= t_created_at t) /\ newestFirst l'
  end.

(** *** Sample sessions *)

(** One product of quantity 10, id 0, known to store and provider. *)
Definition sampleWorld (outcomes : list bool) : World :=
  mkWorld (mkStore [mkProduct 0%nat 10] [] 1%nat 0 outcomes [])
          (mkCtx (Some 7%nat) true [mkProduct 0%nat 10] [] [] []).

Definition sampleProduct : Product := mkProduct 0%nat 10.

(** One product of quantity 6 with its two ledger entries: 10 in, then
    4 out. *)
Definition sampleLedger : list Transaction :=
  [mkTransaction 1%nat 0%nat TxIn 10 0; mkTransaction 2%nat 0%nat TxOut 4 50].

Definition sampleLedgerWorld (outcomes : list bool) : World :=
  mkWorld (mkStore [mkProduct 0%nat 6] sampleLedger 3%nat 0 outcomes [])
          (mkCtx (Some 7%nat) true [mkProduct 0%nat 6]
                 (rev sampleLedger) sampleLedger []).

(** Create a product with 10 units, withdraw 15, add 3, create a
    second product with nothing in stock. *)
Definition sampleActions : list Action :=
  [CreateProduct (mkProductInsert (Some 10) None);
   AdjustStock 0%nat subtract 15 (Some 50);
   AdjustStock 0%nat add 3 (Some 60);
   CreateProduct (mkProductInsert None None)].

(** Sixty days after one withdrawal. *)
Definition sampleNow : Z := 2 * MS_PER_30_DAYS.

Definition sampleOut (amount : Z) : list Transaction :=
  [mkTransaction 1%nat 0%nat TxOut amount 0].

(** Three withdrawals, 120 units in all, newest first: 5 units now, 10
    units thirty days ago, 105 units sixty days ago. *)
Definition sampleOuts : list Transaction :=
  [mkTransaction 3%nat 0%nat TxOut 5 (2 * MS_PER_30_DAYS);
   mkTransaction 2%nat 0%nat TxOut 10 MS_PER_30_DAYS;
   mkTransaction 1%nat 0%nat TxOut 105 0].

(** ** The rest of the provider

    [deleteProduct] and the three totals of [DataProvider], the delete
    buttons of the pages, and sessions that mix all four operations. *)

(** [supabase.from('transactions').delete().eq('product_id', productId)].
    The two cascade deletes are not among the [Request]s that are
    logged; like every request they consume one scripted outcome. *)
Definition db_delete_transactions_of (productId : Id) : M bool :=
  fun w =>
    let s := store w in
    let ok := next_outcome s in
    (ok, mkWorld
           (mkStore
              (db_products s)
              (if ok
               then filter (fun t => negb (Nat.eqb (t_product_id t) productId))
                      (db_transactions s)
               else db_transactions s)
              (db_next_id s) (db_now s)
              (tl (db_outcomes s))
              (db_requests s))
           (ctx w)).

(** [supabase.from('products').delete().eq('id', productId)] *)
Definition db_delete_product (productId : Id) : M bool :=
  fun w =>
    let s := store w in
    let ok := next_outcome s in
    (ok, mkWorld
           (mkStore
              (if ok
               then filter (fun p => negb (Nat.eqb (p_id p) productId))
                      (db_products s)
               else db_products s)
              (db_transactions s)
              (db_next_id s) (db_now s)
              (tl (db_outcomes s))
              (db_requests s))
           (ctx w)).

(** [deleteProduct]: the product's transactions first, then the
    product; the provider's lists are touched only after both deletes
    went through. *)
Definition deleteProduct (productId : Id) : M bool :=
  txDeleted <- db_delete_transactions_of productId ;;
  if negb txDeleted
  then
    log "删除产品关联交易失败" ;;;
    log "删除产品失败" ;;;
    ret false
  else
    deleted <- db_delete_product productId ;;
    if negb deleted
    then
      log "删除产品失败" ;;;
      ret false
    else
      setProducts (filter (fun p => negb (Nat.eqb (p_id p) productId))) ;;;
      setTransactions
        (filter (fun t => negb (Nat.eqb (t_product_id t) productId))) ;;;
      setAllTransactions
        (filter (fun t => negb (Nat.eqb (t_product_id t) productId))) ;;;
      ret true.

(** [totalIn], [totalOut], [totalStock] *)
Definition totalIn (c : Ctx) : Z :=
  fold_left (fun sum t => sum + t_amount t)
    (filter (fun t => TxType_eqb (t_type t) TxIn) (transactions c)) 0.

Definition totalOut (c : Ctx) : Z :=
  fold_left (fun sum t => sum + t_amount t)
    (filter (fun t => TxType_eqb (t_type t) TxOut) (transactions c)) 0.

Definition totalStock (c : Ctx) : Z :=
  fold_left (fun sum p => sum + p_quantity p) (products c) 0.

(** What the user sees when [handleDeleteProduct] ends. *)
Inductive DeleteProductOutcome : Type :=
| DeleteIgnored        (** [isDeleting] was set *)
| WentHome             (** [navigate('/', { replace: true })] *)
| DeleteAlerted (msg : string).

(** [StockAdjustment.handleDeleteProduct] *)
Definition handleDeleteProduct (isDeleting : bool) (product : Product)
    : M DeleteProductOutcome :=
  if isDeleting then ret DeleteIgnored
  else
    success <- deleteProduct (p_id product) ;;
    if success then ret WentHome
    else ret (DeleteAlerted "删除失败，请重试").

(** [History.handleDelete]; [deleteConfirm] is the row the user picked,
    or null. The result is the alert shown, if any. *)
Definition handleDelete (deleteConfirm : option Id) : M (option string) :=
  match deleteConfirm with
  | None => ret None
  | Some transactionId =>
    result <- deleteTransaction transactionId ;;
    if dr_success result then ret None
    else
      ret (Some ("删除失败：" ++ match dr_error result with
                               | Some e => e
                               | None => "null"
                               end)%string)
  end.

(** Everything a user can do to the stock. *)
Inductive Event : Type :=
| Do (a : Action)
| DeleteTransactionRow (transactionId : Id)
| DeleteProductRow (productId : Id).

(** One event. Like the confirm dialog, the delete dialog of the
    adjustment page exists only for a product found in [products]. *)
Definition handleEvent (e : Event) : M unit :=
  match e with
  | Do a => perform a
  | DeleteTransactionRow transactionId =>
    handleDelete (Some transactionId) ;;; ret tt
  | DeleteProductRow productId =>
    c <- getCtx ;;
    match find (fun p => Nat.eqb (p_id p) productId) (products c) with
    | Some product => handleDeleteProduct false product ;;; ret tt
    | None => ret tt
    end
  end.

Fixpoint handleEvents (l : list Event) : M unit :=
  match l with
  | [] => ret tt
  | e :: l' => handleEvent e ;;; handleEvents l'
  end.

(** The inputs the forms can produce: amounts typed on a keypad of
    digits are never negative. *)
Definition eventValid (e : Event) : bool :=
  match e with
  | Do (CreateProduct productData) =>
    0 <=? or_default (pi_quantity productData) 0
  | Do (AdjustStock _ _ adjustAmount _) => 0 <=? adjustAmount
  | DeleteTransactionRow _ => true
  | DeleteProductRow _ => true
  end.

(** The events of a session in which no single transaction is taken
    back: creations with an initial quantity that is not negative,
    adjustments whose date field holds a date, product deletions. *)
Definition keepsLedger (e : Event) : bool :=
  match e with
  | Do a => actionValid a
  | DeleteTransactionRow _ => false
  | DeleteProductRow _ => true
  end.

(** The provider's three lists mirror the two tables: same products,
    same ledger in insertion order, and the displayed ledger in reverse
    insertion order, the row recorded last in front. That is the order
    of recording, not of the dates: a backdated adjustment is in front
    of rows that carry later dates. *)
Definition mirrored (w : World) : Prop :=
  products (ctx w) = db_products (store w)
  /\ allTransactions (ctx w) = db_transactions (store w)
  /\ transactions (ctx w) = rev (db_transactions (store w)).

(** Identifiers are handed out once: rows carry distinct ids below the
    store's counter, and every transaction belongs to a product of the
    table. *)
Definition keyed (dbp : list Product) (dbt : list Transaction) (nid : Id)
    : Prop :=
  NoDup (map p_id dbp)
  /\ NoDup (map t_id dbt)
  /\ (forall i, In i (map p_id dbp) -> (i < nid)%nat)
  /\ (forall t, In t dbt ->
        (t_id t < nid)%nat /\ In (t_product_id t) (map p_id dbp)).

Definition wellKeyed (w : World) : Prop :=
  keyed (db_products (store w)) (db_transactions (store w))
        (db_next_id (store w)).

(** A session in good order: no failure scripted, provider and store in
    step, identifiers in order. *)
Definition inStep (w : World) : Prop :=
  mirrored w /\ wellKeyed w /\ noFailure w = true.

(** What a transaction adds to its product's stock. *)
Definition signedAmount (t : Transaction) : Z :=
  match t_type t with
  | TxIn => t_amount t
  | TxOut => - t_amount t
  end.

(** No transaction without a product row. *)
Definition noOrphan (dbp : list Product) (dbt : list Transaction) : Prop :=
  forall t, In t dbt -> exists p, In p dbp /\ p_id p = t_product_id t.

(** A product of 10, a second product of 4, a withdrawal of 15 from the
    first, the deletion of that withdrawal, the deletion of the second
    product. Ids are handed out in order: products 0 and 2, initial
    entries 1 and 3, the withdrawal 4. *)
Definition sampleEvents : list Event :=
  [Do (CreateProduct (mkProductInsert (Some 10) None));
   Do (CreateProduct (mkProductInsert (Some 4) None));
   Do (AdjustStock 0%nat subtract 15 (Some 50));
   DeleteTransactionRow 4%nat;
   DeleteProductRow 2%nat].

(** The same without the deletion of a transaction. *)
Definition sampleLedgerEvents : list Event :=
  [Do (CreateProduct (mkProductInsert (Some 10) None));
   Do (CreateProduct (mkProductInsert (Some 4) None));
   Do (AdjustStock 0%nat subtract 15 (Some 50));
   Do (AdjustStock 2%nat add 3 (Some 60));
   DeleteProductRow 0%nat].

(** No row of [l] carries the id [i]. *)
Definition freshId (i : Id) (l : list Transaction) : bool :=
  forallb (fun t => negb (Nat.eqb (t_id t) i)) l.

(** A product of 10 that is then used up. *)
Definition sampleSpentEvents : list Event :=
  [Do (CreateProduct (mkProductInsert (Some 10) None));
   Do (AdjustStock 0%nat subtract 10 (Some 50))].

Definition sampleSpentWorld : World :=
  exec (handleEvents sampleSpentEvents) (newWorld (Some 7%nat) true 0 []).

(** ** The keypad of the adjustment page ([StockAdjustment])

    [inputVal] is a string; the amount is read from it with [parseInt]. *)

(** The white space that [parseInt] and [trim] skip: the code points
    U+0009 to U+000D, U+0020, U+00A0, U+1680, U+2000 to U+200A, U+2028,
    U+2029, U+202F, U+205F, U+3000 and U+FEFF. A string is the sequence
    of its UTF-8 bytes, so a white space character takes one, two or
    three of them. *)
Definition isWhiteSpace (c : ascii) : bool :=
  let n := nat_of_ascii c in
  ((9 <=? n) && (n <=? 13) || (n =? 32))%nat.

Definition isWhiteSpace2 (c0 c1 : ascii) : bool :=
  ((nat_of_ascii c0 =? 194) && (nat_of_ascii c1 =? 160))%nat.

Definition isWhiteSpace3 (c0 c1 c2 : ascii) : bool :=
  let n0 := nat_of_ascii c0 in
  let n1 := nat_of_ascii c1 in
  let n2 := nat_of_ascii c2 in
  ((n0 =? 225) && (n1 =? 154) && (n2 =? 128)
   || (n0 =? 226) && (n1 =? 128)
      && ((128 <=? n2) && (n2 <=? 138)
          || (n2 =? 168) || (n2 =? 169) || (n2 =? 175))
   || (n0 =? 226) && (n1 =? 129) && (n2 =? 159)
   || (n0 =? 227) && (n1 =? 128) && (n2 =? 128)
   || (n0 =? 239) && (n1 =? 187) && (n2 =? 191))%nat.

Fixpoint trimStart (s : string) : string :=
  match s with
  | String c0 s1 =>
    if isWhiteSpace c0 then trimStart s1
    else
      match s1 with
      | String c1 s2 =>
        if isWhiteSpace2 c0 c1 then trimStart s2
        else
          match s2 with
          | String c2 s3 =>
            if isWhiteSpace3 c0 c1 c2 then trimStart s3 else s
          | EmptyString => s
          end
      | EmptyString => s
      end
  | EmptyString => EmptyString
  end.

(** [s.trim() === ''] *)
Definition isBlank (name : string) : bool :=
  String.eqb (trimStart name) "".

(** [s.trimEnd()] and [s.trim()]: a suffix of white space is what is
    left when everything before it is taken away one byte at a time. *)
Fixpoint trimEnd (s : string) : string :=
  match s with
  | String c s' => if isBlank s then EmptyString else String c (trimEnd s')
  | EmptyString => EmptyString
  end.

Definition trim (s : string) : string := trimEnd (trimStart s).

(** The value of a character as a digit of the given radix. *)
Definition digitOf (radix : Z) (c : ascii) : option Z :=
  let n := Z.of_nat (nat_of_ascii c) in
  let v :=
    if (48 <=? n) && (n <=? 57) then Some (n - 48)
    else if (97 <=? n) && (n <=? 122) then Some (n - 87)
    else if (65 <=? n) && (n <=? 90) then Some (n - 55)
    else None in
  match v with
  | Some d => if d <? radix then Some d else None
  | None => None
  end.

(** The longest prefix of digits, read left to right; [None] when the
    string does not begin with a digit. *)
Fixpoint parseDigits (radix : Z) (s : string) (acc : option Z) : option Z :=
  match s with
  | String c s' =>
    match digitOf radix c with
    | Some d =>
      parseDigits radix s'
        (Some (match acc with Some a => a * radix + d | None => d end))
    | None => acc
    end
  | EmptyString => acc
  end.

(** [parseInt(s)] without a radix; [None] is [NaN]. Numbers that a
    double cannot hold exactly (above 2^53) are kept exact here. *)
Definition parseInt (s : string) : option Z :=
  let s1 := trimStart s in
  let signed :=
    match s1 with
    | String c r =>
      if Ascii.eqb c "-" then (-1, r)
      else if Ascii.eqb c "+" then (1, r)
      else (1, s1)
    | EmptyString => (1, s1)
    end in
  let radixed :=
    match snd signed with
    | String c0 (String c1 r) =>
      if Ascii.eqb c0 "0" && (Ascii.eqb c1 "x" || Ascii.eqb c1 "X")
      then (16, r)
      else (10, snd signed)
    | _ => (10, snd signed)
    end in
  option_map (Z.mul (fst signed)) (parseDigits (fst radixed) (snd radixed) None).

(** [parseInt(s) || 0] *)
Definition parseIntOr0 (s : string) : Z :=
  match parseInt s with
  | Some v => v
  | None => 0
  end.

(** [s.slice(0, -1)] *)
Definition sliceOffLast (s : string) : string :=
  substring 0 (String.length s - 1) s.

Definition handleNumClick (num inputVal : string) : string :=
  if String.eqb inputVal "0" then num
  else if (String.length inputVal <? 5)%nat then (inputVal ++ num)%string
  else inputVal.

Definition handleBackspace (inputVal : string) : string :=
  if (1 <? String.length inputVal)%nat then sliceOffLast inputVal
  else "0".

Definition handleClear (inputVal : string) : string := "0".

(** [const adjustAmount = parseInt(inputVal) || 0] *)
Definition adjustAmountOf (inputVal : string) : Z := parseIntOr0 inputVal.

(** [handleUpdateClick]: the confirmation opens unless the amount is 0. *)
Definition handleUpdateClick (inputVal : string) (showConfirmation : bool)
    : bool :=
  if adjustAmountOf inputVal =? 0 then showConfirmation else true.

(** The keys of the pad. The digit keys pass one of the ten strings
    ['0'] to ['9']. *)
Inductive Key : Type :=
| NumKey (num : string)
| BackspaceKey
| ClearKey.

Definition digitKeys : list string :=
  ["7"; "8"; "9"; "4"; "5"; "6"; "1"; "2"; "3"; "0"]%string.

Definition keyOnPad (k : Key) : bool :=
  match k with
  | NumKey num => existsb (String.eqb num) digitKeys
  | _ => true
  end.

Definition press (k : Key) (inputVal : string) : string :=
  match k with
  | NumKey num => handleNumClick num inputVal
  | BackspaceKey => handleBackspace inputVal
  | ClearKey => handleClear inputVal
  end.

Definition pressAll (keys : list Key) (inputVal : string) : string :=
  fold_left (fun s k => press k s) keys inputVal.

(** What a key does to the amount, in arithmetic. *)
Definition pressAmount (k : Key) (amount : Z) : Z :=
  match k with
  | NumKey num =>
    if amount =? 0 then parseIntOr0 num
    else if amount <? 10000 then amount * 10 + parseIntOr0 num
    else amount
  | BackspaceKey => amount / 10
  | ClearKey => 0
  end.

(** [/^\d*$/]: decimal digits only, possibly none. *)
Definition isDigit (c : ascii) : bool :=
  let n := nat_of_ascii c in ((48 <=? n) && (n <=? 57))%nat.

Fixpoint digitsOnly (s : string) : bool :=
  match s with
  | String c s' => isDigit c && digitsOnly s'
  | EmptyString => true
  end.

(** What the pad can show: ["0"], or one to five digits the first of
    which is not a zero. *)
Definition amountText (s : string) : bool :=
  digitsOnly s
  && (1 <=? String.length s)%nat && (String.length s <=? 5)%nat
  && (String.eqb s "0"
      || match s with
         | String c _ => negb (Ascii.eqb c "0")
         | EmptyString => false
         end).

(** The number a string of decimal digits denotes, read after [acc]. *)
Definition digitValue (c : ascii) : Z := Z.of_nat (nat_of_ascii c) - 48.

Fixpoint decimalValue (acc : Z) (s : string) : Z :=
  match s with
  | String c s' => decimalValue (acc * 10 + digitValue c) s'
  | EmptyString => acc
  end.

(** ** The add-product form ([AddProduct])

    [quantity] is the text of the quantity field. *)

(** The decimal digits of [n], most significant first, put in front of
    [acc]; [fuel] bounds the number of digits. *)
Fixpoint digitsBefore (fuel : nat) (n : Z) (acc : string) : string :=
  let acc' := String (ascii_of_nat (Z.to_nat (48 + n mod 10))) acc in
  match fuel with
  | O => acc'
  | S fuel' => if n <? 10 then acc' else digitsBefore fuel' (n / 10) acc'
  end.

(** [String(n)] for an integer [n]: its decimal digits, after a minus
    sign when negative. JavaScript writes integers from 10^21 on with an
    exponent, and holds them exactly only up to 2^53 - 1; the statements
    about the form stay below that. *)
Definition numberToString (n : Z) : string :=
  if n <? 0
  then String "-" (digitsBefore (Z.to_nat (Z.log2 (- n))) (- n) EmptyString)
  else digitsBefore (Z.to_nat (Z.log2 n)) n EmptyString.

(** [Number.MAX_SAFE_INTEGER] *)
Definition MAX_SAFE_INTEGER : Z := 2 ^ 53 - 1.

Definition handleIncrement (prev : string) : string :=
  numberToString (parseIntOr0 prev + 1).

Definition handleDecrement (prev : string) : string :=
  let val := parseIntOr0 prev in
  numberToString (if 0 <? val then val - 1 else 0).

(** [handleChange]: the typed text is taken when [/^\d*$/] accepts it. *)
Definition handleChange (val quantity : string) : string :=
  if digitsOnly val then val else quantity.

Definition handleBlur (quantity : string) : string :=
  if String.eqb quantity "" then "0" else quantity.

Inductive FormEvent : Type :=
| Increment
| Decrement
| Change (val : string)
| Blur.

Definition formStep (e : FormEvent) (quantity : string) : string :=
  match e with
  | Increment => handleIncrement quantity
  | Decrement => handleDecrement quantity
  | Change val => handleChange val quantity
  | Blur => handleBlur quantity
  end.

Definition formRun (events : list FormEvent) (quantity : string) : string :=
  fold_left (fun q e => formStep e q) events quantity.

(** The product data [handleSubmit] passes to [createProduct]. *)
Definition submittedData (quantity : string) : ProductInsert :=
  mkProductInsert (Some (parseIntOr0 quantity)) None.

(** [handleSubmit]; the result is the alert shown, if any. *)
Definition handleSubmit (name quantity : string) : M (option string) :=
  if isBlank name then ret (Some "请输入产品名称")
  else
    result <- createProduct (submittedData quantity) ;;
    match cr_data result with
    | Some _ => ret None
    | None =>
      ret (Some ("创建产品失败：" ++ match cr_error result with
                                   | Some e =>
                                     if String.eqb e "" then "创建失败，请重试"
                                     else e
                                   | None => "创建失败，请重试"
                                   end)%string)
    end.

(** What a form event does to the quantity, as a number. *)
Definition formCount (e : FormEvent) (count : Z) : Z :=
  match e with
  | Increment => count + 1
  | Decrement => Z.max 0 (count - 1)
  | Change val => if digitsOnly val then decimalValue 0 val else count
  | Blur => count
  end.

(** A text of at most fifteen characters, as a user types it. *)
Definition typedShort (e : FormEvent) : bool :=
  match e with
  | Change val => (String.length val <=? 15)%nat
  | _ => true
  end.

(** ** The dashboard ([Dashboard]) *)

Record MonthTotals : Type := mkMonthTotals {
  mt_thisMonthIn : Z;
  mt_lastMonthIn : Z;
  mt_thisMonthOut : Z;
  mt_lastMonthOut : Z
}.

(** One turn of the [for (const t of transactions)] loop; the two month
    starts are the local midnights [new Date(year, month, 1)] and
    [new Date(year, month - 1, 1)], in milliseconds. *)
Definition monthTotalsStep (thisMonthStart lastMonthStart : Z)
    (acc : MonthTotals) (t : Transaction) : MonthTotals :=
  let date := t_created_at t in
  if thisMonthStart <=? date
  then
    match t_type t with
    | TxIn =>
      mkMonthTotals (mt_thisMonthIn acc + t_amount t) (mt_lastMonthIn acc)
                    (mt_thisMonthOut acc) (mt_lastMonthOut acc)
    | TxOut =>
      mkMonthTotals (mt_thisMonthIn acc) (mt_lastMonthIn acc)
                    (mt_thisMonthOut acc + t_amount t) (mt_lastMonthOut acc)
    end
  else if (lastMonthStart <=? date) && (date <? thisMonthStart)
  then
    match t_type t with
    | TxIn =>
      mkMonthTotals (mt_thisMonthIn acc) (mt_lastMonthIn acc + t_amount t)
                    (mt_thisMonthOut acc) (mt_lastMonthOut acc)
    | TxOut =>
      mkMonthTotals (mt_thisMonthIn acc) (mt_lastMonthIn acc)
                    (mt_thisMonthOut acc) (mt_lastMonthOut acc + t_amount t)
    end
  else acc.

Definition monthTotals (thisMonthStart lastMonthStart : Z)
    (transactions : list Transaction) : MonthTotals :=
  fold_left (monthTotalsStep thisMonthStart lastMonthStart) transactions
            (mkMonthTotals 0 0 0 0).

(** The numbers of [k] digits that, followed by [p] zeros, are read as
    the double [a]: [a / 10^p] or the next integer, with [p] such that
    the whole has as many digits as [a] ([decimals] of them), or one
    more. *)
Definition shortestCandidates (a decimals k : Z) : list (Z * Z) :=
  filter (fun sp =>
            (10 ^ (k - 1) <=? fst sp) && (fst sp <? 10 ^ k)
            && (Number (fst sp * 10 ^ snd sp) =? Number a)%float)
         (flat_map (fun p => [(a / 10 ^ p, p); (a / 10 ^ p + 1, p)])
                   [decimals - k; decimals - k + 1]).

(** Of two candidates the one closer to [a]; at the same distance the
    even one. *)
Definition closerTo (a : Z) (x y : Z * Z) : Z * Z :=
  let dx := Z.abs (fst x * 10 ^ snd x - a) in
  let dy := Z.abs (fst y * 10 ^ snd y - a) in
  if dx <? dy then x
  else if dy <? dx then y
  else if Z.even (fst x) then x else y.

(** The fewest digits that still denote the double [a], with the power
    of ten that follows them; a double needs 17 digits at most. *)
Fixpoint shortestDigits (fuel : nat) (a decimals k : Z) : Z * Z :=
  match fuel with
  | O => (a, 0)
  | S fuel' =>
    match shortestCandidates a decimals k with
    | [] => shortestDigits fuel' a decimals (k + 1)
    | c :: cs => fold_left (closerTo a) cs c
    end
  end.

Definition shortest (a : Z) : Z * Z :=
  shortestDigits 17 a (Z.of_nat (String.length (numberToString a))) 1.

Fixpoint zeros (n : nat) : string :=
  match n with
  | O => EmptyString
  | S n' => String "0" (zeros n')
  end.

(** [String(a)] for an integer [a] from 2^53 to 10^21 held by a double:
    the shortest digits, then zeros. *)
Definition fixed (a : Z) : string :=
  let (digits, p) := shortest a in
  (numberToString digits ++ zeros (Z.to_nat p))%string.

(** [String(a)] for an integer [a >= 10^21] held by a double: the
    shortest digits, a point after the first one, and the exponent. *)
Definition exponential (a : Z) : string :=
  let (digits, p) := shortest a in
  let text := numberToString digits in
  let exponent := p + Z.of_nat (String.length text) - 1 in
  match text with
  | EmptyString => EmptyString
  | String first EmptyString =>
    (String first "e+" ++ numberToString exponent)%string
  | String first more =>
    (String first (String "." more) ++ "e+" ++ numberToString exponent)%string
  end.

(** [String(r)] for an integral number: the decimal digits of the
    integer up to 2^53 - 1 in magnitude; from there on the shortest
    digits that denote the double, followed by zeros below 10^21 and in
    the exponential form from 10^21 on. *)
Definition Rounded_toString (r : Rounded) : string :=
  match r with
  | Integer n =>
    let a := Z.abs n in
    let sign := if n <? 0 then "-" else "" in
    let digits := if a <? 10 ^ 21 then fixed a else exponential a in
    if a <=? MAX_SAFE_INTEGER then numberToString n
    else (sign ++ digits)%string
  | MinusZero => "0"
  | NotANumber => "NaN"
  | Infinite negative => if negative then "-Infinity" else "Infinity"
  end.

(** [calcTrend]: [null] is [None]. *)
Definition calcTrend (current previous : Z) : option string :=
  if previous =? 0
  then (if 0 <? current then Some "+" else None)
  else
    let pct := Math_round (change current previous) in
    let sign := if exceeds pct 0 then "+" else "" in
    Some (sign ++ Rounded_toString pct ++ "%")%string.

(** [{ inTrend, outTrend }] *)
Definition dashboardTrends (thisMonthStart lastMonthStart : Z)
    (transactions : list Transaction) : option string * option string :=
  let m := monthTotals thisMonthStart lastMonthStart transactions in
  (calcTrend (mt_thisMonthIn m) (mt_lastMonthIn m),
   calcTrend (mt_thisMonthOut m) (mt_lastMonthOut m)).

(** The sum of the amounts of the transactions of one type dated in
    [from, to), or from [from] on when there is no [to]. *)
Definition flowBetween (ty : TxType) (from : Z) (to : option Z)
    (l : list Transaction) : Z :=
  fold_right Z.add 0
    (map t_amount
       (filter (fun t => TxType_eqb (t_type t) ty
                         && (from <=? t_created_at t)
                         && match to with
                            | Some e => t_created_at t <? e
                            | None => true
                            end) l)).

(** ** The transaction log ([History.groupedHistory]) *)

(** [filterType]: ['all'], ['in'] or ['out']. *)
Inductive FilterType : Type :=
| AllTypes
| OnlyType (ty : TxType).

(** A [Map] with string keys, in insertion order. *)
Definition Groups : Type := list (string * list Transaction).

(** [if (!groups.has(k)) groups.set(k, []); groups.get(k)?.push(item)] *)
Fixpoint pushTo (k : string) (item : Transaction) (groups : Groups) : Groups :=
  match groups with
  | [] => [(k, [item])]
  | (k', items) :: rest =>
    if String.eqb k' k then (k', items ++ [item]) :: rest
    else (k', items) :: pushTo k item rest
  end.

Section History.

(** [getDateCategory] reads the clock and the calendar of the browser;
    the search matches on name and brand, columns that are not part of
    the rows here. Both are left open. *)
Variable getDateCategory : Z -> string.
Variable matchesSearch : Transaction -> bool.

Definition matchesType (filterType : FilterType) (item : Transaction) : bool :=
  match filterType with
  | AllTypes => true
  | OnlyType ty => TxType_eqb (t_type item) ty
  end.

Definition filteredHistory (filterType : FilterType)
    (transactions : list Transaction) : list Transaction :=
  filter (fun item => matchesType filterType item && matchesSearch item)
         transactions.

Definition groupedHistory (filterType : FilterType)
    (transactions : list Transaction) : Groups :=
  fold_left
    (fun groups item => pushTo (getDateCategory (t_created_at item)) item groups)
    (filteredHistory filterType transactions) [].

(** The items of a list that fall in one category, in their order. *)
Definition inCategory (k : string) (l : list Transaction) : list Transaction :=
  filter (fun t => String.eqb (getDateCategory (t_created_at t)) k) l.

Definition categoryOf (t : Transaction) : string :=
  getDateCategory (t_created_at t).

(** The categories of a list in the order of their first item. *)
Definition categoriesOf (l : list Transaction) : list string :=
  rev (nodup string_dec (rev (map categoryOf l))).

End History.

(** ** The analytics page ([Analytics]) *)

(** A value of the [consumption] map; name, brand and image are not
    part of the rows here. *)
Record Consumption : Type := mkConsumption {
  c_productId : Id;
  c_usage : Z
}.

(** Largest usage first. *)
Definition byUsage (a b : Consumption) : Prop := c_usage a >= c_usage b.

(** [consumption.get(productId)] *)
Definition consumptionGet (productId : Id) (consumption : list Consumption)
    : option Consumption :=
  find (fun c => Nat.eqb (c_productId c) productId) consumption.

(** [consumption.set(productId, value)]: a key that is there keeps its
    place, a new key goes to the end. *)
Fixpoint consumptionSet (productId : Id) (value : Consumption)
    (consumption : list Consumption) : list Consumption :=
  match consumption with
  | [] => [value]
  | c :: rest =>
    if Nat.eqb (c_productId c) productId then value :: rest
    else c :: consumptionSet productId value rest
  end.

(** The products of a list of transactions, in the order of their
    first transaction, and what one product adds up to in the list. *)
Definition productsOf (l : list Transaction) : list Id :=
  rev (nodup Nat.eq_dec (rev (map t_product_id l))).

Definition usageIn (productId : Id) (l : list Transaction) : Z :=
  fold_right Z.add 0
    (map t_amount
       (filter (fun t => Nat.eqb (t_product_id t) productId) l)).

(** [Array.prototype.sort] with a comparator: the sort is stable, so
    its result is the one of any stable sort; this one inserts from the
    right, an element going before the first element it does not come
    after. *)
Fixpoint insertBy {A} (compareFn : A -> A -> Z) (x : A) (l : list A) : list A :=
  match l with
  | [] => [x]
  | y :: l' =>
    if compareFn x y <=? 0 then x :: y :: l'
    else y :: insertBy compareFn x l'
  end.

Definition sortBy {A} (compareFn : A -> A -> Z) (l : list A) : list A :=
  fold_right (insertBy compareFn) [] l.

(** An entry of the ranking. [percentage] is [None] when the division
    by [maxUsage] has no finite result ([NaN] or an infinity, which
    [Math.round] hands on). *)
Record Ranked : Type := mkRanked {
  r_productId : Id;
  r_usage : Z;
  r_percentage : option Z
}.

(** A point of the chart; [None] is [null]. *)
Record ChartPoint : Type := mkChartPoint {
  cp_month : Z;
  cp_day : Z;
  cp_in : option Z;
  cp_out : option Z
}.

(** [dailyData.get(day)] and [dailyData.set(day, current)] *)
Definition dailyGet (day : Z) (dailyData : list (Z * (Z * Z))) : option (Z * Z) :=
  option_map snd (find (fun e => fst e =? day) dailyData).

Fixpoint dailySet (day : Z) (value : Z * Z) (dailyData : list (Z * (Z * Z)))
    : list (Z * (Z * Z)) :=
  match dailyData with
  | [] => [(day, value)]
  | e :: rest =>
    if fst e =? day then (day, value) :: rest
    else e :: dailySet day value rest
  end.

(** What the transactions of a list dated on day [i] add up to, for one
    type. *)
Definition dayTotal (getDate : Z -> Z) (ty : TxType) (i : Z)
    (l : list Transaction) : Z :=
  fold_right Z.add 0
    (map t_amount
       (filter (fun t => (getDate (t_created_at t) =? i)
                         && TxType_eqb (t_type t) ty) l)).

Section Analytics.

(** [getMonth], [getFullYear] and [getDate] of a date in the browser's
    time zone; [currentDate] is the month the page shows. *)
Variables getMonth getFullYear getDate : Z -> Z.

Definition monthTransactions (currentDate : Z) (transactions : list Transaction)
    : list Transaction :=
  filter (fun t => TxType_eqb (t_type t) TxOut
                   && (getMonth (t_created_at t) =? getMonth currentDate)
                   && (getFullYear (t_created_at t) =? getFullYear currentDate))
         transactions.

(** The [forEach] that fills the map. *)
Definition consumptionStep (consumption : list Consumption) (t : Transaction)
    : list Consumption :=
  let current :=
    match consumptionGet (t_product_id t) consumption with
    | Some c => c
    | None => mkConsumption (t_product_id t) 0
    end in
  consumptionSet (t_product_id t)
    (mkConsumption (t_product_id t) (c_usage current + t_amount t))
    consumption.

Definition consumptionOf (currentDate : Z) (transactions : list Transaction)
    : list Consumption :=
  fold_left consumptionStep (monthTransactions currentDate transactions) [].

(** [Math.round] of an exact ratio: the nearest integer, halves going
    up. *)
Definition Math_round_exact (x : Q) : Z := Qfloor (x + (1 # 2)).

(** [consumptionRanking]. The [percentage] of a bar is computed here
    from the exact ratio [usage / maxUsage]; the page divides in doubles,
    where the quotient is rounded before it is scaled by 100, so that at
    an exact half (23 of 40) its bar can be one percent shorter. The
    usages, their order, and the range of the percentages are those of
    the page. A [maxUsage] of 0 gives percentages that are not finite:
    [None]. *)
Definition consumptionRanking (currentDate : Z)
    (transactions : list Transaction) : list Ranked :=
  let sorted :=
    firstn 5
      (sortBy (fun a b => c_usage b - c_usage a)
              (consumptionOf currentDate transactions)) in
  let maxUsage :=
    match sorted with
    | first :: _ => c_usage first
    | [] => 1
    end in
  map (fun item =>
         mkRanked (c_productId item) (c_usage item)
           (if maxUsage =? 0 then None
            else Some (Math_round_exact
                         (inject_Z (c_usage item) / inject_Z maxUsage * 100)%Q)))
      sorted.

(** The [forEach] that fills [dailyData]. *)
Definition dailyStep (dailyData : list (Z * (Z * Z))) (t : Transaction)
    : list (Z * (Z * Z)) :=
  let day := getDate (t_created_at t) in
  let current :=
    match dailyGet day dailyData with
    | Some c => c
    | None => (0, 0)
    end in
  dailySet day
    (match t_type t with
     | TxIn => (fst current + t_amount t, snd current)
     | TxOut => (fst current, snd current + t_amount t)
     end)
    dailyData.

(** [chartData]; [daysInMonth] is [new Date(year, month + 1, 0).getDate()]
    and [now] the clock. *)
Definition chartData (now currentDate : Z) (daysInMonth : nat)
    (selectedProductId : Id) (transactions : list Transaction)
    : list ChartPoint :=
  let year := getFullYear currentDate in
  let month := getMonth currentDate in
  let today := getDate now in
  let isCurrentMonth :=
    (getMonth now =? getMonth currentDate)
    && (getFullYear now =? getFullYear currentDate) in
  let productTransactions :=
    filter (fun t => Nat.eqb (t_product_id t) selectedProductId
                     && (getMonth (t_created_at t) =? month)
                     && (getFullYear (t_created_at t) =? year))
           transactions in
  let dailyData := fold_left dailyStep productTransactions [] in
  map (fun i =>
         let isFuture := isCurrentMonth && (today <? i) in
         if isFuture then mkChartPoint (month + 1) i None None
         else
           let dayData :=
             match dailyGet i dailyData with
             | Some d => d
             | None => (0, 0)
             end in
           mkChartPoint (month + 1) i (Some (fst dayData)) (Some (snd dayData)))
      (map Z.of_nat (seq 1 daysInMonth)).

(** The transactions the chart is drawn from: those of the selected
    product in the month shown. *)
Definition chartTransactions (currentDate : Z) (selectedProductId : Id)
    (transactions : list Transaction) : list Transaction :=
  filter (fun t => Nat.eqb (t_product_id t) selectedProductId
                   && (getMonth (t_created_at t) =? getMonth currentDate)
                   && (getFullYear (t_created_at t) =? getFullYear currentDate))
         transactions.

(** A day that the chart leaves empty: a day after today in the
    current month. *)
Definition isFutureDay (now currentDate i : Z) : bool :=
  (getMonth now =? getMonth currentDate)
  && (getFullYear now =? getFullYear currentDate)
  && (getDate now <? i).

(** What a product used in the month shown. *)
Definition monthUsage (currentDate : Z) (productId : Id)
    (transactions : list Transaction) : Z :=
  usageIn productId (monthTransactions currentDate transactions).

End Analytics.

(** The sum of one line of the chart, an empty point counting for
    nothing. *)
Definition chartTotal (line : ChartPoint -> option Z) (chart : list ChartPoint)
    : Z :=
  fold_right Z.add 0
    (map (fun point => match line point with
                       | Some v => v
                       | None => 0
                       end) chart).

(** The sum of the amounts of one type. *)
Definition totalOf (ty : TxType) (l : list Transaction) : Z :=
  fold_right Z.add 0
    (map t_amount (filter (fun t => TxType_eqb (t_type t) ty) l)).

(** ** Warehouses ([DataContext]: [currentWarehouse], [fetchWarehouses],
    [createWarehouse], [updateWarehouse], [deleteWarehouse])

    The warehouse functions live in a state of their own: the three
    tables of the store with the warehouse column of the rows, and the
    part of the provider they read and write. Function results and
    states are passed explicitly. *)

Record Warehouse : Type := mkWarehouse {
  wh_id : Id;
  wh_name : string;
  wh_is_default : bool
}.

(** A row together with its [warehouse_id] column, which may be null. *)
Record Housed (A : Type) : Type := mkHoused {
  h_row : A;
  h_warehouse_id : option Id
}.

Arguments mkHoused {A} _ _.
Arguments h_row {A} _.
Arguments h_warehouse_id {A} _.

(** The error object of a refused request. *)
Record SupabaseError : Type := mkSupabaseError {
  e_code : string;
  e_message : option string
}.

(** The store: [warehouses] in the order of creation; every request
    consumes one scripted reply, [None] being success, and an exhausted
    script means success. *)
Record Depot : Type := mkDepot {
  dp_warehouses : list Warehouse;
  dp_products : list (Housed Product);
  dp_transactions : list (Housed Transaction);
  dp_next_id : Id;
  dp_replies : list (option SupabaseError)
}.

(** The provider, as far as the warehouse functions go.
    [currentWarehouseId] is a string, empty when nothing is stored:
    [None] here. *)
Record Provider : Type := mkProvider {
  pv_user : option Id;
  pv_configured : bool;
  warehouses : list Warehouse;
  warehouseEnabled : bool;
  currentWarehouseId : option Id;
  pv_products : list (Housed Product);
  pv_transactions : list (Housed Transaction);
  pv_allTransactions : list (Housed Transaction)
}.

Record Site : Type := mkSite {
  depot : Depot;
  provider : Provider
}.

(** [a || b] on values that are objects or undefined. *)
Definition orElse {A} (a b : option A) : option A :=
  match a with
  | Some _ => a
  | None => b
  end.

Definition hasId (id : Id) (w : Warehouse) : bool := Nat.eqb (wh_id w) id.

(** [w.warehouse_id !== id] *)
Definition notIn {A} (id : Id) (r : Housed A) : bool :=
  match h_warehouse_id r with
  | Some i => negb (Nat.eqb i id)
  | None => true
  end.

(** [currentWarehouse]: the stored id if it names a warehouse of the
    list, else the first default warehouse, else the first warehouse,
    else null. *)
Definition currentWarehouse (p : Provider) : option Warehouse :=
  orElse
    (match currentWarehouseId p with
     | Some id => find (hasId id) (warehouses p)
     | None => None
     end)
    (orElse (find wh_is_default (warehouses p)) (hd_error (warehouses p))).

(** [s.includes(sub)] *)
Fixpoint includes (sub s : string) : bool :=
  if String.prefix sub s then true
  else
    match s with
    | EmptyString => false
    | String _ s' => includes sub s'
    end.

(** [error.message?.includes(sub)] *)
Definition messageIncludes (sub : string) (e : SupabaseError) : bool :=
  match e_message e with
  | Some m => includes sub m
  | None => false
  end.

(** [error.code === '42P01' || error.message?.includes('does not exist')] *)
Definition tableMissing (e : SupabaseError) : bool :=
  String.eqb (e_code e) "42P01" || messageIncludes "does not exist" e.

Definition nextReply (d : Depot) : option SupabaseError :=
  match dp_replies d with
  | r :: _ => r
  | [] => None
  end.

(** The requests. Each returns the error, if any, and the store after
    it. *)

(** [from('warehouses').select('*').order('is_default', desc)
    .order('created_at', asc)]: the default warehouses first, each part
    in the order of creation. *)
Definition depot_select_warehouses (d : Depot)
    : (SupabaseError + list Warehouse) * Depot :=
  let d' := mkDepot (dp_warehouses d) (dp_products d) (dp_transactions d)
                    (dp_next_id d) (tl (dp_replies d)) in
  match nextReply d with
  | Some e => (inl e, d')
  | None =>
    (inr (filter wh_is_default (dp_warehouses d)
          ++ filter (fun w => negb (wh_is_default w)) (dp_warehouses d)), d')
  end.

(** [from('warehouses').insert(payload).select().single()] *)
Definition depot_insert_warehouse (name : string) (is_default : bool)
    (d : Depot) : (SupabaseError + Warehouse) * Depot :=
  match nextReply d with
  | Some e =>
    (inl e, mkDepot (dp_warehouses d) (dp_products d) (dp_transactions d)
                    (dp_next_id d) (tl (dp_replies d)))
  | None =>
    let w := mkWarehouse (dp_next_id d) name is_default in
    (inr w, mkDepot (dp_warehouses d ++ [w]) (dp_products d)
                    (dp_transactions d) (S (dp_next_id d))
                    (tl (dp_replies d)))
  end.

(** The fields a warehouse update may carry; description and colour are
    not part of the rows here. *)
Record WarehouseUpdate : Type := mkWarehouseUpdate {
  wu_name : option string;
  wu_is_default : option bool
}.

(** [{ ...w, ...updates }] *)
Definition applyUpdate (updates : WarehouseUpdate) (w : Warehouse) : Warehouse :=
  mkWarehouse (wh_id w)
    (match wu_name updates with Some n => n | None => wh_name w end)
    (match wu_is_default updates with Some b => b | None => wh_is_default w end).

(** [from('warehouses').update(updates).eq('id', id)] *)
Definition depot_update_warehouse (id : Id) (updates : WarehouseUpdate)
    (d : Depot) : option SupabaseError * Depot :=
  match nextReply d with
  | Some e =>
    (Some e, mkDepot (dp_warehouses d) (dp_products d) (dp_transactions d)
                     (dp_next_id d) (tl (dp_replies d)))
  | None =>
    (None, mkDepot (map (fun w => if hasId id w then applyUpdate updates w else w)
                        (dp_warehouses d))
                   (dp_products d) (dp_transactions d) (dp_next_id d)
                   (tl (dp_replies d)))
  end.

(** [from('transactions').delete().eq('warehouse_id', id)] *)
Definition depot_delete_transactions_in (id : Id) (d : Depot)
    : option SupabaseError * Depot :=
  match nextReply d with
  | Some e =>
    (Some e, mkDepot (dp_warehouses d) (dp_products d) (dp_transactions d)
                     (dp_next_id d) (tl (dp_replies d)))
  | None =>
    (None, mkDepot (dp_warehouses d) (dp_products d)
                   (filter (notIn id) (dp_transactions d))
                   (dp_next_id d) (tl (dp_replies d)))
  end.

(** [from('products').delete().eq('warehouse_id', id)] *)
Definition depot_delete_products_in (id : Id) (d : Depot)
    : option SupabaseError * Depot :=
  match nextReply d with
  | Some e =>
    (Some e, mkDepot (dp_warehouses d) (dp_products d) (dp_transactions d)
                     (dp_next_id d) (tl (dp_replies d)))
  | None =>
    (None, mkDepot (dp_warehouses d)
                   (filter (notIn id) (dp_products d))
                   (dp_transactions d)
                   (dp_next_id d) (tl (dp_replies d)))
  end.

(** [from('warehouses').delete().eq('id', id)]; the two foreign keys on
    [warehouse_id] are declared [on delete cascade]. *)
Definition depot_delete_warehouse (id : Id) (d : Depot)
    : option SupabaseError * Depot :=
  match nextReply d with
  | Some e =>
    (Some e, mkDepot (dp_warehouses d) (dp_products d) (dp_transactions d)
                     (dp_next_id d) (tl (dp_replies d)))
  | None =>
    (None, mkDepot (filter (fun w => negb (hasId id w)) (dp_warehouses d))
                   (filter (notIn id) (dp_products d))
                   (filter (notIn id) (dp_transactions d))
                   (dp_next_id d) (tl (dp_replies d)))
  end.

(** [{ data: Warehouse | null; error: string | null }] *)
Record WarehouseResult : Type := mkWarehouseResult {
  wr_data : option Warehouse;
  wr_error : option string
}.

Record WarehouseInsert : Type := mkWarehouseInsert {
  wi_name : string;
  wi_is_default : option bool
}.

(** The message [createWarehouse] returns for a refused insert. *)
Definition createErrorMessage (e : SupabaseError) : string :=
  if tableMissing e
  then "仓库表不存在，请在 Supabase SQL Editor 执行数据库迁移脚本"
  else if String.eqb (e_code e) "42501" || messageIncludes "permission denied" e
  then "权限不足，请检查 RLS 策略设置"
  else
    match e_message e with
    | Some m =>
      if String.eqb m "" then ("数据库错误 (" ++ e_code e ++ ")")%string else m
    | None => ("数据库错误 (" ++ e_code e ++ ")")%string
    end.

(** [createWarehouse]. The store answers every request, so the [catch]
    branch for a thrown exception is not reached; an insert that
    succeeds returns its row. *)
Definition createWarehouse (warehouseData : WarehouseInsert) (s : Site)
    : WarehouseResult * Site :=
  let p := provider s in
  match pv_user p with
  | None => (mkWarehouseResult None (Some "请先登录"), s)
  | Some _ =>
    if negb (pv_configured p)
    then (mkWarehouseResult None (Some "Supabase 未正确配置，请检查环境变量"), s)
    else
      let is_default :=
        match wi_is_default warehouseData with
        | Some b => b
        | None => false
        end in
      match depot_insert_warehouse (wi_name warehouseData) is_default (depot s) with
      | (inl e, d) =>
        (mkWarehouseResult None (Some (createErrorMessage e)), mkSite d p)
      | (inr newWarehouse, d) =>
        let first := (List.length (warehouses p) =? 0)%nat in
        (mkWarehouseResult (Some newWarehouse) None,
         mkSite d
           (mkProvider (pv_user p) (pv_configured p)
              (warehouses p ++ [newWarehouse])
              (if first then true else warehouseEnabled p)
              (if first then Some (wh_id newWarehouse) else currentWarehouseId p)
              (pv_products p) (pv_transactions p) (pv_allTransactions p)))
      end
  end.

(** [updateWarehouse] *)
Definition updateWarehouse (id : Id) (updates : WarehouseUpdate) (s : Site)
    : bool * Site :=
  let p := provider s in
  if negb (warehouseEnabled p) then (false, s)
  else
    match depot_update_warehouse id updates (depot s) with
    | (Some _, d) => (false, mkSite d p)
    | (None, d) =>
      (true,
       mkSite d
         (mkProvider (pv_user p) (pv_configured p)
            (map (fun w => if hasId id w then applyUpdate updates w else w)
                 (warehouses p))
            (warehouseEnabled p) (currentWarehouseId p)
            (pv_products p) (pv_transactions p) (pv_allTransactions p)))
    end.

(** The message of a refused request that [deleteWarehouse] throws and
    catches. What the store's client reports is a plain object, not an
    [Error], so [error instanceof Error] does not hold and the text is
    the default one, whatever the error says. *)
Definition thrownMessage (e : SupabaseError) : string := "删除失败".

(** [deleteWarehouse]: [warehouses] and [currentWarehouseId] are the
    values the provider rendered with. *)
Definition deleteWarehouse (id : Id) (s : Site) : DeleteResult * Site :=
  let p := provider s in
  if negb (warehouseEnabled p)
  then (mkDeleteResult false (Some "仓库功能未启用"), s)
  else
    match find (hasId id) (warehouses p) with
    | None => (mkDeleteResult false (Some "仓库不存在"), s)
    | Some warehouse =>
      if wh_is_default warehouse
      then (mkDeleteResult false (Some "无法删除默认仓库"), s)
      else if (List.length (warehouses p) <=? 1)%nat
      then (mkDeleteResult false (Some "至少需要保留一个仓库"), s)
      else
        match depot_delete_transactions_in id (depot s) with
        | (Some txError, d1) =>
          (mkDeleteResult false (Some (thrownMessage txError)), mkSite d1 p)
        | (None, d1) =>
          match depot_delete_products_in id d1 with
          | (Some prodError, d2) =>
            (mkDeleteResult false (Some (thrownMessage prodError)), mkSite d2 p)
          | (None, d2) =>
            match depot_delete_warehouse id d2 with
            | (Some error, d3) =>
              (mkDeleteResult false (Some (thrownMessage error)), mkSite d3 p)
            | (None, d3) =>
              let switched :=
                match currentWarehouseId p with
                | Some current =>
                  if Nat.eqb current id
                  then
                    match find (fun w => wh_is_default w && negb (hasId id w))
                               (warehouses p) with
                    | Some defaultWarehouse => Some (wh_id defaultWarehouse)
                    | None => currentWarehouseId p
                    end
                  else currentWarehouseId p
                | None => currentWarehouseId p
                end in
              (mkDeleteResult true None,
               mkSite d3
                 (mkProvider (pv_user p) (pv_configured p)
                    (filter (fun w => negb (hasId id w)) (warehouses p))
                    (warehouseEnabled p) switched
                    (filter (notIn id) (pv_products p))
                    (filter (notIn id) (pv_transactions p))
                    (filter (notIn id) (pv_allTransactions p))))
            end
          end
        end
    end.

(** [fetchWarehouses]: the list is read from the store; an empty list
    makes the provider create the default warehouse; a stored id that
    names no warehouse of the list is replaced. *)
Definition fetchWarehouses (s : Site) : Site :=
  let p := provider s in
  match pv_user p with
  | None => s
  | Some _ =>
    match depot_select_warehouses (depot s) with
    | (inl _, d) =>
      mkSite d
        (mkProvider (pv_user p) (pv_configured p) [] false
           (currentWarehouseId p)
           (pv_products p) (pv_transactions p) (pv_allTransactions p))
    | (inr warehouseList, d) =>
      if (List.length warehouseList =? 0)%nat
      then
        match depot_insert_warehouse "默认仓库" true d with
        | (inr newWarehouse, d') =>
          mkSite d'
            (mkProvider (pv_user p) (pv_configured p) [newWarehouse] true
               (Some (wh_id newWarehouse))
               (pv_products p) (pv_transactions p) (pv_allTransactions p))
        | (inl _, d') =>
          mkSite d'
            (mkProvider (pv_user p) (pv_configured p) warehouseList true
               (currentWarehouseId p)
               (pv_products p) (pv_transactions p) (pv_allTransactions p))
        end
      else
        let stale :=
          match currentWarehouseId p with
          | Some current =>
            match find (hasId current) warehouseList with
            | Some _ => false
            | None => true
            end
          | None => true
          end in
        let current' :=
          if stale
          then
            match orElse (find wh_is_default warehouseList)
                         (hd_error warehouseList) with
            | Some defaultWarehouse => Some (wh_id defaultWarehouse)
            | None => currentWarehouseId p
            end
          else currentWarehouseId p in
        mkSite d
          (mkProvider (pv_user p) (pv_configured p) warehouseList true
             current'
             (pv_products p) (pv_transactions p) (pv_allTransactions p))
    end
  end.

(** [setCurrentWarehouseId] *)
Definition setCurrentWarehouseId (id : Id) (s : Site) : Site :=
  let p := provider s in
  mkSite (depot s)
    (mkProvider (pv_user p) (pv_configured p) (warehouses p)
       (warehouseEnabled p) (Some id)
       (pv_products p) (pv_transactions p) (pv_allTransactions p)).

(** [WarehouseManage.handleSave]: [editingWarehouse] is the id of the
    warehouse being edited, or null for a new one; the result is the
    alert shown, if any. *)
Definition handleSave (editingWarehouse : option Id) (name : string) (s : Site)
    : option string * Site :=
  if isBlank name then (Some "请输入仓库名称", s)
  else
    match editingWarehouse with
    | Some id =>
      let (success, s') :=
        updateWarehouse id (mkWarehouseUpdate (Some (trim name)) None) s in
      (if success then None else Some "更新失败，请重试", s')
    | None =>
      let (result, s') :=
        createWarehouse (mkWarehouseInsert (trim name) None) s in
      (match wr_data result with
       | Some _ => None
       | None =>
         Some ("创建失败：" ++ match wr_error result with
                              | Some e => e
                              | None => "null"
                              end)%string
       end, s')
    end.

(** What a user does on the warehouse pages. *)
Inductive WarehouseEvent : Type :=
| Fetch
| Save (editingWarehouse : option Id) (name : string)
| DeleteWarehouse (id : Id)
| Select (id : Id).

Definition warehouseStep (s : Site) (e : WarehouseEvent) : Site :=
  match e with
  | Fetch => fetchWarehouses s
  | Save editingWarehouse name => snd (handleSave editingWarehouse name s)
  | DeleteWarehouse id => snd (deleteWarehouse id s)
  | Select id => setCurrentWarehouseId id s
  end.

Definition warehouseRun (events : list WarehouseEvent) (s : Site) : Site :=
  fold_left warehouseStep events s.

(** The reply to the [n]-th request from now. *)
Definition replyAt (n : nat) (s : Site) : option SupabaseError :=
  nth n (dp_replies (depot s)) None.

(** No row of the warehouse is left. *)
Definition cleared {A} (id : Id) (l : list (Housed A)) : Prop :=
  forall r, In r l -> h_warehouse_id r <> Some id.

(** No refusal is scripted. *)
Definition quiet (d : Depot) : bool :=
  forallb (fun r => match r with
                    | None => true
                    | Some _ => false
                    end) (dp_replies d).

(** Provider and store agree on the warehouses, up to their order; ids
    are handed out once; a user is logged in and nothing is refused. *)
Definition inOrder (s : Site) : Prop :=
  Permutation (warehouses (provider s)) (dp_warehouses (depot s))
  /\ NoDup (map wh_id (dp_warehouses (depot s)))
  /\ (forall w, In w (dp_warehouses (depot s)) ->
        (wh_id w < dp_next_id (depot s))%nat)
  /\ quiet (depot s) = true
  /\ pv_user (provider s) <> None
  /\ pv_configured (provider s) = true.

(** The warehouse feature is on and the list has a default warehouse. *)
Definition settled (s : Site) : Prop :=
  warehouseEnabled (provider s) = true
  /\ exists w, In w (warehouses (provider s)) /\ wh_is_default w = true.

(** A user who has just logged in, with nothing stored in the browser
    and an empty store. *)
Definition newSite (u : Id) (replies : list (option SupabaseError)) : Site :=
  mkSite (mkDepot [] [] [] 0%nat replies)
         (mkProvider (Some u) true [] false None [] [] []).

(** ** The product list of the dashboard
    ([Dashboard.filteredAndSortedProducts]) *)

(** ['default' | 'quantityAsc' | 'quantityDesc'] *)
Inductive SortOption : Type :=
| SortDefault
| QuantityAsc
| QuantityDesc.

(** The search matches on name, brand and variant, columns that are
    not part of the rows here; it is left open. *)
Definition filteredAndSortedProducts (matchesSearch : Product -> bool)
    (sortOption : SortOption) (products : list Product) : list Product :=
  let result := filter matchesSearch products in
  match sortOption with
  | QuantityAsc => sortBy (fun a b => p_quantity a - p_quantity b) result
  | QuantityDesc => sortBy (fun a b => p_quantity b - p_quantity a) result
  | SortDefault => result
  end.

(** The products of a list that hold a given quantity, in their order. *)
Definition withQuantity (q : Z) (l : list Product) : list Product :=
  filter (fun p => p_quantity p =? q) l.

(** ** The time shown in the log ([History.formatTime]) *)

Section FormatTime.

(** [date.toLocaleTimeString('zh-CN', { hour: '2-digit', minute:
    '2-digit' })], which depends on the browser's time zone. *)
Variable toLocaleTimeString : Z -> string.

Definition formatTime (now date : Z) : string :=
  let diffMs := now - date in
  let diffHours := diffMs / (1000 * 60 * 60) in
  if diffHours <? 1
  then
    let diffMinutes := diffMs / (1000 * 60) in
    if diffMinutes <=? 1 then "刚刚"
    else (numberToString diffMinutes ++ "分钟前")%string
  else if diffHours <? 24
  then (numberToString diffHours ++ "小时前")%string
  else toLocaleTimeString date.

End FormatTime.

(** * Properties *)

(** ** Rows and snapshots *)

Lemma map_setQuantity_twice (productId : Id) (q1 q2 : Z) (l : list Product) :
  map (setQuantity productId q2) (map (setQuantity productId q1) l)
  = map (setQuantity productId q2) l.
Proof.
  rewrite map_map. apply map_ext. intros p. unfold setQuantity.
  destruct (Nat.eqb (p_id p) productId) eqn:E; simpl; rewrite E; reflexivity.
Qed.

Lemma map_setQuantity_agrees (product : Product) (l : list Product) :
  snapshotAgrees product l = true ->
  map (setQuantity (p_id product) (p_quantity product)) l = l.
Proof.
  unfold snapshotAgrees. induction l as [|p l IH]; simpl; intros H.
  - reflexivity.
  - apply andb_true_iff in H. destruct H as [Hp Hl].
    rewrite (IH Hl). f_equal. unfold setQuantity.
    destruct (Nat.eqb (p_id p) (p_id product)); simpl in Hp.
    + apply Z.eqb_eq in Hp. rewrite <- Hp. destruct p; reflexivity.
    + reflexivity.
Qed.

Lemma map_setQuantity_restore (product : Product) (q : Z) (l : list Product) :
  snapshotAgrees product l = true ->
  map (setQuantity (p_id product) (p_quantity product))
      (map (setQuantity (p_id product) q) l) = l.
Proof.
  intros H. rewrite map_setQuantity_twice. apply map_setQuantity_agrees, H.
Qed.

Lemma quantityOf_setQuantity (productId : Id) (q : Z) (l : list Product) :
  quantityOf productId (map (setQuantity productId q) l)
  = option_map (fun _ => q) (quantityOf productId l).
Proof.
  unfold quantityOf. induction l as [|p l IH]; simpl.
  - reflexivity.
  - assert (Hid : p_id (setQuantity productId q p) = p_id p)
      by (unfold setQuantity; destruct (Nat.eqb _ _); reflexivity).
    rewrite Hid. destruct (Nat.eqb (p_id p) productId) eqn:E.
    + simpl. unfold setQuantity. rewrite E. reflexivity.
    + apply IH.
Qed.

(** Unfolds one operation on a world given by its fields. *)
Ltac run_op :=
  unfold exec, eval, outcomeAt, handleConfirmAction, createProduct,
    deleteTransaction, updateProductQuantity, createTransaction,
    db_update_quantity, db_insert_product, db_insert_transaction,
    db_delete_transaction, setProducts, setTransactions, setAllTransactions,
    log, getCtx, bind, ret, next_outcome in *;
  simpl in *.

Ltac script3 outs :=
  let b1 := fresh "b" in
  let b2 := fresh "b" in
  let b3 := fresh "b" in
  destruct outs as [|b1 [|b2 [|b3 outs]]]; simpl in *;
  try discriminate; subst; simpl in *.

(** ** Adjust Stock *)

(** C2. An ['out'] adjustment that asks for more than the product holds,
    dated by its date field, with both store requests succeeding,
    records one transaction whose
    amount is the product's current quantity (not the requested amount),
    and leaves the product at quantity 0 in the store and in the
    provider's snapshot. *)
Theorem clamped_withdrawal (w : World) (product : Product)
    (adjustAmount customDate : Z) :
  user (ctx w) <> None ->
  outcomeAt 0 w = true ->
  outcomeAt 1 w = true ->
  p_quantity product < adjustAmount ->
  let run :=
    handleConfirmAction false product subtract adjustAmount (Some customDate) in
  let w' := exec run w in
  eval run w = Navigated
  /\ db_transactions (store w')
     = db_transactions (store w)
       ++ [mkTransaction (db_next_id (store w)) (p_id product) TxOut
             (p_quantity product) customDate]
  /\ Z.min adjustAmount (p_quantity product) = p_quantity product
  /\ quantityOf (p_id product) (db_products (store w'))
     = option_map (fun _ => 0) (quantityOf (p_id product) (db_products (store w)))
  /\ quantityOf (p_id product) (products (ctx w'))
     = option_map (fun _ => 0) (quantityOf (p_id product) (products (ctx w))).
Proof.
  destruct w as [[dbp dbt nid now outs reqs] [u cfg ps ts ats con]].
  intros Hu H0 H1 Hlt. run_op.
  destruct u as [u|]; [|congruence].
  assert (Hmax : Z.max 0 (p_quantity product - adjustAmount) = 0) by lia.
  assert (Hmin : Z.min adjustAmount (p_quantity product) = p_quantity product)
    by lia.
  script3 outs; rewrite ?Hmax, ?Hmin, ?quantityOf_setQuantity;
    repeat split; reflexivity.
Qed.

Lemma clamped_withdrawal_witness :
  let w' := exec (handleConfirmAction false sampleProduct subtract 15 (Some 99))
                 (sampleWorld []) in
  db_transactions (store w') = [mkTransaction 1%nat 0%nat TxOut 10 99]
  /\ quantityOf 0%nat (db_products (store w')) = Some 0.
Proof.
  pose proof (clamped_withdrawal (sampleWorld []) sampleProduct 15 99) as H.
  simpl in H.
  destruct H as (_ & Ht & _ & Hq & _);
    [discriminate | reflexivity | reflexivity | lia |].
  split; [exact Ht | exact Hq].
Defined.

(** C3 (as amended). When the quantity write is accepted and the
    transaction write is refused, the engine sends exactly three
    requests, the last one a compensating write of the pre-adjustment
    quantity, which is the quantity of the product as the page holds
    it; the user is alerted that the transaction failed; and no
    transaction is recorded. All this holds whether the compensating
    write is accepted or not. When it is accepted, the product's
    quantity in the store and in the provider's snapshot is the
    pre-adjustment quantity, so that a table that agreed with the page
    before the operation is what it was; when it is refused, the store
    keeps the adjusted quantity. *)
Theorem adjust_compensation (w : World) (product : Product)
    (operation : Operation) (adjustAmount customDate : Z) :
  user (ctx w) <> None ->
  outcomeAt 0 w = true ->
  outcomeAt 1 w = false ->
  let run :=
    handleConfirmAction false product operation adjustAmount (Some customDate) in
  let w' := exec run w in
  let restore := setQuantity (p_id product) (p_quantity product) in
  let adjust :=
    setQuantity (p_id product)
      (finalStock (p_quantity product) adjustAmount operation) in
  eval run w = Alerted "交易记录创建失败，库存已回滚"
  /\ db_requests (store w')
     = db_requests (store w)
       ++ [UpdateQuantity (p_id product)
             (finalStock (p_quantity product) adjustAmount operation);
           InsertTransaction (p_id product)
             (match operation with add => TxIn | subtract => TxOut end)
             (match operation with
              | subtract => Z.min adjustAmount (p_quantity product)
              | add => adjustAmount
              end);
           UpdateQuantity (p_id product) (p_quantity product)]
  /\ db_transactions (store w') = db_transactions (store w)
  /\ transactions (ctx w') = transactions (ctx w)
  /\ allTransactions (ctx w') = allTransactions (ctx w)
  /\ (outcomeAt 2 w = true ->
      db_products (store w') = map restore (db_products (store w))
      /\ products (ctx w') = map restore (products (ctx w))
      /\ quantityOf (p_id product) (db_products (store w'))
         = option_map (fun _ => p_quantity product)
             (quantityOf (p_id product) (db_products (store w)))
      /\ (snapshotAgrees product (db_products (store w)) = true ->
          db_products (store w') = db_products (store w))
      /\ (snapshotAgrees product (products (ctx w)) = true ->
          products (ctx w') = products (ctx w)))
  /\ (outcomeAt 2 w = false ->
      db_products (store w') = map adjust (db_products (store w))
      /\ products (ctx w') = map adjust (products (ctx w))).
Proof.
  destruct w as [[dbp dbt nid now outs reqs] [u cfg ps ts ats con]].
  intros Hu H0 H1. run_op.
  destruct u as [u|]; [|congruence].
  script3 outs; try destruct b1; simpl;
    rewrite ?map_setQuantity_twice, ?quantityOf_setQuantity;
    rewrite <- ?app_assoc; simpl;
    repeat split; try reflexivity; try discriminate;
    intros; try (apply map_setQuantity_agrees; assumption).
Qed.

Lemma adjust_compensation_witness :
  let w' := exec (handleConfirmAction false sampleProduct subtract 4 (Some 99))
                 (sampleWorld [true; false; true]) in
  db_requests (store w')
  = [UpdateQuantity 0%nat 6; InsertTransaction 0%nat TxOut 4;
     UpdateQuantity 0%nat 10]
  /\ db_products (store w') = [mkProduct 0%nat 10]
  /\ db_transactions (store w') = [].
Proof.
  pose proof (adjust_compensation (sampleWorld [true; false; true])
                sampleProduct subtract 4 99) as H.
  simpl in H.
  destruct H as (_ & Hr & Ht & _ & _ & Hp & _);
    [discriminate | reflexivity | reflexivity |].
  destruct Hp as (Hp & _); [reflexivity |].
  split; [exact Hr | split; [exact Hp | exact Ht]].
Defined.

(** C3, the claim as stated, fails: with the quantity write succeeding
    and the transaction write failing, the compensating write may fail
    as well; the product then keeps the adjusted quantity although the
    user is told the stock was rolled back. *)
Lemma adjust_compensation_may_fail :
  let w := sampleWorld [true; false; false] in
  let run := handleConfirmAction false sampleProduct subtract 4 (Some 99) in
  outcomeAt 0 w = true
  /\ outcomeAt 1 w = false
  /\ eval run w = Alerted "交易记录创建失败，库存已回滚"
  /\ quantityOf 0%nat (db_products (store w)) = Some 10
  /\ quantityOf 0%nat (db_products (store (exec run w))) = Some 6
  /\ quantityOf 0%nat (products (ctx (exec run w))) = Some 6.
Proof. repeat split; reflexivity. Qed.

(** ** Create Product *)

(** C5 (as amended). When the product insert succeeds and the insert of
    the initial transaction fails, [createProduct] returns the new
    product with a null error, the product exists with its positive
    quantity and no ledger entry, and the only trace of the failure is a
    line on the console. *)
Theorem create_partial_failure (w : World) (productData : ProductInsert) :
  user (ctx w) <> None ->
  configured (ctx w) = true ->
  0 < or_default (pi_quantity productData) 0 ->
  outcomeAt 0 w = true ->
  outcomeAt 1 w = false ->
  let w' := exec (createProduct productData) w in
  let newProduct :=
    mkProduct (db_next_id (store w)) (or_default (pi_quantity productData) 0) in
  eval (createProduct productData) w = mkCreateResult (Some newProduct) None
  /\ db_products (store w') = db_products (store w) ++ [newProduct]
  /\ products (ctx w') = products (ctx w) ++ [newProduct]
  /\ db_transactions (store w') = db_transactions (store w)
  /\ transactions (ctx w') = transactions (ctx w)
  /\ allTransactions (ctx w') = allTransactions (ctx w)
  /\ console (ctx w')
     = console (ctx w) ++ ["[createProduct] 初始库存交易创建失败"].
Proof.
  destruct w as [[dbp dbt nid now outs reqs] [u cfg ps ts ats con]].
  intros Hu Hcfg Hq H0 H1. run_op. subst cfg.
  destruct u as [u|]; [|congruence]. simpl.
  apply Z.ltb_lt in Hq.
  script3 outs; rewrite Hq; simpl; repeat split; reflexivity.
Qed.

Lemma create_partial_failure_witness :
  let productData := mkProductInsert (Some 10) None in
  let w := newWorld (Some 7%nat) true 0 [true; false] in
  eval (createProduct productData) w
  = mkCreateResult (Some (mkProduct 0%nat 10)) None
  /\ db_transactions (store (exec (createProduct productData) w)) = [].
Proof.
  pose proof (create_partial_failure (newWorld (Some 7%nat) true 0 [true; false])
                (mkProductInsert (Some 10) None)) as H.
  simpl in H.
  destruct H as (Hr & _ & _ & Ht & _);
    [discriminate | reflexivity | lia | reflexivity | reflexivity |].
  split; [exact Hr | exact Ht].
Defined.

(** C5, the claim as stated, fails: the value handed to the caller
    after the partial failure is the very value handed over after a full
    success, so no warning reaches the caller; the two sessions differ in
    the ledger only. *)
Lemma create_partial_failure_not_surfaced :
  let productData := mkProductInsert (Some 10) None in
  let failing := newWorld (Some 7%nat) true 0 [true; false] in
  let working := newWorld (Some 7%nat) true 0 [true; true] in
  eval (createProduct productData) failing
  = eval (createProduct productData) working
  /\ cr_error (eval (createProduct productData) failing) = None
  /\ db_transactions (store (exec (createProduct productData) failing)) = []
  /\ db_transactions (store (exec (createProduct productData) working))
     = [mkTransaction 1%nat 0%nat TxIn 10 0].
Proof. repeat split; reflexivity. Qed.

(** ** Amounts written to the ledger *)

Lemma skipn_length_app {A} (l l' : list A) :
  skipn (List.length l) (l ++ l') = l'.
Proof. induction l as [|x l IH]; [reflexivity | exact IH]. Qed.

Lemma typed_in_or_out (t : Transaction) : t_type t = TxIn \/ t_type t = TxOut.
Proof. destruct (t_type t); [left | right]; reflexivity. Qed.

Lemma writesPositive_none (w w' : World) :
  db_transactions (store w') = db_transactions (store w) ->
  writesPositive w w'.
Proof.
  intros E. exists []. rewrite app_nil_r. split; [exact E | constructor].
Qed.

Lemma writesPositive_one (w w' : World) (t : Transaction) :
  db_transactions (store w') = db_transactions (store w) ++ [t] ->
  0 < t_amount t ->
  writesPositive w w'.
Proof.
  intros E Hpos. exists [t]. split; [exact E|].
  constructor; [|constructor]. split; [exact Hpos | apply typed_in_or_out].
Qed.

(** The reply to the [k]-th request of a run that applied the
    constraint. *)
Lemma checkApplied_refuses (w w' : World) (k : nat) (productId : Id)
    (ty : TxType) (amount : Z) :
  checkApplied w w' ->
  nth_error (requestsSent w w') k = Some (InsertTransaction productId ty amount) ->
  outcomeAt k w = true ->
  0 < amount.
Proof.
  intros Hcheck Hk Hok.
  destruct (Z.leb amount 0) eqn:E; [|apply Z.leb_gt in E; exact E].
  rewrite (Hcheck k _ Hk E) in Hok. discriminate.
Qed.

(** C9. Against a store that applies its constraint on amounts, every
    operation that writes to the ledger keeps the rows it found and adds
    only rows of a positive amount and of type ['in'] or ['out']:
    [createProduct] (which asks for the initial entry only when the
    initial quantity is positive, so that the constraint is not even
    needed), [createTransaction] and [handleConfirmAction], for every
    input and every script of outcomes. In particular a withdrawal from
    a product that holds nothing, whose quantity write is accepted, asks
    for a row of a non-positive amount, is refused, records nothing and
    alerts the user. *)
Theorem written_amounts_positive (w : World) :
  (forall productData : ProductInsert,
     writesPositive w (exec (createProduct productData) w))
  /\ (forall transactionData : TransactionInsert,
        let w' := exec (createTransaction transactionData) w in
        checkApplied w w' -> writesPositive w w')
  /\ (forall (isSubmitting : bool) (product : Product) (operation : Operation)
             (adjustAmount : Z) (customDate : option Z),
        let w' := exec (handleConfirmAction isSubmitting product operation
                          adjustAmount customDate) w in
        checkApplied w w' -> writesPositive w w')
  /\ (forall (product : Product) (adjustAmount customDate : Z),
        let run := handleConfirmAction false product subtract adjustAmount
                     (Some customDate) in
        let w' := exec run w in
        user (ctx w) <> None ->
        p_quantity product = 0 ->
        outcomeAt 0 w = true ->
        checkApplied w w' ->
        nth_error (requestsSent w w') 1
        = Some (InsertTransaction (p_id product) TxOut (Z.min adjustAmount 0))
        /\ outcomeAt 1 w = false
        /\ eval run w = Alerted "交易记录创建失败，库存已回滚"
        /\ db_transactions (store w') = db_transactions (store w)).
Proof.
  destruct w as [[dbp dbt nid now outs reqs] [u cfg ps ts ats con]].
  split; [|split; [|split]].
  - intros productData. run_op.
    destruct u as [u|]; [|apply writesPositive_none; reflexivity].
    destruct cfg; simpl; [|apply writesPositive_none; reflexivity].
    destruct (0 <? or_default (pi_quantity productData) 0) eqn:Hq;
      [apply Z.ltb_lt in Hq|];
      destruct outs as [|[|] [|[|] [|[|] outs]]]; simpl;
      try (apply writesPositive_none; reflexivity);
      (eapply writesPositive_one; [reflexivity | exact Hq]).
  - intros transactionData w' Hcheck. subst w'.
    assert (Hpos : user (mkCtx u cfg ps ts ats con) <> None ->
                   outcomeAt 0 (mkWorld (mkStore dbp dbt nid now outs reqs)
                                  (mkCtx u cfg ps ts ats con)) = true ->
                   0 < ti_amount transactionData).
    { intros Hu Hok.
      apply (checkApplied_refuses _ _ 0 (ti_product_id transactionData)
               (ti_type transactionData) _ Hcheck); [|exact Hok].
      unfold requestsSent. run_op.
      destruct u as [u|]; [|congruence]. simpl.
      destruct outs as [|[|] outs]; simpl; rewrite skipn_length_app;
        reflexivity. }
    clear Hcheck. run_op.
    destruct u as [u|]; [|apply writesPositive_none; reflexivity].
    destruct outs as [|[|] outs]; simpl in *;
      try (apply writesPositive_none; reflexivity);
      (eapply writesPositive_one;
       [reflexivity | apply Hpos; [discriminate | reflexivity]]).
  - intros isSubmitting product operation adjustAmount customDate w' Hcheck.
    subst w'.
    destruct isSubmitting; [apply writesPositive_none; reflexivity|].
    destruct customDate as [created_at|].
    + assert (Hpos : user (mkCtx u cfg ps ts ats con) <> None ->
                     outcomeAt 0 (mkWorld (mkStore dbp dbt nid now outs reqs)
                                    (mkCtx u cfg ps ts ats con)) = true ->
                     outcomeAt 1 (mkWorld (mkStore dbp dbt nid now outs reqs)
                                    (mkCtx u cfg ps ts ats con)) = true ->
                     0 < match operation with
                         | add => adjustAmount
                         | subtract => Z.min adjustAmount (p_quantity product)
                         end).
      { intros Hu H0 H1.
        apply (checkApplied_refuses _ _ 1 (p_id product)
                 (match operation with add => TxIn | subtract => TxOut end)
                 _ Hcheck); [|exact H1].
        unfold requestsSent. run_op.
        destruct u as [u|]; [|congruence].
        destruct outs as [|[|] [|[|] [|[|] outs]]]; simpl in *; try discriminate;
          rewrite <- ?app_assoc; rewrite skipn_length_app; reflexivity. }
      clear Hcheck. run_op.
      destruct u as [u|];
        destruct outs as [|[|] [|[|] [|[|] outs]]]; simpl in *;
        try (apply writesPositive_none; reflexivity);
        (eapply writesPositive_one;
         [reflexivity
         | apply Hpos; [discriminate | reflexivity | reflexivity]]).
    + run_op.
      destruct outs as [|[|] outs]; simpl;
        apply writesPositive_none; reflexivity.
  - intros product adjustAmount customDate run w' Hu Hq H0 Hcheck.
    subst run w'.
    assert (Hsent : nth_error
                      (requestsSent
                         (mkWorld (mkStore dbp dbt nid now outs reqs)
                            (mkCtx u cfg ps ts ats con))
                         (exec (handleConfirmAction false product subtract
                                  adjustAmount (Some customDate))
                            (mkWorld (mkStore dbp dbt nid now outs reqs)
                               (mkCtx u cfg ps ts ats con)))) 1
                    = Some (InsertTransaction (p_id product) TxOut
                              (Z.min adjustAmount 0))).
    { unfold requestsSent. run_op. rewrite Hq.
      destruct u as [u|]; [|congruence].
      destruct outs as [|[|] [|[|] [|[|] outs]]]; simpl in *; try discriminate;
        rewrite <- ?app_assoc; rewrite skipn_length_app; reflexivity. }
    assert (H1 : outcomeAt 1 (mkWorld (mkStore dbp dbt nid now outs reqs)
                                (mkCtx u cfg ps ts ats con)) = false).
    { apply (Hcheck 1%nat _ Hsent). simpl. apply Z.leb_le. lia. }
    split; [exact Hsent|]. split; [exact H1|]. clear Hcheck Hsent.
    run_op. destruct u as [u|]; [|congruence].
    destruct outs as [|[|] [|[|] [|[|] outs]]]; simpl in *; try discriminate;
      split; reflexivity.
Qed.

Lemma written_amounts_positive_witness :
  (let w := sampleEmptyWorld [true; false; true] in
   let run := handleConfirmAction false (mkProduct 0%nat 0) subtract 3
                (Some 99) in
   checkApplied w (exec run w)
   /\ eval run w = Alerted "交易记录创建失败，库存已回滚"
   /\ db_transactions (store (exec run w)) = []
   /\ db_products (store (exec run w)) = [mkProduct 0%nat 0])
  /\ (let w := sampleWorld [] in
      let run := handleConfirmAction false sampleProduct subtract 15
                   (Some 99) in
      checkApplied w (exec run w)
      /\ db_transactions (store (exec run w))
         = [mkTransaction 1%nat 0%nat TxOut 10 99]
      /\ writesPositive w (exec run w)).
Proof.
  split.
  - assert (Hcheck : checkApplied (sampleEmptyWorld [true; false; true])
                       (exec (handleConfirmAction false (mkProduct 0%nat 0)
                                subtract 3 (Some 99))
                          (sampleEmptyWorld [true; false; true]))).
    { intros k r Hk Hr.
      do 3 (destruct k as [|k];
            [vm_compute in Hk;
             first [discriminate | reflexivity
                   | injection Hk as <-; simpl in Hr; discriminate]|]).
      vm_compute in Hk. destruct k; discriminate. }
    split; [exact Hcheck|].
    pose proof (written_amounts_positive (sampleEmptyWorld [true; false; true]))
      as (_ & _ & _ & H).
    destruct (H (mkProduct 0%nat 0) 3 99) as (_ & _ & Hr & Ht);
      [discriminate | reflexivity | reflexivity | exact Hcheck |].
    split; [exact Hr|]. split; [exact Ht | reflexivity].
  - assert (Hcheck : checkApplied (sampleWorld [])
                       (exec (handleConfirmAction false sampleProduct
                                subtract 15 (Some 99)) (sampleWorld []))).
    { intros k r Hk Hr.
      do 3 (destruct k as [|k];
            [vm_compute in Hk;
             first [discriminate | reflexivity
                   | injection Hk as <-; simpl in Hr; discriminate]|]).
      vm_compute in Hk. destruct k; discriminate. }
    split; [exact Hcheck|]. split; [reflexivity|].
    pose proof (written_amounts_positive (sampleWorld [])) as (_ & _ & H & _).
    exact (H false sampleProduct subtract 15 (Some 99) Hcheck).
Defined.

(** ** Delete Transaction *)

(** C10. Deleting a transaction that the provider knows while its
    product is absent from the provider's products sends one request to
    the store, the delete of that row; no product quantity is written
    anywhere; the row leaves the store and both cached ledgers; and the
    operation reports success with no error. *)
Theorem delete_transaction_without_product (w : World) (transactionId : Id)
    (transaction : Transaction) :
  user (ctx w) <> None ->
  find (fun t => Nat.eqb (t_id t) transactionId) (transactions (ctx w))
  = Some transaction ->
  find (fun p => Nat.eqb (p_id p) (t_product_id transaction)) (products (ctx w))
  = None ->
  outcomeAt 0 w = true ->
  let w' := exec (deleteTransaction transactionId) w in
  eval (deleteTransaction transactionId) w = mkDeleteResult true None
  /\ db_requests (store w')
     = db_requests (store w) ++ [DeleteTransaction transactionId]
  /\ db_products (store w') = db_products (store w)
  /\ products (ctx w') = products (ctx w)
  /\ db_transactions (store w')
     = removeTransaction transactionId (db_transactions (store w))
  /\ transactions (ctx w') = removeTransaction transactionId (transactions (ctx w))
  /\ allTransactions (ctx w')
     = removeTransaction transactionId (allTransactions (ctx w)).
Proof.
  destruct w as [[dbp dbt nid now outs reqs] [u cfg ps ts ats con]].
  intros Hu Ht Hp H0. run_op.
  destruct u as [u|]; [|congruence].
  rewrite Ht, Hp. simpl.
  script3 outs; repeat split; reflexivity.
Qed.

Lemma delete_transaction_without_product_witness :
  let orphan := mkTransaction 5%nat 3%nat TxIn 4 0 in
  let w := mkWorld (mkStore [] [orphan] 6%nat 0 [] [])
                   (mkCtx (Some 7%nat) true [] [orphan] [orphan] []) in
  eval (deleteTransaction 5%nat) w = mkDeleteResult true None
  /\ db_requests (store (exec (deleteTransaction 5%nat) w))
     = [DeleteTransaction 5%nat].
Proof.
  pose proof (delete_transaction_without_product
                (mkWorld (mkStore [] [mkTransaction 5%nat 3%nat TxIn 4 0] 6%nat 0 [] [])
                   (mkCtx (Some 7%nat) true []
                      [mkTransaction 5%nat 3%nat TxIn 4 0]
                      [mkTransaction 5%nat 3%nat TxIn 4 0] []))
                5%nat (mkTransaction 5%nat 3%nat TxIn 4 0)) as H.
  simpl in H.
  destruct H as (Hr & Hq & _);
    [discriminate | reflexivity | reflexivity | reflexivity |].
  split; [exact Hr | exact Hq].
Defined.

(** C4 (as amended). For a transaction and its product as the provider
    knows them, [quantity] being the product's quantity in the
    provider's snapshot:
    - when both requests are accepted, the product's quantity becomes
      [max 0 (quantity - A)] for an ['in'] transaction of amount [A] and
      [max 0 (quantity + A)] for an ['out'] one, in the store and in the
      snapshot, the row is removed, and success is reported;
    - when the quantity write is refused, it is the only request sent:
      the row is not deleted and nothing changes;
    - when the quantity write is accepted and the delete is refused, the
      engine sends a third request, which writes [quantity] back, sets
      the snapshot's quantity to [quantity] again and reports the
      failure, whether that third request is accepted or not; the ledger
      is what it was. When the restoring write is accepted the stored
      quantity is [quantity] again, so that a table that agreed with the
      snapshot before the operation is what it was; when it is refused
      the store keeps the compensated quantity. *)
Theorem delete_transaction_reversal (w : World) (transactionId : Id)
    (transaction : Transaction) (product : Product) :
  user (ctx w) <> None ->
  find (fun t => Nat.eqb (t_id t) transactionId) (transactions (ctx w))
  = Some transaction ->
  find (fun p => Nat.eqb (p_id p) (t_product_id transaction)) (products (ctx w))
  = Some product ->
  let run := deleteTransaction transactionId in
  let w' := exec run w in
  let newQuantity := reversedQuantity product transaction in
  let compensate := setQuantity (p_id product) newQuantity in
  let restore := setQuantity (p_id product) (p_quantity product) in
  (outcomeAt 0 w = true -> outcomeAt 1 w = true ->
   eval run w = mkDeleteResult true None
   /\ db_products (store w') = map compensate (db_products (store w))
   /\ products (ctx w') = map compensate (products (ctx w))
   /\ quantityOf (p_id product) (products (ctx w')) = Some newQuantity
   /\ db_transactions (store w')
      = removeTransaction transactionId (db_transactions (store w))
   /\ transactions (ctx w')
      = removeTransaction transactionId (transactions (ctx w))
   /\ allTransactions (ctx w')
      = removeTransaction transactionId (allTransactions (ctx w)))
  /\ (outcomeAt 0 w = false ->
      eval run w
      = mkDeleteResult false (Some "库存恢复失败，交易记录未删除。请重试。")
      /\ db_requests (store w')
         = db_requests (store w) ++ [UpdateQuantity (p_id product) newQuantity]
      /\ db_transactions (store w') = db_transactions (store w)
      /\ transactions (ctx w') = transactions (ctx w)
      /\ db_products (store w') = db_products (store w)
      /\ products (ctx w') = products (ctx w)
      /\ allTransactions (ctx w') = allTransactions (ctx w))
  /\ (outcomeAt 0 w = true -> outcomeAt 1 w = false ->
      eval run w = mkDeleteResult false (Some "删除交易记录失败，库存已回滚")
      /\ db_requests (store w')
         = db_requests (store w)
           ++ [UpdateQuantity (p_id product) newQuantity;
               DeleteTransaction transactionId;
               UpdateQuantity (p_id product) (p_quantity product)]
      /\ db_transactions (store w') = db_transactions (store w)
      /\ transactions (ctx w') = transactions (ctx w)
      /\ allTransactions (ctx w') = allTransactions (ctx w)
      /\ products (ctx w') = map restore (products (ctx w))
      /\ quantityOf (p_id product) (products (ctx w'))
         = Some (p_quantity product)
      /\ (snapshotAgrees product (products (ctx w)) = true ->
          products (ctx w') = products (ctx w))
      /\ (outcomeAt 2 w = true ->
          db_products (store w') = map restore (db_products (store w))
          /\ quantityOf (p_id product) (db_products (store w'))
             = option_map (fun _ => p_quantity product)
                 (quantityOf (p_id product) (db_products (store w)))
          /\ (snapshotAgrees product (db_products (store w)) = true ->
              db_products (store w') = db_products (store w)))
      /\ (outcomeAt 2 w = false ->
          db_products (store w') = map compensate (db_products (store w)))).
Proof.
  destruct w as [[dbp dbt nid now outs reqs] [u cfg ps ts ats con]].
  intros Hu Ht Hp. run_op.
  destruct u as [u|]; [|congruence].
  rewrite Ht, Hp. simpl.
  assert (Hq : Z.max 0 (p_quantity product
                        + match t_type transaction with
                          | TxIn => - t_amount transaction
                          | TxOut => t_amount transaction
                          end)
               = reversedQuantity product transaction).
  { unfold reversedQuantity. destruct (t_type transaction); f_equal; lia. }
  rewrite Hq. clear Hq.
  assert (Hfound : quantityOf (p_id product) ps = Some (p_quantity product)).
  { unfold quantityOf.
    assert (Hid : p_id product = t_product_id transaction).
    { apply find_some in Hp. destruct Hp as [_ Hp]. apply Nat.eqb_eq, Hp. }
    rewrite Hid, Hp. reflexivity. }
  split; [|split].
  - intros H0 H1.
    script3 outs; rewrite ?quantityOf_setQuantity, ?Hfound;
      repeat split; reflexivity.
  - intros H0.
    script3 outs; repeat split; reflexivity.
  - intros H0 H1.
    script3 outs; try destruct b1; simpl;
      rewrite ?map_setQuantity_twice, ?quantityOf_setQuantity, ?Hfound;
      rewrite <- ?app_assoc; simpl;
      repeat split; try reflexivity; try discriminate;
      intros; try (apply map_setQuantity_agrees; assumption).
Qed.

Lemma delete_transaction_reversal_witness :
  (let w' := exec (deleteTransaction 2%nat) (sampleLedgerWorld [true; true]) in
   db_products (store w') = [mkProduct 0%nat 10]
   /\ db_transactions (store w') = [mkTransaction 1%nat 0%nat TxIn 10 0])
  /\ (let w' := exec (deleteTransaction 1%nat) (sampleLedgerWorld [false]) in
      db_products (store w') = [mkProduct 0%nat 6]
      /\ db_transactions (store w') = sampleLedger)
  /\ (let w' := exec (deleteTransaction 1%nat)
                  (sampleLedgerWorld [true; false; true]) in
      db_requests (store w')
      = [UpdateQuantity 0%nat 0; DeleteTransaction 1%nat;
         UpdateQuantity 0%nat 6]
      /\ db_products (store w') = [mkProduct 0%nat 6]
      /\ db_transactions (store w') = sampleLedger)
  /\ (let w' := exec (deleteTransaction 1%nat)
                  (sampleLedgerWorld [true; false; false]) in
      db_requests (store w')
      = [UpdateQuantity 0%nat 0; DeleteTransaction 1%nat;
         UpdateQuantity 0%nat 6]
      /\ db_products (store w') = [mkProduct 0%nat 0]
      /\ products (ctx w') = [mkProduct 0%nat 6]).
Proof.
  split; [|split; [|split]].
  - pose proof (delete_transaction_reversal (sampleLedgerWorld [true; true])
                  2%nat (mkTransaction 2%nat 0%nat TxOut 4 50)
                  (mkProduct 0%nat 6)) as H.
    simpl in H.
    destruct H as (H & _ & _);
      [discriminate | reflexivity | reflexivity |].
    destruct H as (_ & Hp & _ & _ & Ht & _); [reflexivity | reflexivity |].
    split; [exact Hp | exact Ht].
  - pose proof (delete_transaction_reversal (sampleLedgerWorld [false])
                  1%nat (mkTransaction 1%nat 0%nat TxIn 10 0)
                  (mkProduct 0%nat 6)) as H.
    simpl in H.
    destruct H as (_ & H & _);
      [discriminate | reflexivity | reflexivity |].
    destruct H as (_ & _ & Ht & _ & Hp & _); [reflexivity |].
    split; [exact Hp | exact Ht].
  - pose proof (delete_transaction_reversal
                  (sampleLedgerWorld [true; false; true])
                  1%nat (mkTransaction 1%nat 0%nat TxIn 10 0)
                  (mkProduct 0%nat 6)) as H.
    simpl in H.
    destruct H as (_ & _ & H);
      [discriminate | reflexivity | reflexivity |].
    destruct H as (_ & Hr & Ht & _ & _ & _ & _ & _ & Hp & _);
      [reflexivity | reflexivity |].
    destruct Hp as (Hp & _); [reflexivity |].
    split; [exact Hr | split; [exact Hp | exact Ht]].
  - pose proof (delete_transaction_reversal
                  (sampleLedgerWorld [true; false; false])
                  1%nat (mkTransaction 1%nat 0%nat TxIn 10 0)
                  (mkProduct 0%nat 6)) as H.
    simpl in H.
    destruct H as (_ & _ & H);
      [discriminate | reflexivity | reflexivity |].
    destruct H as (_ & Hr & _ & _ & _ & Hps & _ & _ & _ & Hp);
      [reflexivity | reflexivity |].
    split; [exact Hr | split; [exact (Hp eq_refl) | exact Hps]].
Defined.

(** C4, the claim as stated, fails: when the delete fails and the
    restoring write fails too, the deletion is reported as failed and the
    row is still there, but the store keeps the compensated quantity (0
    instead of 6) while the provider's snapshot shows 6 again. *)
Lemma delete_transaction_restore_may_fail :
  let w := sampleLedgerWorld [true; false; false] in
  let run := deleteTransaction 1%nat in
  dr_success (eval run w) = false
  /\ db_transactions (store (exec run w)) = db_transactions (store w)
  /\ quantityOf 0%nat (db_products (store w)) = Some 6
  /\ quantityOf 0%nat (db_products (store (exec run w))) = Some 0
  /\ quantityOf 0%nat (products (ctx (exec run w))) = Some 6.
Proof. repeat split; reflexivity. Qed.

(** ** The ledger invariant *)

Lemma sum_app (a b : list Z) :
  fold_right Z.add 0 (a ++ b) = fold_right Z.add 0 a + fold_right Z.add 0 b.
Proof.
  induction a as [|x a IH]; simpl; [reflexivity | rewrite IH; lia].
Qed.

Lemma sumAmounts_snoc (productId : Id) (ty : TxType) (l : list Transaction)
    (t : Transaction) :
  sumAmounts productId ty (l ++ [t])
  = sumAmounts productId ty l
    + (if Nat.eqb (t_product_id t) productId && TxType_eqb (t_type t) ty
       then t_amount t else 0).
Proof.
  unfold sumAmounts. rewrite filter_app, map_app, sum_app. simpl.
  destruct (Nat.eqb (t_product_id t) productId && TxType_eqb (t_type t) ty);
    simpl; lia.
Qed.

Lemma ledgerNet_snoc_other (productId : Id) (l : list Transaction)
    (t : Transaction) :
  t_product_id t <> productId ->
  ledgerNet productId (l ++ [t]) = ledgerNet productId l.
Proof.
  intros H. unfold ledgerNet. rewrite !sumAmounts_snoc.
  apply Nat.eqb_neq in H. rewrite H. simpl. lia.
Qed.

Lemma ledgerNet_snoc_same (l : list Transaction) (t : Transaction) :
  ledgerNet (t_product_id t) (l ++ [t])
  = ledgerNet (t_product_id t) l
    + match t_type t with TxIn => t_amount t | TxOut => - t_amount t end.
Proof.
  unfold ledgerNet. rewrite !sumAmounts_snoc, Nat.eqb_refl.
  destruct (t_type t); simpl; lia.
Qed.

Lemma ledgerNet_unknown (n : Id) (l : list Transaction) :
  (forall t, In t l -> (t_product_id t < n)%nat) ->
  ledgerNet n l = 0.
Proof.
  intros H. unfold ledgerNet, sumAmounts.
  assert (E : forall ty,
             filter (fun t => Nat.eqb (t_product_id t) n
                              && TxType_eqb (t_type t) ty) l = []).
  { intros ty. induction l as [|t l IH]; simpl; [reflexivity|].
    assert (Ht : Nat.eqb (t_product_id t) n = false).
    { apply Nat.eqb_neq. specialize (H t (or_introl eq_refl)). lia. }
    rewrite Ht. simpl. apply IH. intros t' Hin. apply H. right. exact Hin. }
  rewrite !E. reflexivity.
Qed.

Lemma noFailure_next (b : bool) (outs : list bool) :
  forallb (fun b => b) (b :: outs) = true ->
  b = true /\ forallb (fun b => b) outs = true.
Proof. simpl. intros H. apply andb_true_iff in H. exact H. Qed.

Lemma in_map_setQuantity (productId : Id) (q : Z) (l : list Product)
    (p : Product) :
  In p (map (setQuantity productId q) l) ->
  exists p0, In p0 l /\ p_id p = p_id p0
             /\ (if Nat.eqb (p_id p0) productId
                 then p_quantity p = q else p = p0).
Proof.
  intros H. apply in_map_iff in H. destruct H as (p0 & Hp & Hin).
  exists p0. split; [exact Hin|]. subst p. unfold setQuantity.
  destruct (Nat.eqb (p_id p0) productId); simpl; auto.
Qed.

Lemma consistent_snapshotAgrees (w : World) (product : Product) :
  consistent w ->
  In product (db_products (store w)) ->
  snapshotAgrees product (db_products (store w)) = true.
Proof.
  intros (_ & Hnet & _) Hin. unfold snapshotAgrees.
  apply forallb_forall. intros p Hp.
  destruct (Nat.eqb (p_id p) (p_id product)) eqn:E; simpl; [|reflexivity].
  apply Nat.eqb_eq in E. apply Z.eqb_eq.
  rewrite (Hnet p Hp), (Hnet product Hin), E. reflexivity.
Qed.

Lemma newWorld_consistent (u : option Id) (cfg : bool) (now : Z)
    (outcomes : list bool) :
  forallb (fun b => b) outcomes = true ->
  consistent (newWorld u cfg now outcomes).
Proof.
  intros H. unfold consistent, newWorld, noFailure. simpl.
  repeat split; try (intros ? []); assumption.
Qed.

Ltac next_ok outs Hnf :=
  let b := fresh "b" in
  destruct outs as [|b outs];
  [| apply noFailure_next in Hnf; destruct Hnf as [-> Hnf]];
  simpl in *.

Lemma ledgerNet_app_other (productId : Id) (l seed : list Transaction) :
  (forall t, In t seed -> t_product_id t <> productId) ->
  ledgerNet productId (l ++ seed) = ledgerNet productId l.
Proof.
  intros H. induction seed as [|t seed IH] using rev_ind.
  - rewrite app_nil_r. reflexivity.
  - rewrite app_assoc, ledgerNet_snoc_other.
    + apply IH. intros t' Hin. apply H, in_or_app. left. exact Hin.
    + apply H, in_or_app. right. left. reflexivity.
Qed.

(** The shape of the world after a product is created: one more row,
    and a seed of ledger entries that all belong to it. *)
Lemma consistent_after_create (dbp : list Product) (dbt dbt' seed : list Transaction)
    (nid n' : Id) (q now : Z) (outs' : list bool) (reqs' : list Request)
    (c : Ctx) :
  (forall p, In p dbp -> p_quantity p = ledgerNet (p_id p) dbt) ->
  (forall p, In p dbp -> (p_id p < nid)%nat) ->
  (forall t, In t dbt -> (t_product_id t < nid)%nat) ->
  forallb (fun b => b) outs' = true ->
  (nid < n')%nat ->
  dbt' = dbt ++ seed ->
  (forall t, In t seed -> t_product_id t = nid) ->
  ledgerNet nid dbt' = q ->
  products c = dbp ++ [mkProduct nid q] ->
  consistent
    (mkWorld (mkStore (dbp ++ [mkProduct nid q]) dbt' n' now outs' reqs') c).
Proof.
  intros Hnet Hid Htid Hnf Hn' -> Hseed Hq Hc.
  unfold consistent, noFailure. simpl.
  split; [exact Hc|]. split; [|split; [|split; [|exact Hnf]]].
  - intros p Hp. apply in_app_or in Hp. destruct Hp as [Hp|[<-|[]]].
    + rewrite ledgerNet_app_other; [apply Hnet, Hp|].
      intros t Ht. rewrite (Hseed t Ht). specialize (Hid p Hp). lia.
    + simpl. symmetry. exact Hq.
  - intros p Hp. apply in_app_or in Hp. destruct Hp as [Hp|[<-|[]]].
    + specialize (Hid p Hp). lia.
    + simpl. exact Hn'.
  - intros t Ht. apply in_app_or in Ht. destruct Ht as [Ht|Ht].
    + specialize (Htid t Ht). lia.
    + rewrite (Hseed t Ht). exact Hn'.
Qed.

Lemma createProduct_consistent (w : World) (productData : ProductInsert) :
  consistent w ->
  0 <= or_default (pi_quantity productData) 0 ->
  consistent (exec (createProduct productData) w).
Proof.
  destruct w as [[dbp dbt nid now outs reqs] [u cfg ps ts ats con]].
  intros Hc Hq. pose proof Hc as (Hps & Hnet & Hid & Htid & Hnf).
  unfold noFailure in Hnf. simpl in *. subst ps.
  set (q := or_default (pi_quantity productData) 0) in *.
  assert (Hfresh : ledgerNet nid dbt = 0) by (apply ledgerNet_unknown, Htid).
  run_op.
  destruct u as [u|]; simpl; [|exact Hc].
  destruct cfg; simpl; [|exact Hc].
  fold q. destruct (0 <? q) eqn:Hpos.
  - (* a positive quantity: the product, then its initial entry *)
    set (tx := mkTransaction (S nid) nid TxIn q
                 (match pi_created_at productData with
                  | Some d => d
                  | None => now
                  end)).
    assert (Hseed : ledgerNet nid (dbt ++ [tx]) = q).
    { change nid with (t_product_id tx) at 1.
      rewrite ledgerNet_snoc_same. simpl. lia. }
    next_ok outs Hnf; try next_ok outs Hnf;
      apply (consistent_after_create dbp dbt _ [tx] nid);
      auto; try (intros t [<-|[]]; reflexivity).
  - (* nothing in stock: the product alone *)
    apply Z.ltb_ge in Hpos.
    next_ok outs Hnf;
      apply (consistent_after_create dbp dbt _ [] nid);
      auto; try (intros t []); try (rewrite app_nil_r; reflexivity); lia.
Qed.

Lemma handleConfirmAction_consistent (w : World) (product : Product)
    (operation : Operation) (adjustAmount customDate : Z) :
  consistent w ->
  In product (products (ctx w)) ->
  consistent
    (exec (handleConfirmAction false product operation adjustAmount
             (Some customDate)) w).
Proof.
  intros Hc Hin.
  assert (Hagree : snapshotAgrees product (db_products (store w)) = true).
  { apply consistent_snapshotAgrees; [exact Hc|].
    destruct Hc as (<- & _). exact Hin. }
  destruct w as [[dbp dbt nid now outs reqs] [u cfg ps ts ats con]].
  destruct Hc as (Hps & Hnet & Hid & Htid & Hnf).
  unfold noFailure in Hnf. simpl in *. subst ps.
  pose proof (Hnet product Hin) as Hcur.
  pose proof (Hid product Hin) as Hlt.
  unfold consistent, noFailure. run_op.
  destruct u as [u|]; simpl.
  - (* the update and the insert both go through *)
    set (tx := mkTransaction nid (p_id product)
                 (match operation with add => TxIn | subtract => TxOut end)
                 (match operation with
                  | add => adjustAmount
                  | subtract => Z.min adjustAmount (p_quantity product)
                  end) customDate).
    assert (Hnew : ledgerNet (p_id product) (dbt ++ [tx])
                   = finalStock (p_quantity product) adjustAmount operation).
    { change (p_id product) with (t_product_id tx) at 1.
      rewrite ledgerNet_snoc_same. simpl. rewrite <- Hcur.
      destruct operation; simpl; lia. }
    assert (Hinv : forall p,
               In p (map (setQuantity (p_id product)
                            (finalStock (p_quantity product) adjustAmount operation))
                         dbp) ->
               p_quantity p = ledgerNet (p_id p) (dbt ++ [tx])
               /\ (p_id p < S nid)%nat).
    { intros p Hp. apply in_map_setQuantity in Hp.
      destruct Hp as (p0 & Hp0 & Hpid & Hcase).
      split; [|rewrite Hpid; specialize (Hid p0 Hp0); lia].
      destruct (Nat.eqb (p_id p0) (p_id product)) eqn:E.
      - apply Nat.eqb_eq in E. rewrite Hcase, Hpid, E, Hnew. reflexivity.
      - subst p. apply Nat.eqb_neq in E.
        rewrite ledgerNet_snoc_other by (simpl; congruence).
        apply Hnet, Hp0. }
    next_ok outs Hnf; try next_ok outs Hnf;
      (split; [reflexivity|]);
      (split; [intros p Hp; apply Hinv, Hp|]);
      (split; [intros p Hp; apply Hinv, Hp|]);
      (split; [|assumption || reflexivity]);
      intros t Ht; apply in_app_or in Ht;
      destruct Ht as [Ht|[<-|[]]]; simpl;
      try specialize (Htid t Ht); lia.
  - (* nobody is logged in: the transaction is refused, the quantity
       is written back *)
    next_ok outs Hnf; try next_ok outs Hnf;
      rewrite !map_setQuantity_restore by assumption;
      repeat split; auto.
Qed.

Lemma exec_bind {A B} (m : M A) (k : A -> M B) (w : World) :
  exec (bind m k) w = exec (k (eval m w)) (exec m w).
Proof. unfold exec, eval, bind. destruct (m w). reflexivity. Qed.

Lemma perform_consistent (w : World) (a : Action) :
  consistent w ->
  actionValid a = true ->
  consistent (exec (perform a) w).
Proof.
  intros Hc Hv. destruct a as [productData | productId operation amount date];
    unfold perform.
  - rewrite exec_bind. apply Z.leb_le in Hv.
    apply (createProduct_consistent w productData Hc Hv).
  - rewrite exec_bind. change (exec getCtx w) with w.
    change (eval getCtx w) with (ctx w).
    destruct (find (fun p => Nat.eqb (p_id p) productId) (products (ctx w)))
      as [product|] eqn:Hfind; [|exact Hc].
    apply find_some in Hfind. destruct Hfind as [Hin _].
    rewrite exec_bind.
    destruct date as [date|]; [|discriminate].
    apply (handleConfirmAction_consistent w product operation amount date Hc Hin).
Qed.

Lemma performAll_consistent (actions : list Action) (w : World) :
  consistent w ->
  forallb actionValid actions = true ->
  consistent (exec (performAll actions) w).
Proof.
  revert w. induction actions as [|a actions IH]; intros w Hc Hv.
  - exact Hc.
  - simpl in Hv. apply andb_true_iff in Hv. destruct Hv as [Ha Hv].
    cbn [performAll]. rewrite exec_bind.
    apply IH; [apply perform_consistent; assumption | exact Hv].
Qed.

Lemma forallb_firstn {A} (f : A -> bool) (n : nat) (l : list A) :
  forallb f l = true -> forallb f (firstn n l) = true.
Proof.
  revert n. induction l as [|x l IH]; intros [|n] H; simpl in *; auto.
  apply andb_true_iff in H. destruct H as [Hx Hl].
  rewrite Hx. simpl. apply IH, Hl.
Qed.

(** The ledger invariant holds of the sessions in which every
    adjustment carries a date. Start from empty tables and run any
    sequence of Create Product and Adjust Stock actions whose initial
    quantities are not negative and whose date fields hold dates,
    against a store that fails no request. After every prefix of the
    sequence, the provider's products are the store's, and every
    product's quantity is the sum of the amounts of its ['in']
    transactions (the initial one included) minus the sum of the amounts
    of its ['out'] transactions. *)
Theorem ledger_invariant (u : option Id) (cfg : bool) (now : Z)
    (outcomes : list bool) (actions : list Action) (n : nat) :
  forallb (fun b => b) outcomes = true ->
  forallb actionValid actions = true ->
  let w := exec (performAll (firstn n actions)) (newWorld u cfg now outcomes) in
  products (ctx w) = db_products (store w)
  /\ forall p, In p (db_products (store w)) ->
       p_quantity p
       = sumAmounts (p_id p) TxIn (db_transactions (store w))
         - sumAmounts (p_id p) TxOut (db_transactions (store w)).
Proof.
  intros Hok Hvalid w.
  assert (Hc : consistent w).
  { apply performAll_consistent.
    - apply newWorld_consistent, Hok.
    - apply forallb_firstn, Hvalid. }
  destruct Hc as (Hps & Hnet & _). split; [exact Hps | exact Hnet].
Qed.

Lemma ledger_invariant_witness :
  let w := exec (performAll (firstn 3 sampleActions))
                (newWorld (Some 7%nat) true 0 [true; true]) in
  db_products (store w) = [mkProduct 0%nat 3]
  /\ map t_amount (db_transactions (store w)) = [10; 10; 3]
  /\ products (ctx w) = db_products (store w)
  /\ forall p, In p (db_products (store w)) ->
       p_quantity p
       = sumAmounts (p_id p) TxIn (db_transactions (store w))
         - sumAmounts (p_id p) TxOut (db_transactions (store w)).
Proof.
  split; [reflexivity|]. split; [reflexivity|].
  apply (ledger_invariant (Some 7%nat) true 0 [true; true] sampleActions 3);
    reflexivity.
Defined.

(** An adjustment whose date field does not hold a date, against a
    store that accepts the quantity write: the write is the only request
    sent, the new quantity stays in the store and in the provider's
    snapshot, the ledger is untouched and the user is shown the message
    of the error. The sibling path, a refused transaction insert, writes
    the quantity back (see C3). *)
Lemma adjustment_without_date (w : World) (product : Product)
    (operation : Operation) (adjustAmount : Z) :
  outcomeAt 0 w = true ->
  let run := handleConfirmAction false product operation adjustAmount None in
  let w' := exec run w in
  let adjust :=
    setQuantity (p_id product)
      (finalStock (p_quantity product) adjustAmount operation) in
  eval run w = Alerted "Invalid time value"
  /\ db_requests (store w')
     = db_requests (store w)
       ++ [UpdateQuantity (p_id product)
             (finalStock (p_quantity product) adjustAmount operation)]
  /\ db_products (store w') = map adjust (db_products (store w))
  /\ products (ctx w') = map adjust (products (ctx w))
  /\ db_transactions (store w') = db_transactions (store w)
  /\ transactions (ctx w') = transactions (ctx w)
  /\ allTransactions (ctx w') = allTransactions (ctx w).
Proof.
  destruct w as [[dbp dbt nid now outs reqs] [u cfg ps ts ats con]].
  intros H0. run_op.
  script3 outs; repeat split; reflexivity.
Qed.

(** C1, at the failing input: a product is created with 10 units, then
    5 units are added on the adjustment page with the date field
    cleared. No request is refused: the store receives the two inserts
    of the creation and the quantity write of the adjustment, and no
    insert for the adjustment. The product holds 15, in the store and in
    the provider's snapshot, while its ledger adds up to 10. *)
Theorem ledger_broken_by_cleared_date :
  let actions :=
    [CreateProduct (mkProductInsert (Some 10) None);
     AdjustStock 0%nat add 5 None] in
  let w := newWorld (Some 7%nat) true 0 [] in
  let w' := exec (performAll actions) w in
  noFailure w = true
  /\ db_requests (store w')
     = [InsertProduct 10; InsertTransaction 0%nat TxIn 10;
        UpdateQuantity 0%nat 15]
  /\ console (ctx w') = ["库存调整失败"]
  /\ db_products (store w') = [mkProduct 0%nat 15]
  /\ products (ctx w') = [mkProduct 0%nat 15]
  /\ db_transactions (store w') = [mkTransaction 1%nat 0%nat TxIn 10 0]
  /\ sumAmounts 0%nat TxIn (db_transactions (store w'))
     - sumAmounts 0%nat TxOut (db_transactions (store w')) = 10
  /\ ~ (forall p, In p (db_products (store w')) ->
          p_quantity p
          = sumAmounts (p_id p) TxIn (db_transactions (store w'))
            - sumAmounts (p_id p) TxOut (db_transactions (store w'))).
Proof.
  repeat split; try reflexivity.
  intros H. specialize (H (mkProduct 0%nat 15) (or_introl eq_refl)).
  vm_compute in H. discriminate.
Qed.

(** The initial quantity enters the ledger as one ['in'] transaction of
    that amount, dated like the product; a product created empty has no
    entry. *)
Lemma createProduct_seeds_ledger (w : World) (productData : ProductInsert) :
  user (ctx w) <> None ->
  configured (ctx w) = true ->
  outcomeAt 0 w = true ->
  outcomeAt 1 w = true ->
  let initialQty := or_default (pi_quantity productData) 0 in
  let newId := db_next_id (store w) in
  let w' := exec (createProduct productData) w in
  db_products (store w') = db_products (store w) ++ [mkProduct newId initialQty]
  /\ db_transactions (store w')
     = db_transactions (store w)
       ++ (if 0 <? initialQty
           then [mkTransaction (S newId) newId TxIn initialQty
                   (match pi_created_at productData with
                    | Some d => d
                    | None => db_now (store w)
                    end)]
           else []).
Proof.
  destruct w as [[dbp dbt nid now outs reqs] [u cfg ps ts ats con]].
  intros Hu Hcfg H0 H1. run_op. subst cfg.
  destruct u as [u|]; [|congruence]. simpl.
  destruct (0 <? or_default (pi_quantity productData) 0);
    script3 outs; rewrite ?app_nil_r; split; reflexivity.
Qed.

(** ** Opening stock *)

Lemma sumAmounts_cons (productId : Id) (ty : TxType) (t : Transaction)
    (l : list Transaction) :
  sumAmounts productId ty (t :: l)
  = (if Nat.eqb (t_product_id t) productId && TxType_eqb (t_type t) ty
     then t_amount t else 0)
    + sumAmounts productId ty l.
Proof.
  unfold sumAmounts. simpl.
  destruct (Nat.eqb (t_product_id t) productId && TxType_eqb (t_type t) ty);
    reflexivity.
Qed.

Lemma stockChange_loop (product : Product) (monthStart : Z)
    (l : list Transaction) (acc : Z) :
  fold_left (stockChangeStep product monthStart) l acc
  = acc + netChangeSince (p_id product) monthStart l.
Proof.
  unfold netChangeSince, ledgerNet. revert acc.
  induction l as [|t l IH]; intros acc; simpl.
  - unfold sumAmounts. simpl. lia.
  - rewrite IH. unfold stockChangeStep.
    destruct (monthStart <=? t_created_at t) eqn:Edate;
      destruct (Nat.eqb (t_product_id t) (p_id product)) eqn:Eid; simpl;
      rewrite ?sumAmounts_cons, ?Eid; destruct (t_type t); simpl; lia.
Qed.

Lemma netChangeSince_quiet (productId : Id) (monthStart : Z)
    (l : list Transaction) :
  noMovementSince productId monthStart l = true ->
  netChangeSince productId monthStart l = 0.
Proof.
  unfold netChangeSince, ledgerNet, noMovementSince.
  induction l as [|t l IH]; simpl; intros H.
  - reflexivity.
  - apply andb_true_iff in H. destruct H as [Ht Hl]. specialize (IH Hl).
    destruct (monthStart <=? t_created_at t) eqn:Edate; [|exact IH].
    rewrite !sumAmounts_cons.
    destruct (Nat.eqb (t_product_id t) productId); simpl in *;
      [discriminate | lia].
Qed.

(** C8. The opening-stock row of every product carries
    [max 0 (currentQty - netChange)], where [netChange] is the sum of the
    ['in'] amounts minus the sum of the ['out'] amounts of that product's
    transactions created at or after the month start; and a product with
    a quantity that is not negative and no transaction since the month
    start gets an opening quantity equal to its current quantity. *)
Theorem opening_stock_reconstruction (products : list Product)
    (transactions : list Transaction) (monthStart : Z) :
  openingStockData products transactions monthStart
  = map (fun product =>
           let netChange :=
             netChangeSince (p_id product) monthStart transactions in
           mkOpeningStock (p_id product) (p_quantity product)
             (Z.max 0 (p_quantity product - netChange)) netChange)
        products
  /\ forall product,
       In product products ->
       0 <= p_quantity product ->
       noMovementSince (p_id product) monthStart transactions = true ->
       In (mkOpeningStock (p_id product) (p_quantity product)
             (p_quantity product) 0)
          (openingStockData products transactions monthStart).
Proof.
  assert (Hmap : openingStockData products transactions monthStart
                 = map (fun product =>
                          mkOpeningStock (p_id product) (p_quantity product)
                            (Z.max 0 (p_quantity product
                                      - netChangeSince (p_id product) monthStart
                                          transactions))
                            (netChangeSince (p_id product) monthStart transactions))
                       products).
  { unfold openingStockData. apply map_ext. intros product.
    rewrite stockChange_loop. reflexivity. }
  split; [exact Hmap|].
  intros product Hin Hq Hquiet. rewrite Hmap.
  apply in_map_iff. exists product. split; [|exact Hin].
  rewrite (netChangeSince_quiet _ _ _ Hquiet).
  f_equal. lia.
Qed.

Lemma opening_stock_reconstruction_witness :
  In (mkOpeningStock 0%nat 6 6 0)
     (openingStockData [mkProduct 0%nat 6] sampleLedger 100).
Proof.
  destruct (opening_stock_reconstruction [mkProduct 0%nat 6] sampleLedger 100)
    as [_ H].
  apply (H (mkProduct 0%nat 6)).
  - left. reflexivity.
  - simpl. lia.
  - reflexivity.
Defined.

(** ** Consumption trend *)

(** A number above 5 is not below -5: the comparison of two doubles
    looks at the signs first. *)
Lemma above_5_not_below (c : float) :
  (5 <? c)%float = true -> (c <? -5)%float = false.
Proof.
  rewrite !ltb_spec.
  set (five := Prim2SF 5). vm_compute in five. subst five.
  set (minus := Prim2SF (-5)). vm_compute in minus. subst minus.
  destruct (Prim2SF c) as [s|s| |s m e]; try destruct s;
    cbn [SFltb SFcompare]; intros H; try discriminate H; reflexivity.
Qed.

(** [Math.round] gives the nearest integer, the larger one at a half:
    for a double [v / d] with [d = 2^(-e)] the result [n] satisfies
    [n - 1/2 <= v / d < n + 1/2]. A double with [e >= 0] is an integer
    and is its own rounding. *)
Lemma Math_round_nearest (x : float) (s : bool) (m : positive) (e : Z) :
  Prim2SF x = S754_finite s m e ->
  let v := if s then Zneg m else Zpos m in
  let d := 2 ^ (- e) in
  (0 <= e -> Math_round x = Integer (v * 2 ^ e))
  /\ (e < 0 ->
      exists n,
        (Math_round x = Integer n \/ (Math_round x = MinusZero /\ n = 0))
        /\ (2 * n - 1) * d <= 2 * v < (2 * n + 1) * d).
Proof.
  intros Hx v d. unfold Math_round. rewrite Hx. fold v. split.
  - intros He. apply Z.leb_le in He. rewrite He.
    assert (Hnz : (v * 2 ^ e =? 0) = false).
    { apply Z.eqb_neq. apply Z.leb_le in He.
      assert (0 < 2 ^ e) by (apply Z.pow_pos_nonneg; lia).
      unfold v. destruct s; nia. }
    rewrite Hnz. reflexivity.
  - intros He.
    assert (E : (0 <=? e) = false) by (apply Z.leb_gt; lia).
    rewrite E. fold d.
    set (n := (2 * v + d) / (2 * d)).
    assert (Hd : 0 < d) by (apply Z.pow_pos_nonneg; lia).
    exists n. split.
    + destruct ((n =? 0) && s) eqn:Ez; [right | left; reflexivity].
      apply andb_true_iff in Ez. destruct Ez as [Ez _].
      apply Z.eqb_eq in Ez. split; [reflexivity | exact Ez].
    + pose proof (Z.mul_div_le (2 * v + d) (2 * d) ltac:(lia)) as Hlo.
      pose proof (Z.mul_succ_div_gt (2 * v + d) (2 * d) ltac:(lia)) as Hhi.
      fold n in Hlo, Hhi. unfold Z.succ in Hhi. lia.
Qed.

(** C7 (as amended). With nothing consumed last month the trend is
    [up] with 100 when something was consumed this month, and [stable]
    with 0 otherwise. With a positive [lastMonthOut] the trend is decided
    by the percentage [((thisMonthOut - lastMonthOut) / lastMonthOut) *
    100] as the doubles give it, before it is rounded: [up] exactly when
    it exceeds 5, [down] exactly when it is below -5, [stable] otherwise;
    the magnitude is the absolute value of [Math.round] of that
    percentage. *)
Theorem trend_classification (thisMonthOut lastMonthOut : Z) :
  let c := change thisMonthOut lastMonthOut in
  let shown := trendOf thisMonthOut lastMonthOut in
  (lastMonthOut <= 0 ->
   shown = if 0 <? thisMonthOut then (up, Integer 100) else (stable, Integer 0))
  /\ (0 < lastMonthOut ->
      (fst shown = up <-> (5 <? c)%float = true)
      /\ (fst shown = down <-> (c <? -5)%float = true)
      /\ (fst shown = stable
          <-> (5 <? c)%float = false /\ (c <? -5)%float = false)
      /\ snd shown = Math_abs (Math_round c)).
Proof.
  intros c shown. subst shown. unfold trendOf. fold c. split.
  - intros Hl. apply Z.ltb_ge in Hl. rewrite Hl. reflexivity.
  - intros Hl. apply Z.ltb_lt in Hl. rewrite Hl.
    pose proof (above_5_not_below c) as Hsign.
    destruct (5 <? c)%float eqn:Hup;
      [rewrite (Hsign eq_refl)
      |destruct (c <? -5)%float eqn:Hdown];
      cbn [fst snd]; repeat split; intros; try discriminate;
      try reflexivity; destruct H; discriminate.
Qed.

Lemma trend_classification_witness :
  trendOf 7 0 = (up, Integer 100)
  /\ trendOf 0 0 = (stable, Integer 0)
  /\ trendOf 22 20 = (up, Integer 10)
  /\ trendOf 63 40 = (up, Integer 57)
  /\ trendOf 29 40 = (down, Integer 28)
  /\ trendOf 41 40 = (stable, Integer 3).
Proof.
  destruct (trend_classification 7 0) as [H0 _].
  destruct (trend_classification 22 20) as [_ H1].
  destruct H1 as (Hup & _ & _ & Hvalue); [lia|].
  split; [apply H0; lia|]. split; [reflexivity|].
  assert (E1 : fst (trendOf 22 20) = up) by (apply Hup; reflexivity).
  assert (E2 : snd (trendOf 22 20) = Integer 10)
    by (rewrite Hvalue; reflexivity).
  split.
  - rewrite (surjective_pairing (trendOf 22 20)), E1, E2. reflexivity.
  - repeat split; reflexivity.
Defined.

(** C7, the claim as stated, fails: from 19 units last month to 20 this
    month the change is 5.26 percent; it rounds to 5, which is not above
    5, yet the trend shown is [up]. *)
Lemma trend_compares_unrounded_change :
  trendOf 20 19 = (up, Integer 5)
  /\ trendAsSpecified 20 19 = (stable, Integer 5)
  /\ (5 <? change 20 19)%float = true
  /\ Math_round (change 20 19) = Integer 5
  /\ exceeds (Math_round (change 20 19)) 5 = false.
Proof. repeat split; reflexivity. Qed.

(** The magnitude is rounded from the double, not from the exact
    ratio: from 40 to 63 the exact change is 57.5 percent, the double is
    just below it, and the magnitude shown is 57; from 40 to 29 the exact
    change is -27.5 percent and the magnitude shown is 28. *)
Example trend_magnitude_in_doubles :
  trendOf 63 40 = (up, Integer 57)
  /\ (change 63 40 <? 57.5)%float = true
  /\ trendOf 29 40 = (down, Integer 28)
  /\ (change 29 40 <? -27.5)%float = true.
Proof. repeat split; reflexivity. Qed.

Lemma zrange_In (lo : Z) (len : nat) (x : Z) :
  lo <= x < lo + Z.of_nat len -> In x (zrange lo len).
Proof.
  intros H. unfold zrange. apply in_map_iff. exists (Z.to_nat (x - lo)).
  split; [lia|]. apply in_seq. lia.
Qed.

(** For monthly totals up to 100 the doubles decide the direction as
    exact arithmetic does: [up] exactly when [100 * (thisMonthOut -
    lastMonthOut)] exceeds [5 * lastMonthOut], [down] exactly when it is
    below [-5 * lastMonthOut]. By evaluation of all the cases. *)
Lemma trend_direction_exact (thisMonthOut lastMonthOut : Z) :
  0 <= thisMonthOut <= 100 ->
  0 < lastMonthOut <= 100 ->
  fst (trendOf thisMonthOut lastMonthOut) = trendExact thisMonthOut lastMonthOut.
Proof.
  intros Ht Hl.
  assert (Hall : forallb (fun l =>
                   forallb (fun t => Trend_eqb (fst (trendOf t l)) (trendExact t l))
                           (zrange 0 101))
                   (zrange 1 100) = true) by (vm_compute; reflexivity).
  rewrite forallb_forall in Hall.
  specialize (Hall lastMonthOut (zrange_In 1 100 lastMonthOut ltac:(lia))).
  rewrite forallb_forall in Hall.
  specialize (Hall thisMonthOut (zrange_In 0 101 thisMonthOut ltac:(lia))).
  destruct (fst (trendOf thisMonthOut lastMonthOut)),
    (trendExact thisMonthOut lastMonthOut); try discriminate; reflexivity.
Qed.

(** ** Turnover *)

Lemma earliestDate_bound (l : list Transaction) (d : Z) :
  earliestDate l = Some d ->
  exists t, In t l /\ t_created_at t = d.
Proof.
  revert d. induction l as [|t l IH]; simpl; intros d H; [discriminate|].
  destruct (earliestDate l) as [d'|] eqn:E.
  - injection H as <-. destruct (IH d' eq_refl) as (t' & Hin & Ht').
    destruct (Z.min_spec (t_created_at t) d') as [[_ ->]|[_ ->]].
    + exists t. auto.
    + exists t'. auto.
  - injection H as <-. exists t. auto.
Qed.

(** In a ledger fetched newest first, the last row is the earliest. *)
Lemma last_is_earliest (l : list Transaction) :
  newestFirst l ->
  option_map t_created_at (nth_error l (List.length l - 1)) = earliestDate l.
Proof.
  induction l as [|t l IH]; intros Hs; [reflexivity|].
  destruct Hs as [Hhead Htail]. specialize (IH Htail).
  destruct l as [|t' l'].
  - reflexivity.
  - change (nth_error (t :: t' :: l') (List.length (t :: t' :: l') - 1))
      with (nth_error (t' :: l') (List.length l')).
    replace (List.length l') with (List.length (t' :: l') - 1)%nat
      by (simpl; lia).
    rewrite IH. cbn [earliestDate].
    destruct (earliestDate l') as [d|] eqn:E.
    + f_equal.
      assert (Hd : Z.min (t_created_at t') d <= t_created_at t).
      { destruct (earliestDate_bound l' d E) as (t0 & Hin & <-).
        specialize (Hhead t' (or_introl eq_refl)). lia. }
      lia.
    + f_equal. specialize (Hhead t' (or_introl eq_refl)). lia.
Qed.

Lemma actualMonths_earliest (now : Z) (l : list Transaction) :
  newestFirst l ->
  actualMonths now l = monthsSince now (earliestDate l).
Proof.
  intros Hs. unfold actualMonths, monthsSince.
  rewrite <- (last_is_earliest l Hs).
  destruct l as [|t l]; [reflexivity|].
  cbn [List.length Nat.ltb Nat.leb].
  destruct (nth_error (t :: l) (S (List.length l) - 1)); reflexivity.
Qed.

(** C6 (as amended). All numbers are doubles. For out-transactions
    listed newest first, [actualMonths] is [max(1, (now - earliest) / 30
    days)], and 1 when there is none; [avg] is the total consumed divided
    by it. With a positive quantity the months of stock are
    [quantity / avg], the divisor being replaced by 1 only when [avg] is
    0 (or not a number), and the class is [High] below 2, else [Med]
    below 6, else [Low]. With a quantity that is not positive the class
    is [High] when [avg] exceeds 10 and [Low] otherwise. *)
Theorem turnover_classification (now quantity totalConsumed : Z)
    (outTransactions : list Transaction) :
  newestFirst outTransactions ->
  let months := monthsSince now (earliestDate outTransactions) in
  let avg := (Number totalConsumed / months)%float in
  let remaining :=
    (Number quantity / (if is_nan avg || is_zero avg then 1 else avg))%float in
  let rate := turnoverOf now quantity outTransactions totalConsumed in
  actualMonths now outTransactions = months
  /\ (0 < quantity ->
      (rate = High <-> (remaining <? 2)%float = true)
      /\ (rate = Med
          <-> (remaining <? 2)%float = false /\ (remaining <? 6)%float = true)
      /\ (rate = Low
          <-> (remaining <? 2)%float = false /\ (remaining <? 6)%float = false))
  /\ (quantity <= 0 ->
      (rate = High <-> (10 <? avg)%float = true)
      /\ (rate = Low <-> (10 <? avg)%float = false)).
Proof.
  intros Hs months avg remaining rate.
  pose proof (actualMonths_earliest now outTransactions Hs) as Hm.
  fold months in Hm. split; [exact Hm|].
  assert (Hrate : rate
                  = if 0 <? quantity
                    then if (remaining <? 2)%float then High
                         else if (remaining <? 6)%float then Med else Low
                    else if (10 <? avg)%float then High else Low).
  { unfold rate, turnoverOf, or_one. rewrite Hm. reflexivity. }
  split.
  - intros Hq. apply Z.ltb_lt in Hq. rewrite Hrate, Hq.
    destruct (remaining <? 2)%float; [|destruct (remaining <? 6)%float];
      repeat split; intros; try discriminate; try reflexivity;
      destruct H; discriminate.
  - intros Hq. apply Z.ltb_ge in Hq. rewrite Hrate, Hq.
    destruct (10 <? avg)%float;
      repeat split; intros; try discriminate; reflexivity.
Qed.

Lemma turnover_classification_witness :
  turnoverOf sampleNow 100 sampleOuts 120 = High
  /\ turnoverOf sampleNow 0 sampleOuts 120 = High
  /\ turnoverOf sampleNow 300 sampleOuts 120 = Med
  /\ actualMonths sampleNow sampleOuts = 2%float.
Proof.
  assert (Hs : newestFirst sampleOuts).
  { unfold sampleOuts. cbn [newestFirst].
    repeat split; intros t' Ht'; cbn [In] in Ht';
      repeat (destruct Ht' as [<-|Ht']; [vm_compute; discriminate|]);
      destruct Ht'. }
  destruct (turnover_classification sampleNow 100 120 sampleOuts Hs)
    as (Hmonths & Hpos & _).
  destruct Hpos as (Hhigh & _); [lia|].
  destruct (turnover_classification sampleNow 0 120 sampleOuts Hs)
    as (_ & _ & Hzero).
  destruct Hzero as (Hhigh0 & _); [lia|].
  destruct (turnover_classification sampleNow 300 120 sampleOuts Hs)
    as (_ & Hpos & _).
  destruct Hpos as (_ & Hmed & _); [lia|].
  split; [apply Hhigh; reflexivity|].
  split; [apply Hhigh0; reflexivity|].
  split; [apply Hmed; split; reflexivity|].
  rewrite Hmonths. reflexivity.
Defined.

(** C6, the claim as stated, fails: one unit in stock and one unit
    consumed sixty days ago give an average of one half per month. The
    code divides by that half (2 months of stock, [Med]); the
    specification divides by [max(1/2, 1) = 1] (1 month, [High]). *)
Lemma turnover_divisor_is_not_max :
  turnoverOf sampleNow 1 (sampleOut 1) 1 = Med
  /\ turnoverAsSpecified sampleNow 1 (sampleOut 1) 1 = High
  /\ (Number 1 / actualMonths sampleNow (sampleOut 1))%float = 0.5%float
  /\ (Number 1 / or_one 0.5)%float = 2%float
  /\ (Number 1 / Math_max 0.5 1)%float = 1%float.
Proof. repeat split; reflexivity. Qed.

(** The class is decided on the doubles: 30 in stock with 21 consumed 42
    days ago is exactly 2 months of stock, but the doubles give the
    number just below 2, and the class is [High]. *)
Example turnover_in_doubles :
  let now := 42 * (1000 * 60 * 60 * 24) in
  let avg := (Number 21 / actualMonths now (sampleOut 21))%float in
  turnoverOf now 30 (sampleOut 21) 21 = High
  /\ (Number 30 / or_one avg)%float = next_down 2.
Proof. repeat split; reflexivity. Qed.

(** The order matters: [createTransaction] puts a new row in front
    whatever its date, so after a backdated entry the last row is no
    longer the earliest until the ledger is fetched again. *)
Example actualMonths_after_backdated_entry :
  let l := [mkTransaction 2%nat 0%nat TxOut 1 0;
            mkTransaction 1%nat 0%nat TxOut 1 MS_PER_30_DAYS] in
  let now := 3 * MS_PER_30_DAYS in
  earliestDate l = Some 0
  /\ actualMonths now l = 2%float
  /\ monthsSince now (earliestDate l) = 3%float.
Proof. repeat split; reflexivity. Qed.

(** ** The blocks inside [productStats] *)

Lemma productStats_turnover (getMonth getFullYear : Z -> Z) (now : Z)
    (products : list Product) (transactions : list Transaction) :
  map ps_turnoverRate (productStats getMonth getFullYear now products transactions)
  = map (fun product =>
           turnoverOf now (p_quantity product)
             (filter (isOutOf product) transactions)
             (sumAmount (filter (isOutOf product) transactions)))
        products.
Proof.
  unfold productStats. rewrite map_map. apply map_ext. intros product.
  destruct (trendOf _ _). reflexivity.
Qed.

Lemma productStats_trend (getMonth getFullYear : Z -> Z) (now : Z)
    (products : list Product) (transactions : list Transaction) :
  map (fun s => (ps_trend s, ps_trendValue s))
      (productStats getMonth getFullYear now products transactions)
  = map (fun product =>
           let currentMonth := getMonth now in
           let currentYear := getFullYear now in
           let lastMonth := if currentMonth =? 0 then 11 else currentMonth - 1 in
           let lastMonthYear :=
             if currentMonth =? 0 then currentYear - 1 else currentYear in
           trendOf
             (sumAmount
                (filter (fun t => isOutOf product t
                                  && inMonth getMonth getFullYear
                                       currentMonth currentYear t)
                        transactions))
             (sumAmount
                (filter (fun t => isOutOf product t
                                  && inMonth getMonth getFullYear
                                       lastMonth lastMonthYear t)
                        transactions)))
        products.
Proof.
  unfold productStats. rewrite map_map. apply map_ext. intros product.
  cbv zeta. destruct (trendOf _ _). reflexivity.
Qed.

(** ** Quantities are never negative

    Whatever the store answers, the three operations keep every
    quantity, in the store and in the provider, at 0 or above. This is
    the standing assumption of the opening-stock theorem. *)

Lemma nonnegative_setQuantity (productId : Id) (q : Z) (l : list Product) :
  0 <= q -> nonnegative l -> nonnegative (map (setQuantity productId q) l).
Proof.
  intros Hq Hl. unfold nonnegative in *. apply Forall_map.
  eapply Forall_impl; [|exact Hl]. intros p Hp. unfold setQuantity.
  destruct (Nat.eqb (p_id p) productId); simpl; assumption.
Qed.

Lemma nonnegative_snoc (l : list Product) (p : Product) :
  0 <= p_quantity p -> nonnegative l -> nonnegative (l ++ [p]).
Proof.
  intros Hp Hl. apply Forall_app. split; [exact Hl|].
  constructor; [exact Hp | constructor].
Qed.

Lemma nonnegative_find (l : list Product) (f : Product -> bool) (p : Product) :
  nonnegative l -> find f l = Some p -> 0 <= p_quantity p.
Proof.
  intros Hl Hf. apply find_some in Hf. destruct Hf as [Hin _].
  unfold nonnegative in Hl. rewrite Forall_forall in Hl. apply Hl, Hin.
Qed.

Ltac nonneg :=
  repeat first
    [ assumption
    | apply nonnegative_setQuantity
    | apply nonnegative_snoc
    | apply Z.le_max_l
    | progress simpl
    | lia ].

(** The next three outcomes, whatever they are. *)
Ltac any_outcome outs :=
  destruct outs as [|[|] [|[|] [|[|] outs]]]; simpl.

Lemma createProduct_nonnegative (w : World) (productData : ProductInsert) :
  0 <= or_default (pi_quantity productData) 0 ->
  nonnegative (db_products (store w)) ->
  nonnegative (products (ctx w)) ->
  let w' := exec (createProduct productData) w in
  nonnegative (db_products (store w')) /\ nonnegative (products (ctx w')).
Proof.
  destruct w as [[dbp dbt nid now outs reqs] [u cfg ps ts ats con]].
  intros Hq Hdb Hps. run_op.
  destruct u as [u|]; simpl; [|split; assumption].
  destruct cfg; simpl; [|split; assumption].
  destruct (0 <? or_default (pi_quantity productData) 0);
    any_outcome outs; split; nonneg.
Qed.

Lemma handleConfirmAction_nonnegative (w : World) (product : Product)
    (operation : Operation) (adjustAmount : Z) (customDate : option Z) :
  0 <= p_quantity product ->
  0 <= adjustAmount ->
  nonnegative (db_products (store w)) ->
  nonnegative (products (ctx w)) ->
  let w' :=
    exec (handleConfirmAction false product operation adjustAmount customDate) w in
  nonnegative (db_products (store w')) /\ nonnegative (products (ctx w')).
Proof.
  destruct w as [[dbp dbt nid now outs reqs] [u cfg ps ts ats con]].
  intros Hq Ha Hdb Hps. run_op.
  assert (Hfinal : 0 <= finalStock (p_quantity product) adjustAmount operation).
  { destruct operation; simpl; lia. }
  destruct customDate as [created_at|];
    destruct u as [u|]; any_outcome outs; split; nonneg.
Qed.

Lemma deleteTransaction_nonnegative (w : World) (transactionId : Id) :
  nonnegative (db_products (store w)) ->
  nonnegative (products (ctx w)) ->
  let w' := exec (deleteTransaction transactionId) w in
  nonnegative (db_products (store w')) /\ nonnegative (products (ctx w')).
Proof.
  destruct w as [[dbp dbt nid now outs reqs] [u cfg ps ts ats con]].
  intros Hdb Hps. run_op.
  destruct u as [u|]; simpl; [|split; assumption].
  destruct (find (fun t => Nat.eqb (t_id t) transactionId) ts)
    as [transaction|]; simpl; [|split; assumption].
  destruct (find (fun p => Nat.eqb (p_id p) (t_product_id transaction)) ps)
    as [product|] eqn:Hfind; simpl.
  - pose proof (nonnegative_find ps _ product Hps Hfind) as Hq.
    any_outcome outs; split; nonneg.
  - any_outcome outs; split; nonneg.
Qed.

(** * Further properties *)

(** ** Delete Product *)

Ltac run_delete :=
  unfold exec, eval, outcomeAt, deleteProduct, handleDeleteProduct,
    db_delete_transactions_of, db_delete_product,
    setProducts, setTransactions, setAllTransactions,
    log, getCtx, bind, ret, next_outcome in *;
  simpl in *.

Lemma filter_drops (A : Type) (f : A -> bool) (l : list A) (x : A) :
  In x (filter (fun y => negb (f y)) l) -> f x = false.
Proof.
  intros H. apply filter_In in H. destruct H as [_ H].
  apply negb_true_iff in H. exact H.
Qed.

(** X1. When both deletes are accepted, [deleteProduct] returns
    [true]; the product's row and every transaction that refers to it
    are gone from the store and from the three lists of the provider,
    and all other rows stay, in their order. *)
Theorem deleteProduct_cascade (w : World) (productId : Id) :
  outcomeAt 0 w = true ->
  outcomeAt 1 w = true ->
  let w' := exec (deleteProduct productId) w in
  let others := fun t => negb (Nat.eqb (t_product_id t) productId) in
  let otherProducts := fun p => negb (Nat.eqb (p_id p) productId) in
  eval (deleteProduct productId) w = true
  /\ db_products (store w') = filter otherProducts (db_products (store w))
  /\ db_transactions (store w') = filter others (db_transactions (store w))
  /\ products (ctx w') = filter otherProducts (products (ctx w))
  /\ transactions (ctx w') = filter others (transactions (ctx w))
  /\ allTransactions (ctx w') = filter others (allTransactions (ctx w))
  /\ quantityOf productId (db_products (store w')) = None
  /\ (forall t, In t (db_transactions (store w')) -> t_product_id t <> productId)
  /\ (forall t, In t (transactions (ctx w')) -> t_product_id t <> productId)
  /\ (forall t, In t (allTransactions (ctx w')) -> t_product_id t <> productId).
Proof.
  destruct w as [[dbp dbt nid now outs reqs] [u cfg ps ts ats con]].
  intros H0 H1. run_delete.
  assert (Hgone : forall l t,
             In t (filter (fun t => negb (Nat.eqb (t_product_id t) productId)) l) ->
             t_product_id t <> productId).
  { intros l t Ht. apply Nat.eqb_neq.
    exact (filter_drops _ (fun t => Nat.eqb (t_product_id t) productId) l t Ht). }
  assert (Hnone : quantityOf productId
                    (filter (fun p => negb (Nat.eqb (p_id p) productId)) dbp)
                  = None).
  { unfold quantityOf.
    destruct (find (fun p => Nat.eqb (p_id p) productId)
                (filter (fun p => negb (Nat.eqb (p_id p) productId)) dbp))
      as [p|] eqn:E; [|reflexivity].
    apply find_some in E. destruct E as [Hin Hp].
    apply filter_In in Hin. destruct Hin as [_ Hin].
    rewrite Hp in Hin. discriminate. }
  script3 outs; repeat split; try reflexivity; try exact Hnone;
    apply Hgone.
Qed.

Lemma deleteProduct_cascade_witness :
  let w' := exec (deleteProduct 0%nat) (sampleLedgerWorld [true; true]) in
  db_products (store w') = [] /\ db_transactions (store w') = []
  /\ transactions (ctx w') = [].
Proof.
  pose proof (deleteProduct_cascade (sampleLedgerWorld [true; true]) 0%nat) as H.
  simpl in H.
  destruct H as (_ & Hp & Ht & _ & Hl & _); [reflexivity | reflexivity |].
  split; [exact Hp | split; [exact Ht | exact Hl]].
Defined.

(** X2. When the store refuses the delete of the transactions,
    [deleteProduct] returns [false] after that single request: the
    product delete is never sent, and tables and provider lists are
    untouched. *)
Theorem deleteProduct_refused_first (w : World) (productId : Id) :
  outcomeAt 0 w = false ->
  let w' := exec (deleteProduct productId) w in
  eval (deleteProduct productId) w = false
  /\ db_outcomes (store w') = tl (db_outcomes (store w))
  /\ db_products (store w') = db_products (store w)
  /\ db_transactions (store w') = db_transactions (store w)
  /\ products (ctx w') = products (ctx w)
  /\ transactions (ctx w') = transactions (ctx w)
  /\ allTransactions (ctx w') = allTransactions (ctx w).
Proof.
  destruct w as [[dbp dbt nid now outs reqs] [u cfg ps ts ats con]].
  intros H0. run_delete.
  script3 outs; repeat split; reflexivity.
Qed.

Lemma deleteProduct_refused_first_witness :
  let w' := exec (deleteProduct 0%nat) (sampleLedgerWorld [false; true]) in
  db_products (store w') = [mkProduct 0%nat 6]
  /\ db_transactions (store w') = sampleLedger
  /\ db_outcomes (store w') = [true].
Proof.
  pose proof (deleteProduct_refused_first (sampleLedgerWorld [false; true]) 0%nat)
    as H.
  simpl in H.
  destruct H as (_ & Ho & Hp & Ht & _); [reflexivity |].
  split; [exact Hp | split; [exact Ht | exact Ho]].
Defined.

(** X3. When the transactions are deleted and the store then refuses
    the delete of the product, [deleteProduct] returns [false] and
    nothing is put back: the store has lost the product's whole ledger
    but keeps the product row with its quantity, and the provider still
    shows the old lists. *)
Theorem deleteProduct_refused_second (w : World) (productId : Id) :
  outcomeAt 0 w = true ->
  outcomeAt 1 w = false ->
  let w' := exec (deleteProduct productId) w in
  eval (deleteProduct productId) w = false
  /\ db_transactions (store w')
     = filter (fun t => negb (Nat.eqb (t_product_id t) productId))
         (db_transactions (store w))
  /\ ledgerNet productId (db_transactions (store w')) = 0
  /\ db_products (store w') = db_products (store w)
  /\ products (ctx w') = products (ctx w)
  /\ transactions (ctx w') = transactions (ctx w)
  /\ allTransactions (ctx w') = allTransactions (ctx w).
Proof.
  destruct w as [[dbp dbt nid now outs reqs] [u cfg ps ts ats con]].
  intros H0 H1. run_delete.
  assert (Hzero : ledgerNet productId
                    (filter (fun t => negb (Nat.eqb (t_product_id t) productId)) dbt)
                  = 0).
  { unfold ledgerNet, sumAmounts.
    assert (E : forall ty,
               filter (fun t => Nat.eqb (t_product_id t) productId
                                && TxType_eqb (t_type t) ty)
                 (filter (fun t => negb (Nat.eqb (t_product_id t) productId)) dbt)
               = []).
    { intros ty. induction dbt as [|t l IH]; simpl; [reflexivity|].
      destruct (Nat.eqb (t_product_id t) productId) eqn:Et; simpl;
        [exact IH | rewrite Et; exact IH]. }
    rewrite !E. reflexivity. }
  script3 outs; repeat split; try reflexivity; exact Hzero.
Qed.

Lemma deleteProduct_refused_second_witness :
  let w' := exec (deleteProduct 0%nat) (sampleLedgerWorld [true; false]) in
  db_products (store w') = [mkProduct 0%nat 6]
  /\ db_transactions (store w') = []
  /\ transactions (ctx w') = rev sampleLedger.
Proof.
  pose proof (deleteProduct_refused_second (sampleLedgerWorld [true; false]) 0%nat)
    as H.
  simpl in H.
  destruct H as (_ & Ht & _ & Hp & _ & Hl & _); [reflexivity | reflexivity |].
  split; [exact Hp | split; [exact Ht | exact Hl]].
Defined.

(** ** Sessions with deletions *)

Lemma map_id_setQuantity (productId : Id) (q : Z) (l : list Product) :
  map p_id (map (setQuantity productId q) l) = map p_id l.
Proof.
  rewrite map_map. apply map_ext. intros p. unfold setQuantity.
  destruct (Nat.eqb (p_id p) productId); reflexivity.
Qed.

Lemma keyed_same_ids (dbp dbp' : list Product) (dbt : list Transaction)
    (nid : Id) :
  map p_id dbp' = map p_id dbp -> keyed dbp dbt nid -> keyed dbp' dbt nid.
Proof. unfold keyed. intros ->. auto. Qed.

Lemma keyed_add_product (dbp : list Product) (dbt : list Transaction)
    (nid : Id) (q : Z) :
  keyed dbp dbt nid -> keyed (dbp ++ [mkProduct nid q]) dbt (S nid).
Proof.
  intros (Hp & Ht & Hlt & Htx). unfold keyed. rewrite map_app. simpl.
  split; [|split; [exact Ht|split]].
  - apply NoDup_app; [exact Hp | repeat constructor; intros [] |].
    intros i Hi [Heq|[]]. specialize (Hlt i Hi). lia.
  - intros i Hi. apply in_app_or in Hi. destruct Hi as [Hi|[Heq|[]]].
    + specialize (Hlt i Hi). lia.
    + lia.
  - intros t Hin. destruct (Htx t Hin) as [Hid Hprod]. split; [lia|].
    apply in_or_app. left. exact Hprod.
Qed.

Lemma keyed_add_transaction (dbp : list Product) (dbt : list Transaction)
    (nid : Id) (t : Transaction) :
  keyed dbp dbt nid ->
  t_id t = nid ->
  In (t_product_id t) (map p_id dbp) ->
  keyed dbp (dbt ++ [t]) (S nid).
Proof.
  intros (Hp & Ht & Hlt & Htx) Hid Hin. unfold keyed. rewrite map_app. simpl.
  split; [exact Hp|split; [|split]].
  - apply NoDup_app; [exact Ht | repeat constructor; intros [] |].
    intros i Hi [Hi'|[]]. apply in_map_iff in Hi.
    destruct Hi as (t0 & Hi0 & Ht0). destruct (Htx t0 Ht0) as [Hlt0 _]. lia.
  - intros i Hi. specialize (Hlt i Hi). lia.
  - intros t0 H. apply in_app_or in H. destruct H as [H|[<-|[]]].
    + destruct (Htx t0 H) as [Hlt0 Hprod]. split; [lia | exact Hprod].
    + split; [lia | exact Hin].
Qed.

Lemma NoDup_map_filter (A B : Type) (f : A -> B) (g : A -> bool) (l : list A) :
  NoDup (map f l) -> NoDup (map f (filter g l)).
Proof.
  induction l as [|x l IH]; simpl; intros H; [constructor|].
  inversion H as [|? ? Hnot Hrest]; subst.
  destruct (g x); simpl; [|apply IH, Hrest].
  constructor; [|apply IH, Hrest].
  intros Hin. apply Hnot. apply in_map_iff in Hin.
  destruct Hin as (y & Hy & Hin). apply filter_In in Hin.
  apply in_map_iff. exists y. split; [exact Hy | apply Hin].
Qed.

Lemma keyed_remove_transactions (dbp : list Product) (dbt : list Transaction)
    (nid : Id) (g : Transaction -> bool) :
  keyed dbp dbt nid -> keyed dbp (filter g dbt) nid.
Proof.
  intros (Hp & Ht & Hlt & Htx). unfold keyed.
  split; [exact Hp|split; [|split; [exact Hlt|]]].
  - apply NoDup_map_filter, Ht.
  - intros t H. apply filter_In in H. apply (Htx t), H.
Qed.

Lemma keyed_remove_product (dbp : list Product) (dbt : list Transaction)
    (nid productId : Id) :
  keyed dbp dbt nid ->
  keyed (filter (fun p => negb (Nat.eqb (p_id p) productId)) dbp)
        (filter (fun t => negb (Nat.eqb (t_product_id t) productId)) dbt) nid.
Proof.
  intros (Hp & Ht & Hlt & Htx). unfold keyed.
  split; [|split; [|split]].
  - apply NoDup_map_filter, Hp.
  - apply NoDup_map_filter, Ht.
  - intros i Hi. apply Hlt. apply in_map_iff in Hi.
    destruct Hi as (p & <- & Hin). apply filter_In in Hin.
    apply in_map. apply Hin.
  - intros t H. apply filter_In in H. destruct H as [Hin Hneq].
    destruct (Htx t Hin) as [Hid Hprod]. split; [exact Hid|].
    apply in_map_iff in Hprod.
    destruct Hprod as (p & Hp' & Hpin). apply in_map_iff. exists p.
    split; [exact Hp'|]. apply filter_In. split; [exact Hpin|].
    rewrite Hp'. exact Hneq.
Qed.

Lemma find_in_ids (l : list Product) (i : Id) (p : Product) :
  find (fun p => Nat.eqb (p_id p) i) l = Some p ->
  In (p_id p) (map p_id l) /\ p_id p = i.
Proof.
  intros H. apply find_some in H. destruct H as [Hin Hid].
  split; [apply in_map, Hin | apply Nat.eqb_eq, Hid].
Qed.

Ltac open_inStep w H :=
  destruct w as [[dbp dbt nid now outs reqs] [u cfg ps ts ats con]];
  destruct H as ((Hps & Hats & Hts) & Hk & Hnf);
  unfold wellKeyed, noFailure in *; simpl in *; subst ps ats ts.

Ltac close_inStep :=
  unfold inStep, mirrored, wellKeyed, noFailure; simpl;
  rewrite ?rev_unit, ?filter_rev;
  (split; [repeat split; reflexivity|]).

Lemma createProduct_inStep (w : World) (productData : ProductInsert) :
  inStep w -> inStep (exec (createProduct productData) w).
Proof.
  intros H. pose proof H as H'. open_inStep w H. run_op.
  destruct u as [u|]; simpl; [|exact H'].
  destruct cfg; simpl; [|exact H'].
  destruct (0 <? or_default (pi_quantity productData) 0);
    next_ok outs Hnf; try next_ok outs Hnf; close_inStep;
    (split; [|assumption || reflexivity]);
    try (apply keyed_add_transaction;
         [ | reflexivity
           | simpl; rewrite map_app; apply in_or_app; right; left; reflexivity ]);
    apply keyed_add_product, Hk.
Qed.

Lemma handleConfirmAction_inStep (w : World) (product : Product)
    (operation : Operation) (adjustAmount : Z) (customDate : option Z) :
  inStep w ->
  In product (products (ctx w)) ->
  inStep
    (exec (handleConfirmAction false product operation adjustAmount customDate) w).
Proof.
  intros H Hin. open_inStep w H. run_op.
  assert (Hid : In (p_id product) (map p_id dbp)) by (apply in_map, Hin).
  destruct customDate as [created_at|]; destruct u as [u|]; simpl;
    next_ok outs Hnf; try next_ok outs Hnf; close_inStep;
    (split; [|assumption || reflexivity]);
    try (apply keyed_add_transaction;
         [ | reflexivity | simpl; rewrite map_id_setQuantity; exact Hid ]);
    repeat (eapply keyed_same_ids; [apply map_id_setQuantity|]);
    exact Hk.
Qed.

Lemma deleteTransaction_inStep (w : World) (transactionId : Id) :
  inStep w -> inStep (exec (deleteTransaction transactionId) w).
Proof.
  intros H. pose proof H as H'. open_inStep w H. run_op.
  destruct u as [u|]; simpl; [|exact H'].
  destruct (find (fun t => Nat.eqb (t_id t) transactionId) (rev dbt))
    as [transaction|]; simpl; [|exact H'].
  destruct (find (fun p => Nat.eqb (p_id p) (t_product_id transaction)) dbp)
    as [product|]; simpl;
    next_ok outs Hnf; try next_ok outs Hnf; close_inStep;
    (split; [|assumption || reflexivity]);
    apply keyed_remove_transactions;
    repeat (eapply keyed_same_ids; [apply map_id_setQuantity|]);
    exact Hk.
Qed.

Lemma deleteProduct_inStep (w : World) (productId : Id) :
  inStep w -> inStep (exec (deleteProduct productId) w).
Proof.
  intros H. open_inStep w H. run_delete.
  next_ok outs Hnf; try next_ok outs Hnf; close_inStep;
    (split; [|assumption || reflexivity]);
    apply keyed_remove_product, Hk.
Qed.

Lemma newWorld_inStep (u : option Id) (cfg : bool) (now : Z)
    (outcomes : list bool) :
  forallb (fun b => b) outcomes = true ->
  inStep (newWorld u cfg now outcomes).
Proof.
  intros H. unfold inStep, mirrored, wellKeyed, keyed, noFailure, newWorld.
  simpl.
  split; [repeat split; reflexivity|].
  split; [|exact H].
  split; [apply NoDup_nil|]. split; [apply NoDup_nil|].
  split; intros ? [].
Qed.

Lemma handleEvent_inStep (w : World) (e : Event) :
  inStep w -> inStep (exec (handleEvent e) w).
Proof.
  intros H. destruct e as [[productData|productId operation amount date]
                          |transactionId|productId];
    unfold handleEvent, perform, handleDelete, handleDeleteProduct.
  - rewrite exec_bind. apply (createProduct_inStep w productData H).
  - rewrite exec_bind. change (exec getCtx w) with w.
    change (eval getCtx w) with (ctx w).
    destruct (find (fun p => Nat.eqb (p_id p) productId) (products (ctx w)))
      as [product|] eqn:Hfind; [|exact H].
    apply find_some in Hfind. destruct Hfind as [Hin _].
    rewrite exec_bind.
    apply (handleConfirmAction_inStep w product operation amount date H Hin).
  - rewrite !exec_bind.
    pose proof (deleteTransaction_inStep w transactionId H) as H1.
    destruct (dr_success (eval (deleteTransaction transactionId) w)); exact H1.
  - rewrite exec_bind. change (exec getCtx w) with w.
    change (eval getCtx w) with (ctx w).
    destruct (find (fun p => Nat.eqb (p_id p) productId) (products (ctx w)))
      as [product|]; [|exact H].
    rewrite exec_bind. cbn [negb]. rewrite exec_bind.
    pose proof (deleteProduct_inStep w (p_id product) H) as H1.
    destruct (eval (deleteProduct (p_id product)) w); exact H1.
Qed.

Lemma handleEvents_inStep (events : list Event) (w : World) :
  inStep w -> inStep (exec (handleEvents events) w).
Proof.
  revert w. induction events as [|e events IH]; intros w H.
  - exact H.
  - cbn [handleEvents]. rewrite exec_bind.
    apply IH, handleEvent_inStep, H.
Qed.

Lemma wellKeyed_noOrphan (w : World) :
  wellKeyed w -> noOrphan (db_products (store w)) (db_transactions (store w)).
Proof.
  intros (_ & _ & _ & Htx) t Ht. destruct (Htx t Ht) as [_ Hin].
  apply in_map_iff in Hin. destruct Hin as (p & Hp & Hin).
  exists p. split; assumption.
Qed.

(** X4. In a session that starts empty and meets no store failure,
    after every prefix of any sequence of creations, adjustments,
    transaction deletions and product deletions, the provider's lists
    mirror the store: [products] and [allTransactions] equal the two
    tables and [transactions] is the ledger table in reverse insertion
    order, the row recorded last in front (the order of recording, not
    of the dates the rows carry). *)
Theorem session_mirrors_store (u : option Id) (cfg : bool) (now : Z)
    (outcomes : list bool) (events : list Event) (n : nat) :
  forallb (fun b => b) outcomes = true ->
  let w := exec (handleEvents (firstn n events)) (newWorld u cfg now outcomes) in
  products (ctx w) = db_products (store w)
  /\ allTransactions (ctx w) = db_transactions (store w)
  /\ transactions (ctx w) = rev (db_transactions (store w)).
Proof.
  intros Hok w.
  assert (H : inStep w)
    by (apply handleEvents_inStep, newWorld_inStep, Hok).
  apply H.
Qed.

(** X5. In such a session no transaction is ever left without its
    product: after every prefix, every row of the ledger refers to a row
    of the products table. *)
Theorem session_keeps_references (u : option Id) (cfg : bool) (now : Z)
    (outcomes : list bool) (events : list Event) (n : nat) :
  forallb (fun b => b) outcomes = true ->
  let w := exec (handleEvents (firstn n events)) (newWorld u cfg now outcomes) in
  noOrphan (db_products (store w)) (db_transactions (store w)).
Proof.
  intros Hok w.
  assert (H : inStep w)
    by (apply handleEvents_inStep, newWorld_inStep, Hok).
  destruct H as (_ & Hk & _).
  apply wellKeyed_noOrphan, Hk.
Qed.

Lemma session_mirrors_store_witness :
  let w := exec (handleEvents (firstn 5 sampleEvents))
                (newWorld (Some 7%nat) true 0 []) in
  db_products (store w) = [mkProduct 0%nat 10]
  /\ products (ctx w) = db_products (store w)
  /\ allTransactions (ctx w) = db_transactions (store w)
  /\ transactions (ctx w) = rev (db_transactions (store w)).
Proof.
  split; [reflexivity|].
  apply (session_mirrors_store (Some 7%nat) true 0 [] sampleEvents 5).
  reflexivity.
Defined.

Lemma session_keeps_references_witness :
  let w := exec (handleEvents (firstn 3 sampleEvents))
                (newWorld (Some 7%nat) true 0 []) in
  map t_product_id (db_transactions (store w)) = [0%nat; 2%nat; 0%nat]
  /\ noOrphan (db_products (store w)) (db_transactions (store w)).
Proof.
  split; [reflexivity|].
  apply (session_keeps_references (Some 7%nat) true 0 [] sampleEvents 3).
  reflexivity.
Defined.

(** *** The ledger equation under deletions *)

Lemma sumAmounts_filter_other (i productId : Id) (ty : TxType)
    (l : list Transaction) :
  i <> productId ->
  sumAmounts i ty
    (filter (fun t => negb (Nat.eqb (t_product_id t) productId)) l)
  = sumAmounts i ty l.
Proof.
  intros Hneq. induction l as [|t l IH]; [reflexivity|].
  cbn [filter]. destruct (Nat.eqb (t_product_id t) productId) eqn:E; cbn [negb].
  - rewrite IH, sumAmounts_cons. apply Nat.eqb_eq in E.
    assert (E' : Nat.eqb (t_product_id t) i = false)
      by (apply Nat.eqb_neq; congruence).
    rewrite E'. reflexivity.
  - rewrite !sumAmounts_cons, IH. reflexivity.
Qed.

Lemma deleteProduct_consistent (w : World) (productId : Id) :
  consistent w -> consistent (exec (deleteProduct productId) w).
Proof.
  destruct w as [[dbp dbt nid now outs reqs] [u cfg ps ts ats con]].
  intros (Hps & Hnet & Hid & Htid & Hnf).
  unfold noFailure in Hnf. simpl in *. subst ps.
  unfold consistent, noFailure. run_delete.
  next_ok outs Hnf; try next_ok outs Hnf;
    (split; [reflexivity|]);
    (split; [|split; [|split; [|assumption || reflexivity]]]).
  all: try (intros p Hp; apply filter_In in Hp; destruct Hp as [Hp Hneq];
            apply negb_true_iff, Nat.eqb_neq in Hneq;
            unfold ledgerNet; rewrite !sumAmounts_filter_other by exact Hneq;
            apply (Hnet p Hp)).
  all: try (intros p Hp; apply filter_In in Hp; apply Hid, Hp).
  all: intros t Ht; apply filter_In in Ht; apply Htid, Ht.
Qed.

Lemma handleEvent_consistent (w : World) (e : Event) :
  consistent w ->
  keepsLedger e = true ->
  consistent (exec (handleEvent e) w).
Proof.
  intros H Hk. destruct e as [a|transactionId|productId];
    [|discriminate|]; unfold handleEvent.
  - apply perform_consistent; [exact H | exact Hk].
  - rewrite exec_bind. change (exec getCtx w) with w.
    change (eval getCtx w) with (ctx w).
    destruct (find (fun p => Nat.eqb (p_id p) productId) (products (ctx w)))
      as [product|]; [|exact H].
    unfold handleDeleteProduct. rewrite exec_bind. cbn [negb].
    rewrite exec_bind.
    pose proof (deleteProduct_consistent w (p_id product) H) as H1.
    destruct (eval (deleteProduct (p_id product)) w); exact H1.
Qed.

Lemma handleEvents_consistent (events : list Event) (w : World) :
  consistent w ->
  forallb keepsLedger events = true ->
  consistent (exec (handleEvents events) w).
Proof.
  revert w. induction events as [|e events IH]; intros w H Hv.
  - exact H.
  - simpl in Hv. apply andb_true_iff in Hv. destruct Hv as [He Hv].
    cbn [handleEvents]. rewrite exec_bind.
    apply IH; [apply handleEvent_consistent; assumption | exact Hv].
Qed.

(** X6. Deleting products keeps the ledger equation: in a session that
    starts empty, meets no store failure and consists of creations (with
    an initial quantity that is not negative), adjustments whose date
    field holds a date, and product deletions, after every prefix each
    remaining product's quantity is the sum of its ['in'] amounts minus
    the sum of its ['out'] amounts. *)
Theorem ledger_invariant_with_product_deletion (u : option Id) (cfg : bool)
    (now : Z) (outcomes : list bool) (events : list Event) (n : nat) :
  forallb (fun b => b) outcomes = true ->
  forallb keepsLedger events = true ->
  let w := exec (handleEvents (firstn n events)) (newWorld u cfg now outcomes) in
  forall p, In p (db_products (store w)) ->
    p_quantity p
    = sumAmounts (p_id p) TxIn (db_transactions (store w))
      - sumAmounts (p_id p) TxOut (db_transactions (store w)).
Proof.
  intros Hok Hv w.
  assert (H : consistent w).
  { apply handleEvents_consistent.
    - apply newWorld_consistent, Hok.
    - apply forallb_firstn, Hv. }
  apply H.
Qed.

Lemma ledger_invariant_with_product_deletion_witness :
  let w := exec (handleEvents (firstn 5 sampleLedgerEvents))
                (newWorld (Some 7%nat) true 0 []) in
  db_products (store w) = [mkProduct 2%nat 7]
  /\ map t_amount (db_transactions (store w)) = [4; 3]
  /\ forall p, In p (db_products (store w)) ->
       p_quantity p
       = sumAmounts (p_id p) TxIn (db_transactions (store w))
         - sumAmounts (p_id p) TxOut (db_transactions (store w)).
Proof.
  split; [reflexivity|]. split; [reflexivity|].
  apply (ledger_invariant_with_product_deletion (Some 7%nat) true 0 []
           sampleLedgerEvents 5); reflexivity.
Defined.

(** *** The totals of the dashboard *)

Lemma fold_left_sum (A : Type) (f : A -> Z) (l : list A) (a : Z) :
  fold_left (fun sum x => sum + f x) l a = a + fold_right Z.add 0 (map f l).
Proof.
  revert a. induction l as [|x l IH]; intros a; simpl; [lia|].
  rewrite IH. lia.
Qed.

Lemma sum_rev (l : list Z) :
  fold_right Z.add 0 (rev l) = fold_right Z.add 0 l.
Proof.
  induction l as [|x l IH]; simpl; [reflexivity|].
  rewrite sum_app, IH. simpl. lia.
Qed.

Lemma sum_plus (A : Type) (f g : A -> Z) (l : list A) :
  fold_right Z.add 0 (map (fun x => f x + g x) l)
  = fold_right Z.add 0 (map f l) + fold_right Z.add 0 (map g l).
Proof. induction l as [|x l IH]; simpl; [reflexivity | rewrite IH; lia]. Qed.

Lemma sum_one_match (ps : list Product) (i : Id) (c : Z) :
  NoDup (map p_id ps) ->
  In i (map p_id ps) ->
  fold_right Z.add 0 (map (fun p => if Nat.eqb i (p_id p) then c else 0) ps) = c.
Proof.
  induction ps as [|p ps IH]; simpl; intros Hnd Hin; [contradiction|].
  inversion Hnd as [|? ? Hnot Hrest]; subst.
  destruct (Nat.eqb i (p_id p)) eqn:E.
  - apply Nat.eqb_eq in E. subst i.
    assert (Hz : fold_right Z.add 0
                   (map (fun p0 => if Nat.eqb (p_id p) (p_id p0) then c else 0) ps)
                 = 0).
    { clear IH Hrest Hin Hnd. induction ps as [|p0 ps IH]; [reflexivity|].
      simpl. destruct (Nat.eqb (p_id p) (p_id p0)) eqn:E0.
      - apply Nat.eqb_eq in E0. exfalso. apply Hnot. left. symmetry. exact E0.
      - rewrite IH; [reflexivity|]. intros H. apply Hnot. right. exact H. }
    rewrite Hz. lia.
  - destruct Hin as [Hin|Hin].
    + apply Nat.eqb_neq in E. congruence.
    + rewrite (IH Hrest Hin). lia.
Qed.

Lemma ledgerNet_cons (i : Id) (t : Transaction) (l : list Transaction) :
  ledgerNet i (t :: l)
  = (if Nat.eqb (t_product_id t) i then signedAmount t else 0) + ledgerNet i l.
Proof.
  unfold ledgerNet, signedAmount. rewrite !sumAmounts_cons.
  destruct (Nat.eqb (t_product_id t) i); destruct (t_type t); simpl; lia.
Qed.

(** Summed over the products, the nets of a ledger without orphans
    count every transaction once. *)
Lemma sum_ledgerNet (ps : list Product) (l : list Transaction) :
  NoDup (map p_id ps) ->
  (forall t, In t l -> In (t_product_id t) (map p_id ps)) ->
  fold_right Z.add 0 (map (fun p => ledgerNet (p_id p) l) ps)
  = fold_right Z.add 0 (map signedAmount l).
Proof.
  intros Hnd. induction l as [|t l IH]; intros Hin.
  - clear Hnd Hin. induction ps as [|p ps IHp]; [reflexivity|].
    cbn [map fold_right] in *. rewrite IHp. reflexivity.
  - rewrite (map_ext _ (fun p => (if Nat.eqb (t_product_id t) (p_id p)
                                  then signedAmount t else 0)
                                 + ledgerNet (p_id p) l))
      by (intros p; apply ledgerNet_cons).
    rewrite sum_plus, IH by (intros t' Ht'; apply Hin; right; exact Ht').
    rewrite sum_one_match; [reflexivity | exact Hnd |].
    apply Hin. left. reflexivity.
Qed.

Lemma sum_signed_split (l : list Transaction) :
  fold_right Z.add 0 (map signedAmount l)
  = fold_right Z.add 0
      (map t_amount (filter (fun t => TxType_eqb (t_type t) TxIn) l))
    - fold_right Z.add 0
        (map t_amount (filter (fun t => TxType_eqb (t_type t) TxOut) l)).
Proof.
  induction l as [|t l IH]; [reflexivity|].
  cbn [map fold_right filter]. rewrite IH. unfold signedAmount.
  destruct (t_type t); simpl; lia.
Qed.

Lemma total_of_rev (f : Transaction -> bool) (l : list Transaction) :
  fold_left (fun sum t => sum + t_amount t) (filter f (rev l)) 0
  = fold_right Z.add 0 (map t_amount (filter f l)).
Proof.
  rewrite fold_left_sum, filter_rev, map_rev, sum_rev. lia.
Qed.

(** X7. The totals balance: in a session that starts empty, meets no
    store failure and consists of creations (initial quantity not
    negative), adjustments whose date field holds a date, and product
    deletions, after every prefix the provider's [totalStock] equals
    [totalIn - totalOut]. *)
Theorem totals_balance (u : option Id) (cfg : bool) (now : Z)
    (outcomes : list bool) (events : list Event) (n : nat) :
  forallb (fun b => b) outcomes = true ->
  forallb keepsLedger events = true ->
  let w := exec (handleEvents (firstn n events)) (newWorld u cfg now outcomes) in
  totalStock (ctx w) = totalIn (ctx w) - totalOut (ctx w).
Proof.
  intros Hok Hv w.
  assert (Hc : consistent w).
  { apply handleEvents_consistent.
    - apply newWorld_consistent, Hok.
    - apply forallb_firstn, Hv. }
  assert (Hs : inStep w)
    by (apply handleEvents_inStep, newWorld_inStep, Hok).
  destruct Hs as ((Hps & _ & Hts) & (Hnd & _ & _ & Htx) & _).
  destruct Hc as (_ & Hnet & _).
  unfold totalStock, totalIn, totalOut. rewrite Hps, Hts, !total_of_rev.
  rewrite fold_left_sum, <- sum_signed_split.
  rewrite <- (sum_ledgerNet (db_products (store w)) _ Hnd)
    by (intros t Ht; apply (Htx t Ht)).
  rewrite (map_ext_in _ (fun p => ledgerNet (p_id p) (db_transactions (store w))))
    by (intros p Hp; apply Hnet, Hp).
  lia.
Qed.

Lemma totals_balance_witness :
  let w := exec (handleEvents (firstn 4 sampleLedgerEvents))
                (newWorld (Some 7%nat) true 0 []) in
  totalIn (ctx w) = 17 /\ totalOut (ctx w) = 10
  /\ totalStock (ctx w) = totalIn (ctx w) - totalOut (ctx w).
Proof.
  split; [reflexivity|]. split; [reflexivity|].
  apply (totals_balance (Some 7%nat) true 0 [] sampleLedgerEvents 4);
    reflexivity.
Defined.

(** *** Quantities under any store behaviour *)

Lemma nonnegative_filter (f : Product -> bool) (l : list Product) :
  nonnegative l -> nonnegative (filter f l).
Proof.
  unfold nonnegative. rewrite !Forall_forall. intros H p Hp.
  apply filter_In in Hp. apply H, Hp.
Qed.

Lemma deleteProduct_nonnegative (w : World) (productId : Id) :
  nonnegative (db_products (store w)) ->
  nonnegative (products (ctx w)) ->
  let w' := exec (deleteProduct productId) w in
  nonnegative (db_products (store w')) /\ nonnegative (products (ctx w')).
Proof.
  destruct w as [[dbp dbt nid now outs reqs] [u cfg ps ts ats con]].
  intros Hdb Hps. run_delete.
  any_outcome outs; split; try assumption; apply nonnegative_filter; assumption.
Qed.

Lemma handleEvent_nonnegative (w : World) (e : Event) :
  eventValid e = true ->
  nonnegative (db_products (store w)) /\ nonnegative (products (ctx w)) ->
  let w' := exec (handleEvent e) w in
  nonnegative (db_products (store w')) /\ nonnegative (products (ctx w')).
Proof.
  intros Hv [Hdb Hps].
  destruct e as [[productData|productId operation amount date]
                |transactionId|productId];
    unfold handleEvent, perform, handleDelete, handleDeleteProduct; cbv zeta.
  - rewrite exec_bind. simpl in Hv. apply Z.leb_le in Hv.
    apply (createProduct_nonnegative w productData Hv Hdb Hps).
  - rewrite exec_bind. change (exec getCtx w) with w.
    change (eval getCtx w) with (ctx w).
    destruct (find (fun p => Nat.eqb (p_id p) productId) (products (ctx w)))
      as [product|] eqn:Hfind; [|split; assumption].
    rewrite exec_bind. simpl in Hv. apply Z.leb_le in Hv.
    apply (handleConfirmAction_nonnegative w product operation amount date);
      try assumption.
    apply (nonnegative_find _ _ _ Hps Hfind).
  - rewrite !exec_bind.
    pose proof (deleteTransaction_nonnegative w transactionId Hdb Hps) as H1.
    destruct (dr_success (eval (deleteTransaction transactionId) w)); exact H1.
  - rewrite exec_bind. change (exec getCtx w) with w.
    change (eval getCtx w) with (ctx w).
    destruct (find (fun p => Nat.eqb (p_id p) productId) (products (ctx w)))
      as [product|]; [|split; assumption].
    rewrite exec_bind. cbn [negb]. rewrite exec_bind.
    pose proof (deleteProduct_nonnegative w (p_id product) Hdb Hps) as H1.
    destruct (eval (deleteProduct (p_id product)) w); exact H1.
Qed.

(** X8. Quantities never go below zero, whatever the store answers: in
    a session that starts empty, with amounts and initial quantities that
    are not negative and with any script of accepted and refused
    requests, after every prefix of events every quantity in the store
    and in the provider is at least 0. *)
Theorem quantities_never_negative (u : option Id) (cfg : bool) (now : Z)
    (outcomes : list bool) (events : list Event) (n : nat) :
  forallb eventValid events = true ->
  let w := exec (handleEvents (firstn n events)) (newWorld u cfg now outcomes) in
  (forall p, In p (db_products (store w)) -> 0 <= p_quantity p)
  /\ (forall p, In p (products (ctx w)) -> 0 <= p_quantity p).
Proof.
  intros Hv w.
  assert (H : nonnegative (db_products (store w))
              /\ nonnegative (products (ctx w))).
  { subst w. apply (forallb_firstn _ n) in Hv.
    generalize dependent (firstn n events). clear events n.
    intros events Hv.
    assert (H0 : nonnegative (db_products (store (newWorld u cfg now outcomes)))
                 /\ nonnegative (products (ctx (newWorld u cfg now outcomes))))
      by (split; constructor).
    generalize dependent (newWorld u cfg now outcomes).
    induction events as [|e events IH]; intros w0 H0; [exact H0|].
    simpl in Hv. apply andb_true_iff in Hv. destruct Hv as [He Hv].
    cbn [handleEvents]. rewrite exec_bind.
    apply (IH Hv). apply handleEvent_nonnegative; assumption. }
  unfold nonnegative in H. rewrite !Forall_forall in H. exact H.
Qed.

Lemma quantities_never_negative_witness :
  let w := exec (handleEvents (firstn 4 sampleEvents))
                (newWorld (Some 7%nat) true 0
                   [true; true; true; false; true; false; true]) in
  map p_quantity (db_products (store w)) = [10; 4]
  /\ (forall p, In p (db_products (store w)) -> 0 <= p_quantity p)
  /\ (forall p, In p (products (ctx w)) -> 0 <= p_quantity p).
Proof.
  split; [reflexivity|].
  apply (quantities_never_negative (Some 7%nat) true 0
           [true; true; true; false; true; false; true] sampleEvents 4).
  reflexivity.
Defined.

(** ** Taking an adjustment back *)

Lemma removeTransaction_fresh (i : Id) (l : list Transaction) :
  freshId i l = true -> removeTransaction i l = l.
Proof.
  unfold freshId, removeTransaction. induction l as [|t l IH]; simpl; intros H.
  - reflexivity.
  - apply andb_true_iff in H. destruct H as [Ht Hl].
    rewrite Ht, (IH Hl). reflexivity.
Qed.

Lemma removeTransaction_snoc (i : Id) (l : list Transaction) (t : Transaction) :
  freshId i l = true -> t_id t = i -> removeTransaction i (l ++ [t]) = l.
Proof.
  intros Hl Ht. unfold removeTransaction. rewrite filter_app.
  fold (removeTransaction i l). rewrite (removeTransaction_fresh i l Hl).
  simpl. rewrite Ht, Nat.eqb_refl. simpl. apply app_nil_r.
Qed.

Lemma find_setQuantity (l : list Product) (product : Product) (q : Z) :
  find (fun p => Nat.eqb (p_id p) (p_id product)) l = Some product ->
  find (fun p => Nat.eqb (p_id p) (p_id product))
       (map (setQuantity (p_id product) q) l)
  = Some (mkProduct (p_id product) q).
Proof.
  induction l as [|p l IH]; simpl; intros H; [discriminate|].
  assert (Hid : p_id (setQuantity (p_id product) q p) = p_id p)
    by (unfold setQuantity; destruct (Nat.eqb _ _); reflexivity).
  rewrite Hid. destruct (Nat.eqb (p_id p) (p_id product)) eqn:E.
  - unfold setQuantity. rewrite E. apply Nat.eqb_eq in E. rewrite E.
    reflexivity.
  - apply IH, H.
Qed.

(** X9. An adjustment, dated by its date field, followed by the
    deletion of the transaction it recorded is a round trip: with
    quantity and amount not negative, a
    snapshot that is not stale and all four requests accepted, the
    products and the ledger, in the store and in the provider, are
    exactly what they were before the adjustment; this holds for
    additions and for withdrawals, clamped or not. *)
Theorem adjustment_round_trip (w : World) (product : Product)
    (operation : Operation) (adjustAmount customDate : Z) :
  user (ctx w) <> None ->
  find (fun p => Nat.eqb (p_id p) (p_id product)) (products (ctx w))
  = Some product ->
  snapshotAgrees product (db_products (store w)) = true ->
  snapshotAgrees product (products (ctx w)) = true ->
  0 <= p_quantity product ->
  0 <= adjustAmount ->
  freshId (db_next_id (store w)) (db_transactions (store w)) = true ->
  freshId (db_next_id (store w)) (transactions (ctx w)) = true ->
  freshId (db_next_id (store w)) (allTransactions (ctx w)) = true ->
  outcomeAt 0 w = true -> outcomeAt 1 w = true ->
  outcomeAt 2 w = true -> outcomeAt 3 w = true ->
  let w1 :=
    exec (handleConfirmAction false product operation adjustAmount
            (Some customDate)) w in
  let w2 := exec (deleteTransaction (db_next_id (store w))) w1 in
  eval (deleteTransaction (db_next_id (store w))) w1 = mkDeleteResult true None
  /\ db_products (store w2) = db_products (store w)
  /\ db_transactions (store w2) = db_transactions (store w)
  /\ products (ctx w2) = products (ctx w)
  /\ transactions (ctx w2) = transactions (ctx w)
  /\ allTransactions (ctx w2) = allTransactions (ctx w).
Proof.
  destruct w as [[dbp dbt nid now outs reqs] [u cfg ps ts ats con]].
  intros Hu Hfind Hdb Hps Hq Ha Fdb Fts Fats H0 H1 H2 H3. run_op.
  destruct u as [u|]; [|congruence].
  assert (Hback :
            Z.max 0
              (finalStock (p_quantity product) adjustAmount operation
               + match (match operation with add => TxIn | subtract => TxOut end)
                 with
                 | TxIn => - match operation with
                             | add => adjustAmount
                             | subtract => Z.min adjustAmount (p_quantity product)
                             end
                 | TxOut => match operation with
                            | add => adjustAmount
                            | subtract => Z.min adjustAmount (p_quantity product)
                            end
                 end)
            = p_quantity product).
  { destruct operation; unfold finalStock; lia. }
  assert (Hts : filter (fun t => negb (Nat.eqb (t_id t) nid)) ts = ts)
    by (apply (removeTransaction_fresh nid ts Fts)).
  pose proof (find_setQuantity ps product
                (finalStock (p_quantity product) adjustAmount operation) Hfind)
    as Hfound.
  destruct outs as [|b1 [|b2 [|b3 [|b4 outs]]]]; simpl in *;
    try discriminate; subst; simpl;
    rewrite Nat.eqb_refl; simpl; rewrite Hfound; simpl;
    rewrite Hback, Nat.eqb_refl; simpl;
    rewrite !map_setQuantity_restore by assumption;
    rewrite Hts;
    pose proof (removeTransaction_snoc nid dbt
                  (mkTransaction nid (p_id product)
                     (match operation with add => TxIn | subtract => TxOut end)
                     (match operation with
                      | add => adjustAmount
                      | subtract => Z.min adjustAmount (p_quantity product)
                      end) customDate) Fdb eq_refl) as Edb;
    pose proof (removeTransaction_snoc nid ats
                  (mkTransaction nid (p_id product)
                     (match operation with add => TxIn | subtract => TxOut end)
                     (match operation with
                      | add => adjustAmount
                      | subtract => Z.min adjustAmount (p_quantity product)
                      end) customDate) Fats eq_refl) as Eats;
    unfold removeTransaction in Edb, Eats; rewrite Edb, Eats;
    repeat split; reflexivity.
Qed.

Lemma adjustment_round_trip_witness :
  let w1 := exec (handleConfirmAction false sampleProduct subtract 15 (Some 99))
                 (sampleWorld []) in
  let w2 := exec (deleteTransaction 1%nat) w1 in
  quantityOf 0%nat (db_products (store w1)) = Some 0
  /\ db_products (store w2) = [mkProduct 0%nat 10]
  /\ db_transactions (store w2) = [].
Proof.
  split; [reflexivity|].
  pose proof (adjustment_round_trip (sampleWorld []) sampleProduct subtract 15 99)
    as H.
  simpl in H.
  destruct H as (_ & Hp & Ht & _);
    try reflexivity; try discriminate; try lia.
  split; [exact Hp | exact Ht].
Defined.

(** ** Adjust Stock, first write refused *)

(** X10. When the store refuses the quantity write, [handleConfirmAction]
    stops there, whatever the date field holds: it alerts the user,
    sends no other request, records no transaction, and leaves products
    and ledger untouched in the store and in the provider. *)
Theorem adjustment_refused_changes_nothing (w : World) (product : Product)
    (operation : Operation) (adjustAmount : Z) (customDate : option Z) :
  outcomeAt 0 w = false ->
  let run := handleConfirmAction false product operation adjustAmount customDate in
  let w' := exec run w in
  eval run w = Alerted "更新库存失败"
  /\ db_requests (store w')
     = db_requests (store w)
       ++ [UpdateQuantity (p_id product)
             (finalStock (p_quantity product) adjustAmount operation)]
  /\ db_products (store w') = db_products (store w)
  /\ db_transactions (store w') = db_transactions (store w)
  /\ products (ctx w') = products (ctx w)
  /\ transactions (ctx w') = transactions (ctx w)
  /\ allTransactions (ctx w') = allTransactions (ctx w).
Proof.
  destruct w as [[dbp dbt nid now outs reqs] [u cfg ps ts ats con]].
  intros H0. run_op.
  script3 outs; repeat split; reflexivity.
Qed.

Lemma adjustment_refused_changes_nothing_witness :
  let w' := exec (handleConfirmAction false sampleProduct add 5 (Some 99))
                 (sampleWorld [false]) in
  db_products (store w') = [mkProduct 0%nat 10]
  /\ db_requests (store w') = [UpdateQuantity 0%nat 15].
Proof.
  pose proof (adjustment_refused_changes_nothing (sampleWorld [false])
                sampleProduct add 5 (Some 99)) as H.
  simpl in H.
  destruct H as (_ & Hr & Hp & _); [reflexivity|].
  split; [exact Hp | exact Hr].
Defined.

(** ** Delete Transaction and the ledger equation *)

Lemma removeTransaction_absent (i : Id) (l : list Transaction) :
  ~ In i (map t_id l) -> removeTransaction i l = l.
Proof.
  intros H. apply removeTransaction_fresh. unfold freshId.
  apply forallb_forall. intros t Ht. apply negb_true_iff, Nat.eqb_neq.
  intros E. apply H. rewrite <- E. apply in_map, Ht.
Qed.

Lemma ledgerNet_remove (i : Id) (t : Transaction) (l : list Transaction) :
  NoDup (map t_id l) ->
  In t l ->
  ledgerNet i (removeTransaction (t_id t) l)
  = ledgerNet i l
    - (if Nat.eqb (t_product_id t) i then signedAmount t else 0).
Proof.
  induction l as [|x l IH]; intros Hnd Hin; [contradiction|].
  inversion Hnd as [|? ? Hnot Hrest]; subst.
  rewrite ledgerNet_cons. destruct Hin as [->|Hin].
  - unfold removeTransaction. cbn [filter]. rewrite Nat.eqb_refl. cbn [negb].
    fold (removeTransaction (t_id t) l).
    rewrite (removeTransaction_absent _ _ Hnot). lia.
  - assert (Hneq : Nat.eqb (t_id x) (t_id t) = false).
    { apply Nat.eqb_neq. intros E. apply Hnot. rewrite E. apply in_map, Hin. }
    unfold removeTransaction. cbn [filter]. rewrite Hneq. cbn [negb].
    fold (removeTransaction (t_id t) l).
    rewrite ledgerNet_cons, (IH Hrest Hin). lia.
Qed.

(** X11. After a transaction is deleted (no store failure, provider in
    step with the store, ledger equation holding before), the quantity of
    its product is [max 0 net], where [net] is the product's net over the
    remaining ledger, and every other product still equals its net. So
    the ledger equation survives the deletion exactly when the remaining
    net is not negative. *)
Theorem deleteTransaction_clamps_to_ledger (w : World) (transactionId : Id)
    (transaction : Transaction) :
  consistent w ->
  inStep w ->
  user (ctx w) <> None ->
  find (fun t => Nat.eqb (t_id t) transactionId) (transactions (ctx w))
  = Some transaction ->
  let w' := exec (deleteTransaction transactionId) w in
  eval (deleteTransaction transactionId) w = mkDeleteResult true None
  /\ db_transactions (store w')
     = removeTransaction transactionId (db_transactions (store w))
  /\ forall p, In p (db_products (store w')) ->
       p_quantity p
       = if Nat.eqb (p_id p) (t_product_id transaction)
         then Z.max 0 (ledgerNet (p_id p) (db_transactions (store w')))
         else ledgerNet (p_id p) (db_transactions (store w')).
Proof.
  intros Hc Hs Hu Hfind.
  destruct w as [[dbp dbt nid now outs reqs] [u cfg ps ts ats con]].
  destruct Hc as (_ & Hnet & _).
  destruct Hs as ((Hps & Hats & Hts) & (Hndp & Hndt & _ & Htx) & Hnf).
  unfold noFailure in Hnf. simpl in *. subst ps ats ts.
  destruct u as [u|]; [|congruence].
  pose proof (find_some _ _ Hfind) as [Hin Hid].
  apply in_rev in Hin. apply Nat.eqb_eq in Hid.
  destruct (Htx transaction Hin) as [_ Hprod].
  destruct (find (fun p => Nat.eqb (p_id p) (t_product_id transaction)) dbp)
    as [product|] eqn:Hp.
  2:{ exfalso. apply in_map_iff in Hprod. destruct Hprod as (p & Hpid & Hpin).
      apply (find_none _ _ Hp) in Hpin. rewrite Hpid, Nat.eqb_refl in Hpin.
      discriminate. }
  pose proof (find_some _ _ Hp) as [Hpin Hpid]. apply Nat.eqb_eq in Hpid.
  assert (Hrem : forall i,
             ledgerNet i (removeTransaction transactionId dbt)
             = ledgerNet i dbt
               - (if Nat.eqb (t_product_id transaction) i
                  then signedAmount transaction else 0)).
  { intros i. rewrite <- Hid. apply ledgerNet_remove; assumption. }
  assert (Hnew : Z.max 0 (p_quantity product
                          + match t_type transaction with
                            | TxIn => - t_amount transaction
                            | TxOut => t_amount transaction
                            end)
                 = Z.max 0 (ledgerNet (p_id product)
                              (removeTransaction transactionId dbt))).
  { rewrite Hrem, Hpid, Nat.eqb_refl, <- Hpid, <- (Hnet product Hpin).
    unfold signedAmount. destruct (t_type transaction); f_equal; lia. }
  run_op. rewrite Hfind, Hp. simpl. rewrite Hnew.
  fold (removeTransaction transactionId dbt).
  assert (Hall : forall p,
             In p (map (setQuantity (p_id product)
                          (Z.max 0 (ledgerNet (p_id product)
                                      (removeTransaction transactionId dbt))))
                       dbp) ->
             p_quantity p
             = if Nat.eqb (p_id p) (t_product_id transaction)
               then Z.max 0 (ledgerNet (p_id p)
                               (removeTransaction transactionId dbt))
               else ledgerNet (p_id p) (removeTransaction transactionId dbt)).
  { intros p Hpm. apply in_map_setQuantity in Hpm.
    destruct Hpm as (p0 & Hp0 & Hpid0 & Hcase).
    rewrite Hpid0, <- Hpid.
    destruct (Nat.eqb (p_id p0) (p_id product)) eqn:E.
    - apply Nat.eqb_eq in E. rewrite Hcase, E. reflexivity.
    - subst p. rewrite Hrem, <- Hpid, Nat.eqb_sym, E.
      rewrite (Hnet p0 Hp0). lia. }
  next_ok outs Hnf; try next_ok outs Hnf;
    (split; [reflexivity|]); (split; [reflexivity|]); exact Hall.
Qed.

Lemma deleteTransaction_clamps_to_ledger_witness :
  let w' := exec (deleteTransaction 1%nat) sampleSpentWorld in
  db_products (store w') = [mkProduct 0%nat 0]
  /\ ledgerNet 0%nat (db_transactions (store w')) = -10
  /\ forall p, In p (db_products (store w')) ->
       p_quantity p
       = if Nat.eqb (p_id p) 0
         then Z.max 0 (ledgerNet (p_id p) (db_transactions (store w')))
         else ledgerNet (p_id p) (db_transactions (store w')).
Proof.
  split; [reflexivity|]. split; [reflexivity|].
  apply (deleteTransaction_clamps_to_ledger sampleSpentWorld 1%nat
           (mkTransaction 1%nat 0%nat TxIn 10 0)).
  - apply handleEvents_consistent;
      [apply newWorld_consistent; reflexivity | reflexivity].
  - apply handleEvents_inStep, newWorld_inStep. reflexivity.
  - vm_compute. discriminate.
  - reflexivity.
Defined.

(** ** The keypad *)

Lemma isDigit_facts (c : ascii) :
  isDigit c = true ->
  isWhiteSpace c = false
  /\ Ascii.eqb c "-" = false
  /\ Ascii.eqb c "+" = false
  /\ Ascii.eqb c "x" = false
  /\ Ascii.eqb c "X" = false
  /\ digitOf 10 c = Some (digitValue c)
  /\ 0 <= digitValue c <= 9
  /\ (Ascii.eqb c "0" = false -> 1 <= digitValue c).
Proof.
  destruct c as [[] [] [] [] [] [] [] []]; intros H; try discriminate H;
    vm_compute; repeat split; intros; discriminate.
Qed.

Lemma trimStart_digit (c : ascii) (s : string) :
  isDigit c = true -> trimStart (String c s) = String c s.
Proof.
  destruct c as [[] [] [] [] [] [] [] []]; intros H; try discriminate H;
    destruct s as [|c1 [|c2 s]]; reflexivity.
Qed.

Lemma parseDigits_decimal (s : string) (a : Z) :
  digitsOnly s = true ->
  parseDigits 10 s (Some a) = Some (decimalValue a s).
Proof.
  revert a. induction s as [|c s IH]; intros a H; [reflexivity|].
  cbn [digitsOnly] in H. apply andb_true_iff in H. destruct H as [Hc Hs].
  destruct (isDigit_facts c Hc) as (_ & _ & _ & _ & _ & Hd & _).
  cbn [parseDigits decimalValue]. rewrite Hd. apply IH, Hs.
Qed.

(** On a string of digits that is not empty, [parseInt] reads the
    decimal number. *)
Lemma parseInt_decimal (s : string) :
  digitsOnly s = true ->
  s <> EmptyString ->
  parseInt s = Some (decimalValue 0 s).
Proof.
  destruct s as [|c s]; intros H Hne; [congruence|].
  cbn [digitsOnly] in H. apply andb_true_iff in H. destruct H as [Hc Hs].
  destruct (isDigit_facts c Hc) as (_ & Hm & Hp & _ & _ & Hd & _).
  unfold parseInt. rewrite (trimStart_digit c s Hc), Hm, Hp. cbn [fst snd].
  assert (Hradix :
            match String c s with
            | String c0 (String c1 r) =>
              if Ascii.eqb c0 "0" && (Ascii.eqb c1 "x" || Ascii.eqb c1 "X")
              then (16, r)
              else (10, String c s)
            | _ => (10, String c s)
            end = (10, String c s)).
  { destruct s as [|c1 r]; [reflexivity|].
    cbn [digitsOnly] in Hs. apply andb_true_iff in Hs. destruct Hs as [Hc1 _].
    destruct (isDigit_facts c1 Hc1) as (_ & _ & _ & Hx & HX & _).
    rewrite Hx, HX, andb_false_r. reflexivity. }
  rewrite Hradix. cbn [fst snd parseDigits]. rewrite Hd.
  rewrite (parseDigits_decimal s (digitValue c) Hs).
  cbn [option_map decimalValue]. f_equal.
  replace (0 * 10 + digitValue c) with (digitValue c) by lia.
  destruct (decimalValue (digitValue c) s); reflexivity.
Qed.

Lemma length_append (s t : string) :
  String.length (s ++ t) = (String.length s + String.length t)%nat.
Proof. induction s as [|c s IH]; simpl; [reflexivity | rewrite IH; reflexivity]. Qed.

Lemma digitsOnly_append (s t : string) :
  digitsOnly (s ++ t) = digitsOnly s && digitsOnly t.
Proof.
  induction s as [|c s IH]; simpl; [reflexivity|].
  rewrite IH, andb_assoc. reflexivity.
Qed.

Lemma decimalValue_append (s t : string) (a : Z) :
  decimalValue a (s ++ t) = decimalValue (decimalValue a s) t.
Proof. revert a. induction s as [|c s IH]; intros a; simpl; [reflexivity | apply IH]. Qed.

Lemma decimalValue_bounds (s : string) (a : Z) :
  digitsOnly s = true ->
  0 <= a ->
  a * 10 ^ Z.of_nat (String.length s) <= decimalValue a s
  /\ decimalValue a s < (a + 1) * 10 ^ Z.of_nat (String.length s).
Proof.
  revert a. induction s as [|c s IH]; intros a H Ha.
  - simpl. lia.
  - cbn [digitsOnly] in H. apply andb_true_iff in H. destruct H as [Hc Hs].
    destruct (isDigit_facts c Hc) as (_ & _ & _ & _ & _ & _ & Hd & _).
    cbn [decimalValue String.length].
    rewrite Nat2Z.inj_succ, Z.pow_succ_r by lia.
    destruct (IH (a * 10 + digitValue c) Hs) as [Hlo Hhi]; [lia|].
    assert (Hpow : 0 < 10 ^ Z.of_nat (String.length s))
      by (apply Z.pow_pos_nonneg; lia).
    split; nia.
Qed.

Lemma substring_whole_prefix (s t : string) :
  substring 0 (String.length s) (s ++ t) = s.
Proof.
  induction s as [|c s IH]; simpl.
  - destruct t; reflexivity.
  - rewrite IH. reflexivity.
Qed.

Lemma sliceOffLast_snoc (s : string) (c : ascii) :
  sliceOffLast (s ++ String c EmptyString) = s.
Proof.
  unfold sliceOffLast. rewrite length_append. simpl.
  replace (String.length s + 1 - 1)%nat with (String.length s) by lia.
  apply substring_whole_prefix.
Qed.

Lemma string_snoc (s : string) :
  s <> EmptyString ->
  exists s0 c, s = (s0 ++ String c EmptyString)%string.
Proof.
  induction s as [|c s IH]; intros H; [congruence|].
  destruct s as [|c' s'].
  - exists EmptyString, c. reflexivity.
  - destruct IH as (s0 & c0 & E); [discriminate|].
    exists (String c s0), c0. simpl. rewrite <- E. reflexivity.
Qed.

Lemma keyOnPad_digit (num : string) :
  keyOnPad (NumKey num) = true ->
  exists c, num = String c EmptyString /\ isDigit c = true.
Proof.
  unfold keyOnPad, digitKeys. cbn [existsb]. intros H.
  repeat (apply orb_true_iff in H; destruct H as [H|H];
          [apply String.eqb_eq in H; subst num; eexists; split; reflexivity|]).
  discriminate.
Qed.

Lemma amountText_inv (s : string) :
  amountText s = true ->
  digitsOnly s = true
  /\ (1 <= String.length s <= 5)%nat
  /\ s <> EmptyString
  /\ adjustAmountOf s = decimalValue 0 s
  /\ (String.eqb s "0" = true -> decimalValue 0 s = 0)
  /\ (String.eqb s "0" = false ->
      10 ^ (Z.of_nat (String.length s) - 1) <= decimalValue 0 s
      /\ decimalValue 0 s < 10 ^ Z.of_nat (String.length s)).
Proof.
  unfold amountText. intros H.
  apply andb_true_iff in H. destruct H as [H Hlead].
  apply andb_true_iff in H. destruct H as [H Hmax].
  apply andb_true_iff in H. destruct H as [Hd Hmin].
  apply Nat.leb_le in Hmin, Hmax.
  assert (Hne : s <> EmptyString) by (destruct s; [simpl in Hmin; lia | discriminate]).
  split; [exact Hd|]. split; [lia|]. split; [exact Hne|].
  split; [unfold adjustAmountOf, parseIntOr0;
          rewrite (parseInt_decimal s Hd Hne); reflexivity|].
  split.
  - intros E. apply String.eqb_eq in E. subst s. reflexivity.
  - intros E. rewrite E in Hlead. simpl in Hlead.
    destruct s as [|c s']; [discriminate|].
    apply negb_true_iff in Hlead.
    cbn [digitsOnly] in Hd. apply andb_true_iff in Hd. destruct Hd as [Hc Hs].
    destruct (isDigit_facts c Hc) as (_ & _ & _ & _ & _ & _ & Hrange & Hpos).
    specialize (Hpos Hlead).
    cbn [decimalValue String.length].
    replace (Z.of_nat (S (String.length s')) - 1) with (Z.of_nat (String.length s'))
      by lia.
    rewrite Nat2Z.inj_succ, Z.pow_succ_r by lia.
    destruct (decimalValue_bounds s' (0 * 10 + digitValue c) Hs) as [Hlo Hhi];
      [lia|].
    assert (Hpow : 0 < 10 ^ Z.of_nat (String.length s'))
      by (apply Z.pow_pos_nonneg; lia).
    split; nia.
Qed.

Lemma amountText_intro (c : ascii) (s : string) :
  isDigit c = true ->
  Ascii.eqb c "0" = false ->
  digitsOnly s = true ->
  (String.length s <= 4)%nat ->
  amountText (String c s) = true.
Proof.
  intros Hc H0 Hs Hlen. unfold amountText. cbn [digitsOnly String.length].
  rewrite Hc, Hs, H0. simpl.
  rewrite orb_true_r, andb_true_r. apply Nat.leb_le.
  destruct (String.length s) as [|[|[|[|[|n]]]]]; simpl; lia.
Qed.

(** One key: the text stays a text of the pad, and the amount moves as
    [pressAmount] says. *)
Lemma press_arithmetic (k : Key) (inputVal : string) :
  amountText inputVal = true ->
  keyOnPad k = true ->
  amountText (press k inputVal) = true
  /\ adjustAmountOf (press k inputVal) = pressAmount k (adjustAmountOf inputVal).
Proof.
  intros Ht Hk.
  destruct (amountText_inv inputVal Ht) as (Hd & Hlen & Hne & Hval & Hz & Hnz).
  destruct k as [num| |]; cbn [press pressAmount].
  - destruct (keyOnPad_digit num Hk) as (c & -> & Hc).
    destruct (isDigit_facts c Hc) as (_ & _ & _ & _ & _ & _ & Hrange & Hpos).
    assert (Hnum : amountText (String c EmptyString) = true).
    { unfold amountText. cbn [digitsOnly String.length]. rewrite Hc. simpl.
      destruct (Ascii.eqb c "0") eqn:E0.
      - apply Ascii.eqb_eq in E0. subst c. reflexivity.
      - rewrite orb_true_r. reflexivity. }
    destruct (amountText_inv _ Hnum) as (_ & _ & _ & Hnv & _).
    assert (Hpn : parseIntOr0 (String c EmptyString) = digitValue c).
    { unfold adjustAmountOf in Hnv. rewrite Hnv. simpl. lia. }
    unfold handleNumClick. rewrite Hpn, Hval.
    destruct (String.eqb inputVal "0") eqn:E.
    + rewrite (Hz eq_refl). cbn [Z.eqb]. split; [exact Hnum|].
      unfold adjustAmountOf. exact Hpn.
    + destruct (Hnz eq_refl) as [Hlo Hhi].
      assert (Hpos1 : 1 <= decimalValue 0 inputVal).
      { assert (0 < 10 ^ (Z.of_nat (String.length inputVal) - 1))
          by (apply Z.pow_pos_nonneg; lia).
        lia. }
      assert (Ea : (decimalValue 0 inputVal =? 0) = false)
        by (apply Z.eqb_neq; lia).
      rewrite Ea.
      destruct (String.length inputVal <? 5)%nat eqn:E5.
      * apply Nat.ltb_lt in E5.
        assert (Hlt : decimalValue 0 inputVal < 10000).
        { assert (10 ^ Z.of_nat (String.length inputVal) <= 10 ^ 4)
            by (apply Z.pow_le_mono_r; lia).
          lia. }
        apply Z.ltb_lt in Hlt. rewrite Hlt. split.
        -- destruct inputVal as [|c0 s0]; [congruence|].
           cbn [String.append].
           unfold amountText in Ht. rewrite E in Ht.
           cbn [digitsOnly String.length] in Ht, Hd, E5.
           apply andb_true_iff in Hd. destruct Hd as [Hc0 Hs0].
           apply andb_true_iff in Ht. destruct Ht as [_ Hlead].
           simpl in Hlead. apply negb_true_iff in Hlead.
           apply amountText_intro; try assumption.
           ++ rewrite digitsOnly_append, Hs0. simpl. rewrite Hc. reflexivity.
           ++ rewrite length_append. simpl. lia.
        -- unfold adjustAmountOf, parseIntOr0.
           rewrite parseInt_decimal.
           ++ rewrite decimalValue_append. reflexivity.
           ++ rewrite digitsOnly_append, Hd. simpl. rewrite Hc. reflexivity.
           ++ destruct inputVal; discriminate.
      * apply Nat.ltb_ge in E5.
        assert (Hge : 10000 <= decimalValue 0 inputVal).
        { assert (10 ^ 4 <= 10 ^ (Z.of_nat (String.length inputVal) - 1))
            by (apply Z.pow_le_mono_r; lia).
          lia. }
        apply Z.ltb_ge in Hge. rewrite Hge. split; [exact Ht | exact Hval].
  - unfold handleBackspace. rewrite Hval.
    destruct (1 <? String.length inputVal)%nat eqn:E1.
    + apply Nat.ltb_lt in E1.
      destruct (string_snoc inputVal Hne) as (s0 & c & ->).
      rewrite sliceOffLast_snoc.
      rewrite length_append in E1, Hlen. simpl in E1, Hlen.
      rewrite digitsOnly_append in Hd. apply andb_true_iff in Hd.
      destruct Hd as [Hs0 Hc]. cbn [digitsOnly] in Hc.
      rewrite andb_true_r in Hc.
      destruct (isDigit_facts c Hc) as (_ & _ & _ & _ & _ & _ & Hrange & _).
      destruct s0 as [|c0 s1]; [simpl in E1; lia|].
      assert (Hlead : Ascii.eqb c0 "0" = false).
      { unfold amountText in Ht.
        assert (E : String.eqb (String c0 s1 ++ String c EmptyString) "0" = false).
        { cbn [String.append]. apply String.eqb_neq.
          destruct s1; discriminate. }
        rewrite E in Ht. cbn [String.append] in Ht.
        apply andb_true_iff in Ht. destruct Ht as [_ Ht].
        simpl in Ht. apply negb_true_iff in Ht. exact Ht. }
      cbn [digitsOnly] in Hs0. apply andb_true_iff in Hs0.
      destruct Hs0 as [Hc0 Hs1].
      assert (Hs0t : amountText (String c0 s1) = true).
      { apply amountText_intro; try assumption. simpl in Hlen. lia. }
      split; [exact Hs0t|].
      destruct (amountText_inv _ Hs0t) as (_ & _ & _ & Hv0 & _).
      rewrite Hv0, decimalValue_append. cbn [decimalValue].
      apply Z.div_unique with (r := digitValue c); lia.
    + apply Nat.ltb_ge in E1. split; [reflexivity|].
      destruct inputVal as [|c [|c1 s1]]; [congruence| |simpl in E1; lia].
      cbn [digitsOnly] in Hd. rewrite andb_true_r in Hd.
      destruct (isDigit_facts c Hd) as (_ & _ & _ & _ & _ & _ & Hrange & _).
      cbn [decimalValue]. change (adjustAmountOf "0") with 0.
      symmetry. apply Z.div_small. lia.
  - split; reflexivity.
Qed.

Lemma pressAll_amountText (keys : list Key) (inputVal : string) :
  amountText inputVal = true ->
  forallb keyOnPad keys = true ->
  amountText (pressAll keys inputVal) = true
  /\ adjustAmountOf (pressAll keys inputVal)
     = fold_left (fun a k => pressAmount k a) keys (adjustAmountOf inputVal).
Proof.
  revert inputVal. induction keys as [|k keys IH]; intros s Hs Hk.
  - split; [exact Hs | reflexivity].
  - simpl in Hk. apply andb_true_iff in Hk. destruct Hk as [Hk Hks].
    destruct (press_arithmetic k s Hs Hk) as [Hs' Hv].
    unfold pressAll. cbn [fold_left]. fold (pressAll keys (press k s)).
    destruct (IH (press k s) Hs' Hks) as [Ht Ha].
    split; [exact Ht|]. rewrite Ha, Hv. reflexivity.
Qed.

(** X12. The keypad does decimal arithmetic on the amount. Starting
    from the text ["0"], after any sequence of keys of the pad the text
    is ["0"] or one to five digits without a leading zero, and the amount
    read from it is the result of folding the keys over 0 where a digit
    [d] turns 0 into [d], an amount below 10000 into [10 * amount + d]
    and leaves a larger amount alone, backspace divides by ten, and clear
    gives 0. The amount always lies between 0 and 99999. *)
Theorem keypad_arithmetic (keys : list Key) :
  forallb keyOnPad keys = true ->
  let inputVal := pressAll keys "0" in
  amountText inputVal = true
  /\ adjustAmountOf inputVal = fold_left (fun a k => pressAmount k a) keys 0
  /\ 0 <= adjustAmountOf inputVal <= 99999.
Proof.
  intros Hk inputVal.
  destruct (pressAll_amountText keys "0" eq_refl Hk) as [Ht Ha].
  fold inputVal in Ht, Ha. split; [exact Ht|]. split; [exact Ha|].
  destruct (amountText_inv inputVal Ht) as (Hd & Hlen & _ & Hval & _ & _).
  rewrite Hval.
  destruct (decimalValue_bounds inputVal 0 Hd) as [Hlo Hhi]; [lia|].
  assert (Hpow : 10 ^ Z.of_nat (String.length inputVal) <= 10 ^ 5)
    by (apply Z.pow_le_mono_r; lia).
  change (10 ^ 5) with 100000 in Hpow. lia.
Qed.

Lemma keypad_arithmetic_witness :
  let keys := [NumKey "0"; NumKey "4"; NumKey "0"; NumKey "2"; BackspaceKey;
               NumKey "9"; NumKey "9"; NumKey "9"; NumKey "9"]%string in
  pressAll keys "0" = "40999"%string
  /\ adjustAmountOf (pressAll keys "0") = 40999.
Proof.
  split; [reflexivity|].
  destruct (keypad_arithmetic
              [NumKey "0"; NumKey "4"; NumKey "0"; NumKey "2"; BackspaceKey;
               NumKey "9"; NumKey "9"; NumKey "9"; NumKey "9"]%string)
    as (_ & Ha & _); [reflexivity|].
  rewrite Ha. reflexivity.
Defined.

(** X13. An adjustment of nothing cannot be confirmed: after any keys
    of the pad, [handleUpdateClick] opens the confirmation exactly when
    the pad does not show ["0"], and then the amount is between 1 and
    99999. *)
Theorem confirmation_needs_an_amount (keys : list Key) :
  forallb keyOnPad keys = true ->
  let inputVal := pressAll keys "0" in
  handleUpdateClick inputVal false = negb (String.eqb inputVal "0")
  /\ (handleUpdateClick inputVal false = true ->
      1 <= adjustAmountOf inputVal <= 99999).
Proof.
  intros Hk inputVal.
  destruct (pressAll_amountText keys "0" eq_refl Hk) as [Ht _].
  fold inputVal in Ht.
  destruct (amountText_inv inputVal Ht) as (Hd & Hlen & _ & Hval & Hz & Hnz).
  unfold handleUpdateClick. rewrite Hval.
  destruct (String.eqb inputVal "0") eqn:E.
  - rewrite (Hz eq_refl). split; [reflexivity | discriminate].
  - destruct (Hnz eq_refl) as [Hlo Hhi].
    assert (Hone : 0 < 10 ^ (Z.of_nat (String.length inputVal) - 1))
      by (apply Z.pow_pos_nonneg; lia).
    assert (Hpow : 10 ^ Z.of_nat (String.length inputVal) <= 10 ^ 5)
      by (apply Z.pow_le_mono_r; lia).
    change (10 ^ 5) with 100000 in Hpow.
    assert (Ea : (decimalValue 0 inputVal =? 0) = false)
      by (apply Z.eqb_neq; lia).
    rewrite Ea. split; [reflexivity | intros _; lia].
Qed.

Lemma confirmation_needs_an_amount_witness :
  handleUpdateClick (pressAll [NumKey "7"; BackspaceKey] "0") false = false
  /\ handleUpdateClick (pressAll [NumKey "0"; NumKey "7"] "0") false = true.
Proof.
  destruct (confirmation_needs_an_amount [NumKey "7"; BackspaceKey]%string)
    as [H1 _]; [reflexivity|].
  destruct (confirmation_needs_an_amount [NumKey "0"; NumKey "7"]%string)
    as [H2 _]; [reflexivity|].
  split; [rewrite H1 | rewrite H2]; reflexivity.
Defined.

(** ** The add-product form *)

Lemma digit_char (d : Z) :
  0 <= d <= 9 ->
  isDigit (ascii_of_nat (Z.to_nat (48 + d))) = true
  /\ digitValue (ascii_of_nat (Z.to_nat (48 + d))) = d.
Proof.
  intros H.
  assert (E : d = 0 \/ d = 1 \/ d = 2 \/ d = 3 \/ d = 4 \/ d = 5 \/ d = 6
              \/ d = 7 \/ d = 8 \/ d = 9) by lia.
  repeat (destruct E as [->|E]; [split; reflexivity|]).
  subst d. split; reflexivity.
Qed.

Lemma digitsBefore_spec (fuel : nat) (n : Z) (acc : string) :
  0 <= n < 10 * 2 ^ Z.of_nat fuel ->
  digitsOnly acc = true ->
  digitsOnly (digitsBefore fuel n acc) = true
  /\ digitsBefore fuel n acc <> EmptyString
  /\ decimalValue 0 (digitsBefore fuel n acc) = decimalValue n acc.
Proof.
  revert n acc. induction fuel as [|fuel IH]; intros n acc Hn Hacc.
  - change (2 ^ Z.of_nat 0) with 1 in Hn.
    assert (Hmod : n mod 10 = n) by (apply Z.mod_small; lia).
    cbn [digitsBefore]. rewrite Hmod.
    destruct (digit_char n) as [Hd Hv]; [lia|].
    cbn [digitsOnly decimalValue]. rewrite Hd, Hv, Hacc.
    split; [reflexivity|]. split; [discriminate|].
    f_equal.
  - cbn [digitsBefore].
    assert (Hrange : 0 <= n mod 10 <= 9)
      by (pose proof (Z.mod_pos_bound n 10); lia).
    destruct (digit_char (n mod 10) Hrange) as [Hd Hv].
    destruct (n <? 10) eqn:E.
    + apply Z.ltb_lt in E.
      assert (Hmod : n mod 10 = n) by (apply Z.mod_small; lia).
      cbn [digitsOnly decimalValue]. rewrite Hd, Hv, Hacc, Hmod.
      split; [reflexivity|]. split; [discriminate|]. f_equal.
    + apply Z.ltb_ge in E.
      destruct (IH (n / 10)
                  (String (ascii_of_nat (Z.to_nat (48 + n mod 10))) acc))
        as (H1 & H2 & H3).
      * rewrite Nat2Z.inj_succ, Z.pow_succ_r in Hn by lia.
        assert (0 < 2 ^ Z.of_nat fuel) by (apply Z.pow_pos_nonneg; lia).
        split; [apply Z.div_pos; lia|].
        apply Z.div_lt_upper_bound; lia.
      * cbn [digitsOnly]. rewrite Hd, Hacc. reflexivity.
      * split; [exact H1|]. split; [exact H2|].
        rewrite H3. cbn [decimalValue]. rewrite Hv. f_equal.
        pose proof (Z.div_mod n 10). lia.
Qed.

(** [parseInt(String(n))] is [n]: the text of a number that is not
    negative is made of its decimal digits. *)
Lemma numberToString_spec (n : Z) :
  0 <= n ->
  digitsOnly (numberToString n) = true
  /\ numberToString n <> EmptyString
  /\ decimalValue 0 (numberToString n) = n.
Proof.
  intros Hn. unfold numberToString.
  assert (E : (n <? 0) = false) by (apply Z.ltb_ge; exact Hn). rewrite E.
  apply (digitsBefore_spec _ n EmptyString); [|reflexivity].
  split; [exact Hn|]. rewrite Z2Nat.id by apply Z.log2_nonneg.
  destruct (Z.eq_dec n 0) as [->|Hpos]; [reflexivity|].
  pose proof (Z.log2_spec n) as Hlog.
  assert (0 < 2 ^ Z.log2 n) by (apply Z.pow_pos_nonneg; [lia | apply Z.log2_nonneg]).
  rewrite Z.pow_succ_r in Hlog by apply Z.log2_nonneg. lia.
Qed.

Lemma parseIntOr0_digits (s : string) :
  digitsOnly s = true -> parseIntOr0 s = decimalValue 0 s.
Proof.
  intros H. unfold parseIntOr0. destruct s as [|c s']; [reflexivity|].
  rewrite parseInt_decimal; [reflexivity | exact H | discriminate].
Qed.

Lemma decimalValue_nonneg (s : string) :
  digitsOnly s = true ->
  0 <= decimalValue 0 s < 10 ^ Z.of_nat (String.length s).
Proof.
  intros H. destruct (decimalValue_bounds s 0 H) as [Hlo Hhi]; lia.
Qed.

Lemma formStep_counts (e : FormEvent) (quantity : string) :
  digitsOnly quantity = true ->
  typedShort e = true ->
  digitsOnly (formStep e quantity) = true
  /\ parseIntOr0 (formStep e quantity) = formCount e (parseIntOr0 quantity)
  /\ parseIntOr0 (formStep e quantity)
     <= Z.max (parseIntOr0 quantity) (10 ^ 15 - 1) + 1.
Proof.
  intros Hq He.
  pose proof (decimalValue_nonneg quantity Hq) as [Hv0 _].
  rewrite <- (parseIntOr0_digits quantity Hq) in Hv0.
  destruct e as [| |val|]; cbn [formStep formCount].
  - unfold handleIncrement.
    destruct (numberToString_spec (parseIntOr0 quantity + 1)) as (H1 & _ & H3);
      [lia|].
    rewrite (parseIntOr0_digits _ H1), H3. split; [exact H1|]. split; lia.
  - unfold handleDecrement.
    destruct (0 <? parseIntOr0 quantity) eqn:E;
      [apply Z.ltb_lt in E | apply Z.ltb_ge in E].
    + destruct (numberToString_spec (parseIntOr0 quantity - 1)) as (H1 & _ & H3);
        [lia|].
      rewrite (parseIntOr0_digits _ H1), H3. split; [exact H1|]. split; lia.
    + destruct (numberToString_spec 0) as (H1 & _ & H3); [lia|].
      rewrite (parseIntOr0_digits _ H1), H3. split; [exact H1|]. split; lia.
  - unfold handleChange. destruct (digitsOnly val) eqn:E.
    + split; [exact E|]. rewrite (parseIntOr0_digits val E).
      split; [reflexivity|].
      pose proof (decimalValue_nonneg val E) as [_ Hhi].
      simpl in He. apply Nat.leb_le in He.
      assert (10 ^ Z.of_nat (String.length val) <= 10 ^ 15)
        by (apply Z.pow_le_mono_r; lia).
      lia.
    + split; [exact Hq|]. split; [reflexivity | lia].
  - unfold handleBlur. destruct (String.eqb quantity "") eqn:E.
    + apply String.eqb_eq in E. subst quantity.
      split; [reflexivity|]. split; [reflexivity|].
      change (parseIntOr0 "0") with 0. change (parseIntOr0 "") with 0. lia.
    + split; [exact Hq|]. split; [reflexivity | lia].
Qed.

Lemma formRun_counts (events : list FormEvent) (quantity : string) :
  digitsOnly quantity = true ->
  forallb typedShort events = true ->
  digitsOnly (formRun events quantity) = true
  /\ parseIntOr0 (formRun events quantity)
     = fold_left (fun c e => formCount e c) events (parseIntOr0 quantity)
  /\ parseIntOr0 (formRun events quantity)
     <= Z.max (parseIntOr0 quantity) (10 ^ 15 - 1)
        + Z.of_nat (List.length events).
Proof.
  revert quantity. induction events as [|e events IH]; intros q Hq He.
  - split; [exact Hq|]. split; [reflexivity | simpl; lia].
  - simpl in He. apply andb_true_iff in He. destruct He as [He Hes].
    destruct (formStep_counts e q Hq He) as (H1 & H2 & H3).
    destruct (IH (formStep e q) H1 Hes) as (I1 & I2 & I3).
    unfold formRun in *. cbn [fold_left List.length].
    split; [exact I1|]. split; [rewrite I2, H2; reflexivity|].
    rewrite Nat2Z.inj_succ. lia.
Qed.

(** X14. The quantity field is a counter. Starting from ["0"], after
    any sequence of at most 10^15 events (the plus and minus buttons,
    typed texts of at most fifteen characters, leaving the field), the
    field holds digits only and the quantity that will be submitted is
    the result of folding the events over 0: plus adds one, minus takes
    one away but stops at 0, an accepted text sets its decimal value (0
    for the empty text), a text with any other character is ignored.
    That quantity is never negative, stays within the integers a double
    holds exactly, and is a valid initial quantity for [createProduct]. *)
Theorem form_counts (events : list FormEvent) :
  forallb typedShort events = true ->
  Z.of_nat (List.length events) <= 10 ^ 15 ->
  let quantity := formRun events "0" in
  digitsOnly quantity = true
  /\ parseIntOr0 quantity = fold_left (fun c e => formCount e c) events 0
  /\ 0 <= parseIntOr0 quantity <= MAX_SAFE_INTEGER
  /\ actionValid (CreateProduct (submittedData quantity)) = true.
Proof.
  intros He Hlen quantity.
  destruct (formRun_counts events "0" eq_refl He) as (H1 & H2 & H3).
  fold quantity in H1, H2, H3.
  pose proof (decimalValue_nonneg quantity H1) as [Hv0 _].
  rewrite <- (parseIntOr0_digits quantity H1) in Hv0.
  split; [exact H1|]. split; [exact H2|].
  assert (Hmax : parseIntOr0 quantity <= MAX_SAFE_INTEGER).
  { change (parseIntOr0 "0") with 0 in H3.
    change MAX_SAFE_INTEGER with 9007199254740991.
    change (10 ^ 15) with 1000000000000000 in *. lia. }
  split; [lia|].
  cbn [actionValid submittedData pi_quantity or_default].
  destruct (parseIntOr0 quantity =? 0); apply Z.leb_le; lia.
Qed.

Lemma form_counts_witness :
  let events := [Change "12"; Increment; Change "1a"; Decrement; Decrement;
                 Change ""; Blur; Decrement; Increment]%string in
  formRun events "0" = "1"%string
  /\ parseIntOr0 (formRun events "0") = 1.
Proof.
  split; [reflexivity|].
  destruct (form_counts
              [Change "12"; Increment; Change "1a"; Decrement; Decrement;
               Change ""; Blur; Decrement; Increment]%string)
    as (_ & H & _); [reflexivity | simpl; lia |].
  rewrite H. reflexivity.
Defined.

Lemma eval_bind {A B} (m : M A) (k : A -> M B) (w : World) :
  eval (bind m k) w = eval (k (eval m w)) (exec m w).
Proof. unfold exec, eval, bind. destruct (m w). reflexivity. Qed.

Lemma createProduct_returns (w : World) (productData : ProductInsert) :
  user (ctx w) <> None ->
  configured (ctx w) = true ->
  outcomeAt 0 w = true ->
  eval (createProduct productData) w
  = mkCreateResult
      (Some (mkProduct (db_next_id (store w))
               (or_default (pi_quantity productData) 0)))
      None.
Proof.
  destruct w as [[dbp dbt nid now outs reqs] [u cfg ps ts ats con]].
  intros Hu Hcfg H0. run_op. subst cfg.
  destruct u as [u|]; [|congruence]. simpl.
  destruct (0 <? or_default (pi_quantity productData) 0);
    destruct outs as [|b1 [|b2 outs]]; simpl in *; subst;
    try reflexivity; destruct b2; reflexivity.
Qed.

Lemma noFailure_outcomeAt (w : World) (n : nat) :
  noFailure w = true -> outcomeAt n w = true.
Proof.
  unfold noFailure, outcomeAt. generalize (db_outcomes (store w)).
  induction n as [|n IH]; intros [|b outs] H; simpl in *; try reflexivity.
  - apply andb_true_iff in H. apply H.
  - apply andb_true_iff in H. apply IH, H.
Qed.

(** X15. Submitting the form. With a name that is blank (empty or
    white space only) [handleSubmit] alerts and touches nothing. With any
    other name, in a session without store failures where the ledger
    equation holds, it creates one product whose quantity is the count of
    the form, shows no alert, and the ledger equation still holds for
    every product. *)
Theorem form_submission (w : World) (name : string) (events : list FormEvent) :
  consistent w ->
  user (ctx w) <> None ->
  configured (ctx w) = true ->
  forallb typedShort events = true ->
  Z.of_nat (List.length events) <= 10 ^ 15 ->
  let quantity := formRun events "0" in
  let w' := exec (handleSubmit name quantity) w in
  (isBlank name = true ->
   w' = w /\ eval (handleSubmit name quantity) w = Some "请输入产品名称")
  /\ (isBlank name = false ->
      eval (handleSubmit name quantity) w = None
      /\ db_products (store w')
         = db_products (store w)
           ++ [mkProduct (db_next_id (store w))
                 (fold_left (fun c e => formCount e c) events 0)]
      /\ forall p, In p (db_products (store w')) ->
           p_quantity p = ledgerNet (p_id p) (db_transactions (store w'))).
Proof.
  intros Hc Hu Hcfg He _ quantity w'.
  destruct (formRun_counts events "0" eq_refl He) as (H1 & H2 & _).
  fold quantity in H1, H2.
  pose proof (decimalValue_nonneg quantity H1) as [Hv0 _].
  rewrite <- (parseIntOr0_digits quantity H1) in Hv0.
  change (parseIntOr0 "0") with 0 in H2.
  split; intros Hb; subst w'; unfold handleSubmit; rewrite Hb.
  - split; reflexivity.
  - assert (Hor : or_default (pi_quantity (submittedData quantity)) 0
                  = parseIntOr0 quantity).
    { cbn [submittedData pi_quantity or_default].
      destruct (parseIntOr0 quantity =? 0) eqn:E; [|reflexivity].
      apply Z.eqb_eq in E. lia. }
    assert (Hvalid : 0 <= or_default (pi_quantity (submittedData quantity)) 0)
      by (rewrite Hor; exact Hv0).
    pose proof (createProduct_consistent w (submittedData quantity) Hc Hvalid)
      as Hc'.
    assert (Hnf : noFailure w = true) by apply Hc.
    pose proof (createProduct_seeds_ledger w (submittedData quantity)
                  Hu Hcfg (noFailure_outcomeAt w 0 Hnf)
                  (noFailure_outcomeAt w 1 Hnf)) as [Hprod _].
    cbv zeta in Hprod. rewrite Hor, H2 in Hprod.
    pose proof (createProduct_returns w (submittedData quantity)
                  Hu Hcfg (noFailure_outcomeAt w 0 Hnf)) as Hret.
    rewrite eval_bind, exec_bind, Hret. cbn [cr_data].
    split; [reflexivity|]. split; [exact Hprod | apply Hc'].
Qed.

Lemma form_submission_witness :
  let quantity := formRun [Change "12"; Increment] "0" in
  let w := newWorld (Some 7%nat) true 0 [] in
  exec (handleSubmit "   " quantity) w = w
  /\ db_products (store (exec (handleSubmit "Shampoo" quantity) w))
     = [mkProduct 0%nat 13].
Proof.
  pose proof (form_submission (newWorld (Some 7%nat) true 0 []) "   "
                [Change "12"; Increment]%string) as H1.
  pose proof (form_submission (newWorld (Some 7%nat) true 0 []) "Shampoo"
                [Change "12"; Increment]%string) as H2.
  destruct H1 as [H1 _];
    [apply newWorld_consistent; reflexivity | discriminate | reflexivity
     | reflexivity | cbn [List.length]; lia |].
  destruct H2 as [_ H2];
    [apply newWorld_consistent; reflexivity | discriminate | reflexivity
     | reflexivity | cbn [List.length]; lia |].
  destruct (H1 eq_refl) as [Hw _].
  destruct (H2 eq_refl) as (_ & Hp & _).
  split; [exact Hw | exact Hp].
Defined.

(** ** The dashboard *)

Lemma monthTotals_loop (thisMonthStart lastMonthStart : Z)
    (l : list Transaction) (acc : MonthTotals) :
  fold_left (monthTotalsStep thisMonthStart lastMonthStart) l acc
  = mkMonthTotals
      (mt_thisMonthIn acc + flowBetween TxIn thisMonthStart None l)
      (mt_lastMonthIn acc
       + flowBetween TxIn lastMonthStart (Some thisMonthStart) l)
      (mt_thisMonthOut acc + flowBetween TxOut thisMonthStart None l)
      (mt_lastMonthOut acc
       + flowBetween TxOut lastMonthStart (Some thisMonthStart) l).
Proof.
  revert acc. induction l as [|t l IH]; intros [a b c d].
  - unfold flowBetween. cbn. f_equal; lia.
  - cbn [fold_left]. rewrite IH. unfold flowBetween, monthTotalsStep.
    cbn [filter]. cbn [mt_thisMonthIn mt_lastMonthIn mt_thisMonthOut mt_lastMonthOut].
    destruct (thisMonthStart <=? t_created_at t) eqn:E1;
      destruct (lastMonthStart <=? t_created_at t) eqn:E2;
      destruct (t_created_at t <? thisMonthStart) eqn:E3;
      destruct (t_type t);
      cbn [TxType_eqb andb map fold_right
           mt_thisMonthIn mt_lastMonthIn mt_thisMonthOut mt_lastMonthOut];
      try (f_equal; lia);
      apply Z.leb_le in E1 || apply Z.leb_gt in E1;
      apply Z.ltb_lt in E3 || apply Z.ltb_ge in E3; lia.
Qed.

Lemma flow_split (ty : TxType) (a b : Z) (l : list Transaction) :
  a <= b ->
  flowBetween ty a None l
  = flowBetween ty a (Some b) l + flowBetween ty b None l.
Proof.
  intros Hab. unfold flowBetween.
  induction l as [|t l IH]; [reflexivity|].
  cbn [filter].
  destruct (TxType_eqb (t_type t) ty);
    destruct (a <=? t_created_at t) eqn:E1;
    destruct (b <=? t_created_at t) eqn:E2;
    destruct (t_created_at t <? b) eqn:E3;
    cbn [andb map fold_right]; try lia;
    apply Z.leb_le in E1 || apply Z.leb_gt in E1;
    apply Z.leb_le in E2 || apply Z.leb_gt in E2;
    apply Z.ltb_lt in E3 || apply Z.ltb_ge in E3; lia.
Qed.

(** X16. The four totals of the dashboard are sums over two windows
    that do not overlap: this month's totals add up the amounts dated
    from [thisMonthStart] on, last month's the amounts dated from
    [lastMonthStart] up to [thisMonthStart]; together they are the
    amounts dated from [lastMonthStart] on, each counted once. *)
Theorem month_totals_are_window_sums (thisMonthStart lastMonthStart : Z)
    (transactions : list Transaction) :
  lastMonthStart <= thisMonthStart ->
  let m := monthTotals thisMonthStart lastMonthStart transactions in
  mt_thisMonthIn m = flowBetween TxIn thisMonthStart None transactions
  /\ mt_thisMonthOut m = flowBetween TxOut thisMonthStart None transactions
  /\ mt_lastMonthIn m
     = flowBetween TxIn lastMonthStart (Some thisMonthStart) transactions
  /\ mt_lastMonthOut m
     = flowBetween TxOut lastMonthStart (Some thisMonthStart) transactions
  /\ mt_thisMonthIn m + mt_lastMonthIn m
     = flowBetween TxIn lastMonthStart None transactions
  /\ mt_thisMonthOut m + mt_lastMonthOut m
     = flowBetween TxOut lastMonthStart None transactions.
Proof.
  intros Hle m. subst m. unfold monthTotals. rewrite monthTotals_loop.
  cbn [mt_thisMonthIn mt_lastMonthIn mt_thisMonthOut mt_lastMonthOut].
  rewrite (flow_split TxIn lastMonthStart thisMonthStart transactions Hle).
  rewrite (flow_split TxOut lastMonthStart thisMonthStart transactions Hle).
  split; [lia|]. split; [lia|]. split; [lia|]. split; [lia|].
  split; lia.
Qed.

Lemma month_totals_are_window_sums_witness :
  let m := monthTotals 100 40
             [mkTransaction 1%nat 0%nat TxIn 10 20;
              mkTransaction 2%nat 0%nat TxOut 4 50;
              mkTransaction 3%nat 0%nat TxOut 3 100;
              mkTransaction 4%nat 0%nat TxIn 5 120] in
  m = mkMonthTotals 5 0 3 4
  /\ mt_thisMonthOut m + mt_lastMonthOut m
     = flowBetween TxOut 40 None
         [mkTransaction 1%nat 0%nat TxIn 10 20;
          mkTransaction 2%nat 0%nat TxOut 4 50;
          mkTransaction 3%nat 0%nat TxOut 3 100;
          mkTransaction 4%nat 0%nat TxIn 5 120].
Proof.
  split; [reflexivity|].
  apply (month_totals_are_window_sums 100 40
           [mkTransaction 1%nat 0%nat TxIn 10 20;
            mkTransaction 2%nat 0%nat TxOut 4 50;
            mkTransaction 3%nat 0%nat TxOut 3 100;
            mkTransaction 4%nat 0%nat TxIn 5 120]).
  lia.
Defined.

Lemma filter_filter {A} (f g : A -> bool) (l : list A) :
  filter f (filter g l) = filter (fun x => f x && g x) l.
Proof.
  induction l as [|x l IH]; [reflexivity|].
  cbn [filter]. destruct (g x); cbn [filter]; rewrite IH, ?andb_true_r, ?andb_false_r;
    reflexivity.
Qed.

Lemma flowBetween_since (ty : TxType) (monthStart : Z) (l : list Transaction) :
  flowBetween ty monthStart None l
  = fold_right Z.add 0
      (map t_amount
         (filter (fun t => TxType_eqb (t_type t) ty)
                 (filter (fun t => monthStart <=? t_created_at t) l))).
Proof.
  unfold flowBetween. rewrite filter_filter. do 2 f_equal.
  apply filter_ext. intros t. rewrite andb_true_r. reflexivity.
Qed.

Lemma openingStock_changes (ps : list Product) (l : list Transaction)
    (monthStart : Z) :
  map os_change (openingStockData ps l monthStart)
  = map (fun p => ledgerNet (p_id p)
                    (filter (fun t => monthStart <=? t_created_at t) l)) ps.
Proof.
  unfold openingStockData. rewrite map_map. apply map_ext. intros p.
  cbn [os_change]. rewrite stockChange_loop. reflexivity.
Qed.

(** X17. The log page and the dashboard agree: in a session that
    starts empty and meets no store failure, after every prefix of
    events and for every month start, the changes that
    [openingStockData] shows for the products add up to what the
    dashboard counts for the month, [thisMonthIn - thisMonthOut]. *)
Theorem opening_stock_changes_add_up (u : option Id) (cfg : bool) (now : Z)
    (outcomes : list bool) (events : list Event) (n : nat)
    (monthStart lastMonthStart : Z) :
  forallb (fun b => b) outcomes = true ->
  let w := exec (handleEvents (firstn n events)) (newWorld u cfg now outcomes) in
  let m := monthTotals monthStart lastMonthStart (transactions (ctx w)) in
  fold_right Z.add 0
    (map os_change
       (openingStockData (products (ctx w)) (transactions (ctx w)) monthStart))
  = mt_thisMonthIn m - mt_thisMonthOut m.
Proof.
  intros Hout w m.
  assert (Hstep : inStep w)
    by (apply handleEvents_inStep, newWorld_inStep; exact Hout).
  destruct Hstep as ((Hp & _ & Ht) & (Hnd & _ & _ & Hin) & _).
  subst m. unfold monthTotals. rewrite monthTotals_loop.
  cbn [mt_thisMonthIn mt_thisMonthOut].
  rewrite openingStock_changes, sum_ledgerNet.
  - rewrite sum_signed_split, !flowBetween_since. lia.
  - rewrite Hp. exact Hnd.
  - intros t Hf. apply filter_In in Hf. destruct Hf as [Hf _].
    rewrite Ht in Hf. apply in_rev in Hf. rewrite Hp. apply (Hin t Hf).
Qed.

Lemma opening_stock_changes_add_up_witness :
  let w := exec (handleEvents (firstn 5 sampleEvents))
             (newWorld (Some 7%nat) true 0 []) in
  let m := monthTotals 0 (-5) (transactions (ctx w)) in
  fold_right Z.add 0
    (map os_change
       (openingStockData (products (ctx w)) (transactions (ctx w)) 0))
  = mt_thisMonthIn m - mt_thisMonthOut m.
Proof.
  exact (opening_stock_changes_add_up (Some 7%nat) true 0 [] sampleEvents
           5 0 (-5) eq_refl).
Defined.

(** [parseInt] stops at the percent sign. *)
Lemma parseDigits_percent (s : string) (a : Z) :
  digitsOnly s = true ->
  parseDigits 10 (s ++ "%")%string (Some a) = Some (decimalValue a s).
Proof.
  revert a. induction s as [|c s IH]; intros a H; [reflexivity|].
  cbn [digitsOnly] in H. apply andb_true_iff in H. destruct H as [Hc Hs].
  destruct (isDigit_facts c Hc) as (_ & _ & _ & _ & _ & Hd & _).
  cbn [append parseDigits decimalValue]. rewrite Hd. apply IH, Hs.
Qed.

Lemma parseDigits_percent_start (s : string) :
  digitsOnly s = true ->
  s <> EmptyString ->
  (match (s ++ "%")%string with
   | String c0 (String c1 r) =>
     if Ascii.eqb c0 "0" && (Ascii.eqb c1 "x" || Ascii.eqb c1 "X")
     then (16, r)
     else (10, (s ++ "%")%string)
   | _ => (10, (s ++ "%")%string)
   end) = (10, (s ++ "%")%string)
  /\ parseDigits 10 (s ++ "%")%string None = Some (decimalValue 0 s).
Proof.
  destruct s as [|c s]; intros H Hne; [congruence|].
  cbn [digitsOnly] in H. apply andb_true_iff in H. destruct H as [Hc Hs].
  destruct (isDigit_facts c Hc) as (_ & _ & _ & _ & _ & Hd & _).
  split.
  - cbn [append]. destruct s as [|c1 r].
    + cbn [append]. rewrite andb_false_r. reflexivity.
    + cbn [append]. cbn [digitsOnly] in Hs. apply andb_true_iff in Hs.
      destruct Hs as [Hc1 _].
      destruct (isDigit_facts c1 Hc1) as (_ & _ & _ & Hx & HX & _).
      rewrite Hx, HX, andb_false_r. reflexivity.
  - cbn [append parseDigits]. rewrite Hd.
    rewrite (parseDigits_percent s (digitValue c) Hs).
    cbn [decimalValue]. rewrite Z.mul_0_l, Z.add_0_l. reflexivity.
Qed.

Lemma trimStart_sign (r : string) :
  trimStart (String "+" r) = String "+" r
  /\ trimStart (String "-" r) = String "-" r.
Proof. destruct r as [|c1 [|c2 r]]; split; reflexivity. Qed.

Lemma parseInt_cons (c : ascii) (r : string) :
  trimStart (String c r) = String c r ->
  parseInt (String c r)
  = let signed :=
      if Ascii.eqb c "-" then (-1, r)
      else if Ascii.eqb c "+" then (1, r)
      else (1, String c r) in
    let radixed :=
      match snd signed with
      | String c0 (String c1 r') =>
        if Ascii.eqb c0 "0" && (Ascii.eqb c1 "x" || Ascii.eqb c1 "X")
        then (16, r')
        else (10, snd signed)
      | _ => (10, snd signed)
      end in
    option_map (Z.mul (fst signed))
      (parseDigits (fst radixed) (snd radixed) None).
Proof. intros H. unfold parseInt. rewrite H. reflexivity. Qed.

Lemma parseInt_percent (s : string) :
  digitsOnly s = true ->
  s <> EmptyString ->
  parseInt (s ++ "%")%string = Some (decimalValue 0 s)
  /\ parseInt ("+" ++ s ++ "%")%string = Some (decimalValue 0 s)
  /\ parseInt ("-" ++ s ++ "%")%string = Some (- decimalValue 0 s).
Proof.
  intros H Hne.
  destruct (parseDigits_percent_start s H Hne) as [Hradix Hdigits].
  split; [|split].
  - destruct s as [|c s]; [congruence|].
    cbn [digitsOnly] in H. apply andb_true_iff in H. destruct H as [Hc Hs].
    destruct (isDigit_facts c Hc) as (_ & Hm & Hp & _).
    change (String c s ++ "%")%string with (String c (s ++ "%")%string).
    rewrite parseInt_cons by apply (trimStart_digit c _ Hc).
    rewrite Hm, Hp. cbn [fst snd].
    match goal with
    | |- context [parseDigits (fst ?m) _ _] =>
      assert (Hr : m = (10, String c (s ++ "%")%string))
    end.
    { destruct s as [|c1 r]; cbn [append].
      - destruct (Ascii.eqb c "0"); reflexivity.
      - cbn [digitsOnly] in Hs. apply andb_true_iff in Hs.
        destruct Hs as [Hc1 _].
        destruct (isDigit_facts c1 Hc1) as (_ & _ & _ & Hx & HX & _).
        rewrite Hx, HX, andb_false_r. reflexivity. }
    rewrite Hr. cbn [fst snd].
    change (String c (s ++ "%")%string) with (String c s ++ "%")%string.
    rewrite Hdigits. cbn [option_map]. apply f_equal. lia.
  - change ("+" ++ s ++ "%")%string with (String "+" (s ++ "%")%string).
    rewrite parseInt_cons by apply trimStart_sign.
    cbn [Ascii.eqb Bool.eqb fst snd].
    match goal with
    | |- context [parseDigits (fst ?m) _ _] =>
      assert (Hr : m = (10, (s ++ "%")%string)) by exact Hradix
    end.
    rewrite Hr. cbn [fst snd]. rewrite Hdigits.
    cbn [option_map]. apply f_equal. lia.
  - change ("-" ++ s ++ "%")%string with (String "-" (s ++ "%")%string).
    rewrite parseInt_cons by apply trimStart_sign.
    cbn [Ascii.eqb Bool.eqb fst snd].
    match goal with
    | |- context [parseDigits (fst ?m) _ _] =>
      assert (Hr : m = (10, (s ++ "%")%string)) by exact Hradix
    end.
    rewrite Hr. cbn [fst snd]. rewrite Hdigits.
    cbn [option_map]. apply f_equal. lia.
Qed.

Lemma numberToString_negative (n : Z) :
  n < 0 -> numberToString n = String "-" (numberToString (- n)).
Proof.
  intros H. unfold numberToString.
  assert (E1 : (n <? 0) = true) by (apply Z.ltb_lt; exact H).
  assert (E2 : (- n <? 0) = false) by (apply Z.ltb_ge; lia).
  rewrite E1, E2. reflexivity.
Qed.

Lemma digits_no_sign (s : string) :
  digitsOnly s = true ->
  String.prefix "+" (s ++ "%")%string = false /\ String.prefix "-" (s ++ "%")%string = false.
Proof.
  destruct s as [|c s]; intros H; [split; reflexivity|].
  cbn [digitsOnly] in H. apply andb_true_iff in H. destruct H as [Hc _].
  destruct (isDigit_facts c Hc) as (_ & Hm & Hp & _).
  cbn [append String.prefix].
  split.
  - destruct (ascii_dec "+" c) as [<-|]; [discriminate Hp | reflexivity].
  - destruct (ascii_dec "-" c) as [<-|]; [discriminate Hm | reflexivity].
Qed.

Lemma prefix_head (c c' : ascii) (s : string) :
  String.prefix (String c EmptyString) (String c' s) = Ascii.eqb c c'.
Proof.
  cbn [String.prefix]. destruct (ascii_dec c c') as [<-|Hne].
  - rewrite Ascii.eqb_refl. destruct s; reflexivity.
  - symmetry. apply Ascii.eqb_neq, Hne.
Qed.

(** X18. What the dashboard prints next to a total. With a total last
    month that is not 0, [calcTrend] rounds the percentage, computed in
    doubles, to an integral number. When that number is an integer [n]
    below 2^53 in magnitude, the text reads back (with [parseInt]) as
    [n]; it starts with a plus sign exactly when [n] is positive, with a
    minus sign exactly when [n] is negative, and is ["0%"] when [n] is
    0. *)
Theorem calcTrend_text (current previous n : Z) :
  previous <> 0 ->
  Math_round (change current previous) = Integer n ->
  Z.abs n <= MAX_SAFE_INTEGER ->
  exists text,
    calcTrend current previous = Some text
    /\ parseInt text = Some n
    /\ (String.prefix "+" text = true <-> 0 < n)
    /\ (String.prefix "-" text = true <-> n < 0)
    /\ (n = 0 -> text = "0%").
Proof.
  intros Hp Hround Hsmall. unfold calcTrend.
  assert (E0 : (previous =? 0) = false) by (apply Z.eqb_neq; exact Hp).
  rewrite E0, Hround. cbv zeta. cbn [exceeds Rounded_toString].
  apply Z.leb_le in Hsmall. rewrite Hsmall. clear Hsmall Hround E0.
  destruct (Z.ltb_spec 0 n) as [Hgt|Hle].
  - destruct (numberToString_spec n) as (Hd & Hne & Hv); [lia|].
    destruct (parseInt_percent _ Hd Hne) as (_ & Hplus & _).
    exists ("+" ++ numberToString n ++ "%")%string. rewrite Hv in Hplus.
    split; [reflexivity|]. split; [exact Hplus|].
    change ("+" ++ numberToString n ++ "%")%string
      with (String "+" (numberToString n ++ "%")%string).
    rewrite !prefix_head.
    split; [split; [intros _; exact Hgt | reflexivity]|].
    split; [split; [discriminate | lia]|]. lia.
  - destruct (Z.eq_dec n 0) as [->|Hnz].
    + exists "0%". split; [reflexivity|]. split; [reflexivity|].
      rewrite !prefix_head.
      split; [split; [discriminate | lia]|].
      split; [split; [discriminate | lia]|]. reflexivity.
    + assert (Hlt : n < 0) by lia.
      destruct (numberToString_spec (- n)) as (Hd & Hne & Hv); [lia|].
      destruct (parseInt_percent _ Hd Hne) as (_ & _ & Hminus).
      exists ("-" ++ numberToString (- n) ++ "%")%string.
      rewrite Hv, Z.opp_involutive in Hminus.
      split.
      { rewrite (numberToString_negative n Hlt). reflexivity. }
      split; [exact Hminus|].
      change ("-" ++ numberToString (- n) ++ "%")%string
        with (String "-" (numberToString (- n) ++ "%")%string).
      rewrite !prefix_head.
      split; [split; [discriminate | lia]|].
      split; [split; [intros _; exact Hlt | reflexivity]|]. lia.
Qed.

Lemma calcTrend_text_witness :
  calcTrend 63 40 = Some "+57%"
  /\ calcTrend 29 40 = Some "-28%"
  /\ calcTrend 20 19 = Some "+5%"
  /\ calcTrend 40 40 = Some "0%"
  /\ exists text,
       calcTrend 63 40 = Some text
       /\ parseInt text = Some 57
       /\ (String.prefix "+" text = true <-> 0 < 57)
       /\ (String.prefix "-" text = true <-> 57 < 0)
       /\ (57 = 0 -> text = "0%").
Proof.
  repeat (split; [reflexivity|]).
  apply (calcTrend_text 63 40 57);
    [discriminate | reflexivity | vm_compute; discriminate].
Defined.

(** The texts of the numbers that [calcTrend] does not reach with the
    totals of a ledger: from 2^53 on the fewest digits that denote the
    double, followed by zeros or, from 10^21 on, by an exponent; and the
    numbers that are not finite. *)
Example Rounded_toString_large :
  Rounded_toString (Integer (2 ^ 53)) = "9007199254740992"
  /\ Rounded_toString (Integer (2 ^ 64)) = "18446744073709552000"
  /\ Rounded_toString (Integer (- 2 ^ 64)) = "-18446744073709552000"
  /\ Rounded_toString (Integer (10 ^ 21 - 2 ^ 17)) = "999999999999999900000"
  /\ Rounded_toString (Integer (10 ^ 21)) = "1e+21"
  /\ Rounded_toString (Integer (- 10 ^ 21)) = "-1e+21"
  /\ Rounded_toString (Integer (2 ^ 70)) = "1.1805916207174113e+21"
  /\ Rounded_toString (Math_round (Number (10 ^ 23))) = "1e+23"
  /\ calcTrend (10 ^ 400) 1 = Some "+Infinity%".
Proof. repeat split; vm_compute; reflexivity. Qed.

(** ** The transaction log *)

Lemma existsb_eqb_In (k : string) (ks : list string) :
  existsb (String.eqb k) ks = true <-> In k ks.
Proof.
  rewrite existsb_exists. split.
  - intros (y & Hy & E). apply String.eqb_eq in E. subst y. exact Hy.
  - intros H. exists k. split; [exact H | apply String.eqb_refl].
Qed.

Lemma pushTo_map (k : string) (x : Transaction) (ks : list string)
    (f : string -> list Transaction) :
  NoDup ks ->
  pushTo k x (map (fun k' => (k', f k')) ks)
  = map (fun k' => (k', if String.eqb k' k then f k' ++ [x] else f k')) ks
    ++ (if existsb (String.eqb k) ks then [] else [(k, [x])]).
Proof.
  induction ks as [|k0 ks IH]; intros Hnd; [reflexivity|].
  inversion Hnd as [|? ? Hnotin Hnd']; subst.
  cbn [map pushTo existsb]. rewrite (String.eqb_sym k k0).
  destruct (String.eqb k0 k) eqn:E.
  - apply String.eqb_eq in E. subst k0. cbn [orb app]. rewrite app_nil_r.
    f_equal. apply map_ext_in. intros k' Hk'.
    destruct (String.eqb k' k) eqn:E'; [|reflexivity].
    apply String.eqb_eq in E'. subst k'. contradiction.
  - cbn [orb app]. f_equal. apply IH, Hnd'.
Qed.

Section HistoryFacts.

Variable getDateCategory : Z -> string.

Lemma categoriesOf_NoDup (l : list Transaction) : NoDup (categoriesOf getDateCategory l).
Proof. apply NoDup_rev, NoDup_nodup. Qed.

Lemma categoriesOf_In (k : string) (l : list Transaction) :
  In k (categoriesOf getDateCategory l) <-> In k (map (categoryOf getDateCategory) l).
Proof.
  unfold categoriesOf. rewrite <- in_rev, nodup_In, <- in_rev. reflexivity.
Qed.

Lemma categoriesOf_snoc (l : list Transaction) (x : Transaction) :
  categoriesOf getDateCategory (l ++ [x])
  = categoriesOf getDateCategory l
    ++ (if existsb (String.eqb (categoryOf getDateCategory x)) (categoriesOf getDateCategory l)
        then [] else [categoryOf getDateCategory x]).
Proof.
  unfold categoriesOf at 1. rewrite map_app, rev_app_distr.
  cbn [map rev app nodup].
  destruct (in_dec string_dec (categoryOf getDateCategory x) (rev (map (categoryOf getDateCategory) l)))
    as [Hin|Hnot].
  - assert (E : existsb (String.eqb (categoryOf getDateCategory x)) (categoriesOf getDateCategory l) = true).
    { apply existsb_eqb_In, categoriesOf_In, in_rev. exact Hin. }
    rewrite E, app_nil_r. reflexivity.
  - assert (E : existsb (String.eqb (categoryOf getDateCategory x)) (categoriesOf getDateCategory l) = false).
    { apply not_true_is_false. intros H. apply Hnot.
      apply existsb_eqb_In, categoriesOf_In, in_rev in H. exact H. }
    rewrite E. reflexivity.
Qed.

Lemma inCategory_snoc (k : string) (l : list Transaction) (x : Transaction) :
  inCategory getDateCategory k (l ++ [x])
  = inCategory getDateCategory k l
    ++ (if String.eqb (categoryOf getDateCategory x) k then [x] else []).
Proof.
  unfold inCategory. rewrite filter_app. cbn [filter]. reflexivity.
Qed.

Lemma inCategory_none (k : string) (l : list Transaction) :
  ~ In k (map (categoryOf getDateCategory) l) -> inCategory getDateCategory k l = [].
Proof.
  intros H. unfold inCategory. induction l as [|t l IH]; [reflexivity|].
  cbn [filter]. destruct (String.eqb (getDateCategory (t_created_at t)) k) eqn:E.
  - apply String.eqb_eq in E. exfalso. apply H. left. exact E.
  - apply IH. intros Hin. apply H. right. exact Hin.
Qed.

Lemma grouping_by_category (l : list Transaction) :
  fold_left
    (fun groups item => pushTo (getDateCategory (t_created_at item)) item groups)
    l []
  = map (fun k => (k, inCategory getDateCategory k l)) (categoriesOf getDateCategory l).
Proof.
  induction l as [|x l IH] using rev_ind; [reflexivity|].
  rewrite fold_left_app. cbn [fold_left]. rewrite IH.
  rewrite pushTo_map by apply categoriesOf_NoDup.
  rewrite categoriesOf_snoc, map_app. f_equal.
  - apply map_ext. intros k. rewrite inCategory_snoc.
    fold (categoryOf getDateCategory x). rewrite (String.eqb_sym k).
    destruct (String.eqb (categoryOf getDateCategory x) k); [reflexivity|].
    rewrite app_nil_r. reflexivity.
  - fold (categoryOf getDateCategory x).
    destruct (existsb (String.eqb (categoryOf getDateCategory x)) (categoriesOf getDateCategory l)) eqn:E;
      [reflexivity|].
    cbn [map]. rewrite inCategory_snoc, String.eqb_refl.
    rewrite inCategory_none; [reflexivity|].
    intros Hin. apply categoriesOf_In, existsb_eqb_In in Hin. congruence.
Qed.

End HistoryFacts.

(** X19. The log groups without loss. Every group of [groupedHistory]
    holds exactly the filtered transactions of its date category, in
    their order, and is not empty; no category has two groups; every
    filtered transaction is in the group of its category; the groups
    come in the order in which their first transaction appears. *)
Theorem groupedHistory_partitions (getDateCategory : Z -> string)
    (matchesSearch : Transaction -> bool) (filterType : FilterType)
    (transactions : list Transaction) :
  let filtered := filteredHistory matchesSearch filterType transactions in
  let groups :=
    groupedHistory getDateCategory matchesSearch filterType transactions in
  NoDup (map fst groups)
  /\ (forall k items, In (k, items) groups ->
        items <> [] /\ items = inCategory getDateCategory k filtered)
  /\ (forall t, In t filtered ->
        exists items,
          In (getDateCategory (t_created_at t), items) groups /\ In t items)
  /\ map fst groups = categoriesOf getDateCategory filtered.
Proof.
  intros filtered groups. subst groups. unfold groupedHistory.
  fold filtered. rewrite grouping_by_category.
  assert (Hkeys : map fst (map (fun k => (k, inCategory getDateCategory k filtered))
                             (categoriesOf getDateCategory filtered))
                  = categoriesOf getDateCategory filtered).
  { rewrite map_map. cbn [fst]. apply map_id. }
  rewrite Hkeys.
  split; [apply categoriesOf_NoDup|].
  split; [|split; [|reflexivity]].
  - intros k items Hin. apply in_map_iff in Hin.
    destruct Hin as (k' & E & Hk'). inversion E; subst k' items.
    split; [|reflexivity].
    apply categoriesOf_In, in_map_iff in Hk'.
    destruct Hk' as (t & Ht & Hin).
    intros Hnil.
    assert (Hmem : In t (inCategory getDateCategory k filtered)).
    { unfold inCategory. apply filter_In. split; [exact Hin|].
      unfold categoryOf in Ht. rewrite Ht. apply String.eqb_refl. }
    rewrite Hnil in Hmem. exact Hmem.
  - intros t Ht.
    exists (inCategory getDateCategory (getDateCategory (t_created_at t)) filtered).
    split.
    + apply in_map_iff. exists (getDateCategory (t_created_at t)).
      split; [reflexivity|]. apply categoriesOf_In.
      apply in_map_iff. exists t. split; [reflexivity | exact Ht].
    + unfold inCategory. apply filter_In. split; [exact Ht|].
      apply String.eqb_refl.
Qed.

(** ** The analytics page *)

Lemma existsb_nat_In (i : Id) (ids : list Id) :
  existsb (Nat.eqb i) ids = true <-> In i ids.
Proof.
  rewrite existsb_exists. split.
  - intros (y & Hy & E). apply Nat.eqb_eq in E. subst y. exact Hy.
  - intros H. exists i. split; [exact H | apply Nat.eqb_refl].
Qed.

Lemma consumptionGet_map (i : Id) (ids : list Id) (u : Id -> Z) :
  consumptionGet i (map (fun j => mkConsumption j (u j)) ids)
  = if existsb (Nat.eqb i) ids then Some (mkConsumption i (u i)) else None.
Proof.
  unfold consumptionGet. induction ids as [|j ids IH]; [reflexivity|].
  cbn [map find existsb c_productId]. rewrite (Nat.eqb_sym i j).
  destruct (Nat.eqb j i) eqn:E.
  - apply Nat.eqb_eq in E. subst j. reflexivity.
  - cbn [orb]. exact IH.
Qed.

Lemma consumptionSet_map (i : Id) (v : Z) (ids : list Id) (u : Id -> Z) :
  NoDup ids ->
  consumptionSet i (mkConsumption i v) (map (fun j => mkConsumption j (u j)) ids)
  = map (fun j => mkConsumption j (if Nat.eqb j i then v else u j)) ids
    ++ (if existsb (Nat.eqb i) ids then [] else [mkConsumption i v]).
Proof.
  induction ids as [|j ids IH]; intros Hnd; [reflexivity|].
  inversion Hnd as [|? ? Hnotin Hnd']; subst.
  cbn [map consumptionSet existsb c_productId]. rewrite (Nat.eqb_sym i j).
  destruct (Nat.eqb j i) eqn:E.
  - apply Nat.eqb_eq in E. subst j. cbn [orb app]. rewrite app_nil_r.
    f_equal. apply map_ext_in. intros j Hj.
    destruct (Nat.eqb j i) eqn:E'; [|reflexivity].
    apply Nat.eqb_eq in E'. subst j. contradiction.
  - cbn [orb app]. f_equal. apply IH, Hnd'.
Qed.

(** The products of a list of transactions in the order of their first
    transaction, and what each of them adds up to. *)
Lemma productsOf_NoDup (l : list Transaction) : NoDup (productsOf l).
Proof. apply NoDup_rev, NoDup_nodup. Qed.

Lemma productsOf_In (i : Id) (l : list Transaction) :
  In i (productsOf l) <-> In i (map t_product_id l).
Proof.
  unfold productsOf. rewrite <- in_rev, nodup_In, <- in_rev. reflexivity.
Qed.

Lemma productsOf_snoc (l : list Transaction) (x : Transaction) :
  productsOf (l ++ [x])
  = productsOf l
    ++ (if existsb (Nat.eqb (t_product_id x)) (productsOf l)
        then [] else [t_product_id x]).
Proof.
  unfold productsOf at 1. rewrite map_app, rev_app_distr.
  cbn [map rev app nodup].
  destruct (in_dec Nat.eq_dec (t_product_id x) (rev (map t_product_id l)))
    as [Hin|Hnot].
  - assert (E : existsb (Nat.eqb (t_product_id x)) (productsOf l) = true).
    { apply existsb_nat_In, productsOf_In, in_rev. exact Hin. }
    rewrite E, app_nil_r. reflexivity.
  - assert (E : existsb (Nat.eqb (t_product_id x)) (productsOf l) = false).
    { apply not_true_is_false. intros H. apply Hnot.
      apply existsb_nat_In, productsOf_In, in_rev in H. exact H. }
    rewrite E. reflexivity.
Qed.

Lemma usageIn_snoc (i : Id) (l : list Transaction) (x : Transaction) :
  usageIn i (l ++ [x])
  = usageIn i l + (if Nat.eqb (t_product_id x) i then t_amount x else 0).
Proof.
  unfold usageIn. rewrite filter_app, map_app, sum_app. cbn [filter].
  destruct (Nat.eqb (t_product_id x) i); cbn [map fold_right]; lia.
Qed.

Lemma usageIn_none (i : Id) (l : list Transaction) :
  ~ In i (map t_product_id l) -> usageIn i l = 0.
Proof.
  intros H. unfold usageIn. induction l as [|t l IH]; [reflexivity|].
  cbn [filter]. destruct (Nat.eqb (t_product_id t) i) eqn:E.
  - apply Nat.eqb_eq in E. exfalso. apply H. left. exact E.
  - apply IH. intros Hin. apply H. right. exact Hin.
Qed.

Lemma consumption_by_product (l : list Transaction) :
  fold_left consumptionStep l []
  = map (fun i => mkConsumption i (usageIn i l)) (productsOf l).
Proof.
  induction l as [|x l IH] using rev_ind; [reflexivity|].
  rewrite fold_left_app. cbn [fold_left]. rewrite IH.
  unfold consumptionStep. rewrite consumptionGet_map.
  rewrite productsOf_snoc, map_app.
  destruct (existsb (Nat.eqb (t_product_id x)) (productsOf l)) eqn:E.
  - cbn [c_usage]. rewrite consumptionSet_map by apply productsOf_NoDup.
    rewrite E. f_equal. apply map_ext. intros j. f_equal.
    rewrite usageIn_snoc, (Nat.eqb_sym j).
    destruct (Nat.eqb (t_product_id x) j) eqn:Ej; [|lia].
    apply Nat.eqb_eq in Ej. subst j. reflexivity.
  - cbn [c_usage]. rewrite consumptionSet_map by apply productsOf_NoDup.
    rewrite E. f_equal.
    + apply map_ext_in. intros j Hj. f_equal.
      rewrite usageIn_snoc, (Nat.eqb_sym j).
      destruct (Nat.eqb (t_product_id x) j) eqn:Ej; [|lia].
      apply Nat.eqb_eq in Ej. subst j.
      apply existsb_nat_In in Hj. congruence.
    + cbn [map]. f_equal. f_equal.
      rewrite usageIn_snoc, Nat.eqb_refl, usageIn_none; [reflexivity|].
      intros Hin. apply productsOf_In, existsb_nat_In in Hin. congruence.
Qed.

Lemma insertBy_perm {A} (compareFn : A -> A -> Z) (x : A) (l : list A) :
  Permutation (insertBy compareFn x l) (x :: l).
Proof.
  induction l as [|y l IH]; [reflexivity|].
  cbn [insertBy]. destruct (compareFn x y <=? 0); [reflexivity|].
  rewrite IH. apply perm_swap.
Qed.

Lemma sortBy_perm {A} (compareFn : A -> A -> Z) (l : list A) :
  Permutation (sortBy compareFn l) l.
Proof.
  induction l as [|x l IH]; [reflexivity|].
  unfold sortBy in *. cbn [fold_right]. rewrite insertBy_perm.
  apply perm_skip, IH.
Qed.

Lemma insertBy_sorted (x : Consumption) (l : list Consumption) :
  StronglySorted byUsage l ->
  StronglySorted byUsage (insertBy (fun a b => c_usage b - c_usage a) x l).
Proof.
  induction l as [|y l IH]; intros Hs.
  - cbn [insertBy]. constructor; [constructor | constructor].
  - cbn [insertBy]. inversion Hs as [|? ? Hs' Hy]; subst.
    destruct (c_usage y - c_usage x <=? 0) eqn:E.
    + apply Z.leb_le in E. constructor; [exact Hs|].
      constructor; [unfold byUsage; lia|].
      rewrite Forall_forall in Hy |- *. intros z Hz.
      specialize (Hy z Hz). unfold byUsage in *. lia.
    + apply Z.leb_gt in E. constructor; [apply IH, Hs'|].
      rewrite Forall_forall in Hy |- *. intros z Hz.
      apply (Permutation_in _ (insertBy_perm _ x l)) in Hz.
      destruct Hz as [<-|Hz]; [unfold byUsage; lia | apply Hy, Hz].
Qed.

Lemma sortBy_sorted (l : list Consumption) :
  StronglySorted byUsage (sortBy (fun a b => c_usage b - c_usage a) l).
Proof.
  induction l as [|x l IH]; [constructor|].
  unfold sortBy in *. cbn [fold_right]. apply insertBy_sorted, IH.
Qed.

Lemma firstn_incl {A} (n : nat) (l : list A) (z : A) :
  In z (firstn n l) -> In z l.
Proof.
  intros H. rewrite <- (firstn_skipn n l). apply in_or_app. left. exact H.
Qed.

Lemma skipn_incl {A} (n : nat) (l : list A) (z : A) :
  In z (skipn n l) -> In z l.
Proof.
  intros H. rewrite <- (firstn_skipn n l). apply in_or_app. right. exact H.
Qed.

Lemma sorted_split (n : nat) (l : list Consumption) :
  StronglySorted byUsage l ->
  StronglySorted byUsage (firstn n l)
  /\ forall a b, In a (firstn n l) -> In b (skipn n l) -> byUsage a b.
Proof.
  revert n. induction l as [|x l IH]; intros n Hs.
  - rewrite firstn_nil, skipn_nil. split; [constructor | intros a b []].
  - destruct n as [|n].
    + cbn [firstn skipn]. split; [constructor | intros a b []].
    + inversion Hs as [|? ? Hs' Hx]; subst. cbn [firstn skipn].
      destruct (IH n Hs') as [H1 H2]. split.
      * constructor; [exact H1|].
        rewrite Forall_forall in Hx |- *. intros z Hz.
        apply Hx. apply (firstn_incl n l z Hz).
      * intros a b [<-|Ha] Hb.
        -- rewrite Forall_forall in Hx. apply Hx.
           apply (skipn_incl n l b Hb).
        -- apply H2; assumption.
Qed.

Lemma ranked_sorted (f : Consumption -> Ranked) (l : list Consumption) :
  (forall c, r_usage (f c) = c_usage c) ->
  StronglySorted byUsage l ->
  StronglySorted (fun a b => r_usage a >= r_usage b) (map f l).
Proof.
  intros Hf. induction 1 as [|c l Hs IH Hc]; cbn [map]; constructor.
  - exact IH.
  - rewrite Forall_forall in Hc |- *. intros r Hr.
    apply in_map_iff in Hr. destruct Hr as (c' & <- & Hc').
    rewrite !Hf. apply Hc, Hc'.
Qed.

(** X20. The consumption ranking is a top five. It has at most five
    entries, no product twice; every entry is a product with a
    withdrawal in the month shown and its usage is the sum of the
    product's withdrawals of that month; the entries come largest usage
    first; and a product with a withdrawal in the month is left out only
    when five products are listed, none of which used less. *)
Theorem consumptionRanking_top_five (getMonth getFullYear : Z -> Z)
    (currentDate : Z) (transactions : list Transaction) :
  let ranking :=
    consumptionRanking getMonth getFullYear currentDate transactions in
  let used := monthTransactions getMonth getFullYear currentDate transactions in
  (List.length ranking <= 5)%nat
  /\ NoDup (map r_productId ranking)
  /\ (forall r, In r ranking ->
        In (r_productId r) (map t_product_id used)
        /\ r_usage r
           = monthUsage getMonth getFullYear currentDate (r_productId r)
               transactions)
  /\ StronglySorted (fun a b => r_usage a >= r_usage b) ranking
  /\ (forall t, In t used ->
        ~ In (t_product_id t) (map r_productId ranking) ->
        List.length ranking = 5%nat
        /\ forall r, In r ranking ->
             monthUsage getMonth getFullYear currentDate (t_product_id t)
               transactions <= r_usage r).
Proof.
  intros ranking used. subst ranking. unfold consumptionRanking, monthUsage.
  unfold consumptionOf. fold used. rewrite consumption_by_product.
  set (entries := map (fun i => mkConsumption i (usageIn i used))
                      (productsOf used)).
  set (all := sortBy (fun a b => c_usage b - c_usage a) entries).
  set (sorted := firstn 5 all).
  set (f := fun item : Consumption => mkRanked (c_productId item) (c_usage item) _).
  assert (Hperm : Permutation all entries) by apply sortBy_perm.
  assert (Hids : map r_productId (map f sorted) = map c_productId sorted).
  { rewrite map_map. reflexivity. }
  assert (Hentry : forall c, In c all ->
            In (c_productId c) (map t_product_id used)
            /\ c_usage c = usageIn (c_productId c) used).
  { intros c Hc. apply (Permutation_in _ Hperm) in Hc.
    apply in_map_iff in Hc. destruct Hc as (i & <- & Hi).
    cbn [c_productId c_usage]. split; [|reflexivity].
    apply productsOf_In, Hi. }
  assert (Hnd : NoDup (map c_productId all)).
  { apply (Permutation_NoDup (l := map c_productId entries)).
    - apply Permutation_map, Permutation_sym, Hperm.
    - unfold entries. rewrite map_map. cbn [c_productId]. rewrite map_id.
      apply productsOf_NoDup. }
  destruct (sorted_split 5 all (sortBy_sorted entries)) as [Hs Htop].
  fold sorted in Hs, Htop.
  split; [|split; [|split; [|split]]].
  - rewrite length_map. apply firstn_le_length.
  - rewrite Hids. unfold sorted. rewrite <- firstn_map.
    rewrite <- (firstn_skipn 5 (map c_productId all)) in Hnd.
    apply NoDup_app_remove_r in Hnd. exact Hnd.
  - intros r Hr. apply in_map_iff in Hr. destruct Hr as (c & <- & Hc).
    cbn [r_productId r_usage]. apply Hentry, (firstn_incl 5 all c Hc).
  - apply ranked_sorted; [reflexivity | exact Hs].
  - intros t Ht Hout. rewrite Hids in Hout.
    set (c := mkConsumption (t_product_id t) (usageIn (t_product_id t) used)).
    assert (Hc : In c all).
    { apply (Permutation_in _ (Permutation_sym Hperm)).
      apply in_map_iff. exists (t_product_id t). split; [reflexivity|].
      apply productsOf_In, in_map, Ht. }
    rewrite <- (firstn_skipn 5 all) in Hc. apply in_app_or in Hc.
    destruct Hc as [Hc|Hc].
    { exfalso. apply Hout. apply (in_map c_productId) in Hc. exact Hc. }
    split.
    + rewrite length_map. unfold sorted. rewrite length_firstn.
      assert (List.length (skipn 5 all) <> 0%nat)
        by (destruct (skipn 5 all); [destruct Hc | discriminate]).
      rewrite length_skipn in H. lia.
    + intros r Hr. apply in_map_iff in Hr. destruct Hr as (c' & <- & Hc').
      unfold f. cbn [r_usage]. specialize (Htop c' c Hc' Hc).
      unfold byUsage in Htop.
      unfold c in Htop. cbn [c_usage] in Htop. lia.
Qed.





(** ** The chart *)

Lemma dailyGet_dailySet (i day : Z) (value : Z * Z)
    (dailyData : list (Z * (Z * Z))) :
  dailyGet i (dailySet day value dailyData)
  = if day =? i then Some value else dailyGet i dailyData.
Proof.
  unfold dailyGet. induction dailyData as [|e rest IH].
  - cbn [dailySet find fst snd option_map].
    destruct (day =? i); reflexivity.
  - cbn [dailySet]. destruct (fst e =? day) eqn:E.
    + apply Z.eqb_eq in E. cbn [find fst snd]. rewrite E.
      destruct (day =? i); reflexivity.
    + cbn [find]. destruct (fst e =? i) eqn:Ei.
      * apply Z.eqb_eq in Ei. apply Z.eqb_neq in E.
        assert (En : (day =? i) = false) by (apply Z.eqb_neq; lia).
        rewrite En. reflexivity.
      * exact IH.
Qed.

Section ChartFacts.

Variable getDate : Z -> Z.

(** What the transactions of a list dated on day [i] add up to. *)
Lemma daily_loop (l : list Transaction) (i : Z) :
  match dailyGet i (fold_left (dailyStep getDate) l []) with
  | Some d => d
  | None => (0, 0)
  end
  = (dayTotal getDate TxIn i l, dayTotal getDate TxOut i l).
Proof.
  induction l as [|x l IH] using rev_ind; [reflexivity|].
  rewrite fold_left_app. cbn [fold_left]. unfold dailyStep at 1.
  rewrite dailyGet_dailySet. unfold dayTotal in *.
  rewrite !filter_app, !map_app, !sum_app. cbn [filter].
  destruct (getDate (t_created_at x) =? i) eqn:E.
  - apply Z.eqb_eq in E. rewrite E, IH.
    destruct (t_type x); cbn [TxType_eqb andb map fold_right fst snd];
      f_equal; lia.
  - rewrite IH. cbn [andb map fold_right]. f_equal; lia.
Qed.

End ChartFacts.

Lemma chartData_points (getMonth getFullYear getDate : Z -> Z)
    (now currentDate : Z) (daysInMonth : nat) (selectedProductId : Id)
    (transactions : list Transaction) :
  let shown :=
    chartTransactions getMonth getFullYear currentDate selectedProductId
      transactions in
  chartData getMonth getFullYear getDate now currentDate daysInMonth
    selectedProductId transactions
  = map (fun i =>
           if isFutureDay getMonth getFullYear getDate now currentDate i
           then mkChartPoint (getMonth currentDate + 1) i None None
           else mkChartPoint (getMonth currentDate + 1) i
                  (Some (dayTotal getDate TxIn i shown))
                  (Some (dayTotal getDate TxOut i shown)))
        (map Z.of_nat (seq 1 daysInMonth)).
Proof.
  intros shown. unfold chartData. apply map_ext. intros i.
  unfold isFutureDay.
  destruct ((getMonth now =? getMonth currentDate)
            && (getFullYear now =? getFullYear currentDate)
            && (getDate now <? i)); [reflexivity|].
  fold (chartTransactions getMonth getFullYear currentDate selectedProductId
          transactions).
  fold shown. rewrite (daily_loop getDate shown i). reflexivity.
Qed.

(** X22. Every point of the chart shows its day. The chart has one
    point for each day of the month shown, in order: the point at
    position [k] is day [k + 1]. A day after today in the current month
    is empty, and every other day shows the sum of the selected
    product's ['in'] amounts and the sum of its ['out'] amounts dated on
    that day of that month. *)
Theorem chartData_by_day (getMonth getFullYear getDate : Z -> Z)
    (now currentDate : Z) (daysInMonth : nat) (selectedProductId : Id)
    (transactions : list Transaction) :
  let shown :=
    chartTransactions getMonth getFullYear currentDate selectedProductId
      transactions in
  let chart :=
    chartData getMonth getFullYear getDate now currentDate daysInMonth
      selectedProductId transactions in
  List.length chart = daysInMonth
  /\ forall k, (k < daysInMonth)%nat ->
       let i := Z.of_nat (S k) in
       nth_error chart k
       = Some (if isFutureDay getMonth getFullYear getDate now currentDate i
               then mkChartPoint (getMonth currentDate + 1) i None None
               else mkChartPoint (getMonth currentDate + 1) i
                      (Some (dayTotal getDate TxIn i shown))
                      (Some (dayTotal getDate TxOut i shown))).
Proof.
  intros shown chart. subst chart. rewrite chartData_points. fold shown.
  split; [rewrite !length_map; apply length_seq|].
  intros k Hk i. rewrite nth_error_map, nth_error_map.
  assert (E : nth_error (seq 1 daysInMonth) k = Some (S k)).
  { rewrite (nth_error_nth' _ 0%nat) by (rewrite length_seq; exact Hk).
    rewrite seq_nth by exact Hk. reflexivity. }
  rewrite E. reflexivity.
Qed.

Lemma sum_one_day (d a : Z) (n : nat) :
  1 <= d <= Z.of_nat n ->
  fold_right Z.add 0
    (map (fun i => if d =? i then a else 0) (map Z.of_nat (seq 1 n))) = a.
Proof.
  induction n as [|n IH]; intros Hd; [lia|].
  rewrite seq_S, !map_app, sum_app. cbn [map fold_right].
  destruct (Z.eq_dec d (Z.of_nat (1 + n))) as [E|E].
  - rewrite <- E, Z.eqb_refl.
    assert (H0 : fold_right Z.add 0
                   (map (fun i => if d =? i then a else 0)
                        (map Z.of_nat (seq 1 n))) = 0).
    { clear IH. assert (Hall : forall i, In i (map Z.of_nat (seq 1 n)) -> i < d).
      { intros i Hi. apply in_map_iff in Hi. destruct Hi as (k & <- & Hk).
        apply in_seq in Hk. lia. }
      induction (map Z.of_nat (seq 1 n)) as [|i l IHl]; [reflexivity|].
      cbn [map fold_right].
      assert (Ei : (d =? i) = false)
        by (apply Z.eqb_neq; specialize (Hall i (or_introl eq_refl)); lia).
      rewrite Ei, IHl; [reflexivity|].
      intros j Hj. apply Hall. right. exact Hj. }
    rewrite H0. lia.
  - assert (En : (d =? Z.of_nat (1 + n)) = false) by (apply Z.eqb_neq; exact E).
    rewrite En, IH by lia. lia.
Qed.

Lemma sum_zero {A} (l : list A) :
  fold_right Z.add 0 (map (fun _ => 0) l) = 0.
Proof. induction l as [|x l IH]; [reflexivity|]. cbn [map fold_right]. lia. Qed.

Lemma days_add_up (getDate : Z -> Z) (ty : TxType) (n : nat)
    (l : list Transaction) :
  (forall t, In t l -> 1 <= getDate (t_created_at t) <= Z.of_nat n) ->
  fold_right Z.add 0
    (map (fun i => dayTotal getDate ty i l) (map Z.of_nat (seq 1 n)))
  = totalOf ty l.
Proof.
  intros Hday. induction l as [|t l IH].
  - unfold dayTotal, totalOf. cbn [filter map fold_right]. apply sum_zero.
  - assert (Hstep : forall i,
              dayTotal getDate ty i (t :: l)
              = (if getDate (t_created_at t) =? i
                 then (if TxType_eqb (t_type t) ty then t_amount t else 0)
                 else 0)
                + dayTotal getDate ty i l).
    { intros i. unfold dayTotal. cbn [filter].
      destruct (getDate (t_created_at t) =? i);
        destruct (TxType_eqb (t_type t) ty); cbn [andb map fold_right]; lia. }
    rewrite (map_ext _ _ Hstep), sum_plus, IH
      by (intros t' Ht'; apply Hday; right; exact Ht').
    rewrite sum_one_day by (apply Hday; left; reflexivity).
    unfold totalOf. cbn [filter].
    destruct (TxType_eqb (t_type t) ty); cbn [map fold_right]; lia.
Qed.

(** X23. The chart of a past month accounts for everything. When the
    month shown is not the current one, and the calendar puts every date
    on a day between 1 and [daysInMonth], the ['in'] line of the chart
    adds up to all the ['in'] amounts of the selected product in that
    month, and the ['out'] line to all its ['out'] amounts. *)
Theorem chartData_accounts_for_month (getMonth getFullYear getDate : Z -> Z)
    (now currentDate : Z) (daysInMonth : nat) (selectedProductId : Id)
    (transactions : list Transaction) :
  (getMonth now =? getMonth currentDate)
  && (getFullYear now =? getFullYear currentDate) = false ->
  (forall t, In t transactions ->
     1 <= getDate (t_created_at t) <= Z.of_nat daysInMonth) ->
  let shown :=
    chartTransactions getMonth getFullYear currentDate selectedProductId
      transactions in
  let chart :=
    chartData getMonth getFullYear getDate now currentDate daysInMonth
      selectedProductId transactions in
  List.length chart = daysInMonth
  /\ chartTotal cp_in chart = totalOf TxIn shown
  /\ chartTotal cp_out chart = totalOf TxOut shown.
Proof.
  intros Hpast Hday shown chart. subst chart. rewrite chartData_points.
  fold shown.
  assert (Hshown : forall t, In t shown ->
            1 <= getDate (t_created_at t) <= Z.of_nat daysInMonth).
  { intros t Ht. apply Hday. unfold shown, chartTransactions in Ht.
    apply filter_In in Ht. apply Ht. }
  split; [rewrite !length_map; apply length_seq|].
  unfold chartTotal, isFutureDay. rewrite Hpast. cbn [andb].
  rewrite !map_map. cbn [cp_in cp_out].
  split;
    [rewrite <- (map_map Z.of_nat (fun i => dayTotal getDate TxIn i shown))
    |rewrite <- (map_map Z.of_nat (fun i => dayTotal getDate TxOut i shown))];
    apply days_add_up; exact Hshown.
Qed.

Lemma chartData_accounts_for_month_witness :
  let transactions :=
    [mkTransaction 1%nat 0%nat TxIn 10 3;
     mkTransaction 2%nat 0%nat TxOut 4 3;
     mkTransaction 3%nat 0%nat TxOut 2 5;
     mkTransaction 4%nat 1%nat TxOut 7 5] in
  let chart :=
    chartData (fun d => d / 100) (fun _ => 2024) (fun d => d mod 100)
      120 1 7 0%nat transactions in
  nth_error chart 2 = Some (mkChartPoint 1 3 (Some 10) (Some 4))
  /\ List.length chart = 7%nat
  /\ chartTotal cp_in chart = 10
  /\ chartTotal cp_out chart = 6.
Proof.
  intros transactions chart. split; [reflexivity|].
  destruct (chartData_accounts_for_month
              (fun d => d / 100) (fun _ => 2024) (fun d => d mod 100)
              120 1 7 0%nat transactions) as (Hlen & Hin & Hout).
  - reflexivity.
  - intros t [<-|[<-|[<-|[<-|[]]]]]; vm_compute; split; discriminate.
  - split; [exact Hlen|].
    split; [exact (eq_trans Hin eq_refl) | exact (eq_trans Hout eq_refl)].
Defined.

(** ** Warehouses *)

Lemma hd_error_In {A} (l : list A) (x : A) : hd_error l = Some x -> In x l.
Proof. destruct l as [|y l]; [discriminate|]. intros [= ->]. left. reflexivity. Qed.

Lemma currentWarehouse_none (p : Provider) :
  currentWarehouse p = None <-> warehouses p = [].
Proof.
  unfold currentWarehouse. split.
  - destruct (warehouses p) as [|w l]; [reflexivity|].
    intros H. exfalso.
    destruct (match currentWarehouseId p with
              | Some id => find (hasId id) (w :: l)
              | None => None
              end); [discriminate|].
    cbn [orElse] in H.
    destruct (find wh_is_default (w :: l)); discriminate.
  - intros ->. destruct (currentWarehouseId p); reflexivity.
Qed.

(** X24. Which warehouse is the current one. [currentWarehouse] is
    null exactly when the list is empty; otherwise it is a warehouse of
    the list: the one the stored id names when there is one, else a
    default warehouse when there is one, else the first of the list. *)
Theorem currentWarehouse_resolution (p : Provider) :
  (currentWarehouse p = None <-> warehouses p = [])
  /\ (forall w, currentWarehouse p = Some w -> In w (warehouses p))
  /\ (forall w, currentWarehouse p = Some w ->
        currentWarehouseId p = Some (wh_id w)
        \/ (forall id, currentWarehouseId p = Some id ->
              forall w', In w' (warehouses p) -> wh_id w' <> id)
           /\ (wh_is_default w = true
               \/ (forall w', In w' (warehouses p) -> wh_is_default w' = false)
                  /\ hd_error (warehouses p) = Some w)).
Proof.
  unfold currentWarehouse.
  assert (Hnone : forall id,
            find (hasId id) (warehouses p) = None ->
            forall w', In w' (warehouses p) -> wh_id w' <> id).
  { intros id Hf w' Hw' E. apply (find_none _ _ Hf) in Hw'.
    unfold hasId in Hw'. rewrite E, Nat.eqb_refl in Hw'. discriminate. }
  assert (Hrest :
            (orElse (find wh_is_default (warehouses p)) (hd_error (warehouses p))
             = None <-> warehouses p = [])
            /\ (forall w,
                  orElse (find wh_is_default (warehouses p))
                         (hd_error (warehouses p)) = Some w ->
                  In w (warehouses p)
                  /\ (wh_is_default w = true
                      \/ (forall w', In w' (warehouses p) ->
                            wh_is_default w' = false)
                         /\ hd_error (warehouses p) = Some w))).
  { destruct (find wh_is_default (warehouses p)) as [d|] eqn:Ed; cbn [orElse].
    - apply find_some in Ed. destruct Ed as [Hin Hd]. split.
      + split; [discriminate|]. intros E. rewrite E in Hin. destruct Hin.
      + intros w [= <-]. split; [exact Hin | left; exact Hd].
    - split.
      + destruct (warehouses p); split; intros; try reflexivity; discriminate.
      + intros w Hw. split; [apply hd_error_In, Hw|]. right.
        split; [|exact Hw]. intros w' Hw'. apply (find_none _ _ Ed), Hw'. }
  destruct Hrest as [Hempty Hpick].
  destruct (currentWarehouseId p) as [id|] eqn:Eid.
  - destruct (find (hasId id) (warehouses p)) as [c|] eqn:Ec; cbn [orElse].
    + apply find_some in Ec. destruct Ec as [Hin Hc].
      apply Nat.eqb_eq in Hc. split; [|split].
      * split; [discriminate|]. intros E. rewrite E in Hin. destruct Hin.
      * intros w [= <-]. exact Hin.
      * intros w [= <-]. left. rewrite Hc. reflexivity.
    + split; [exact Hempty|]. split.
      * intros w Hw. apply Hpick, Hw.
      * intros w Hw. right. split; [|apply Hpick, Hw].
        intros id' [= <-]. apply Hnone, Ec.
  - cbn [orElse]. split; [exact Hempty|]. split.
    + intros w Hw. apply Hpick, Hw.
    + intros w Hw. right. split; [discriminate | apply Hpick, Hw].
Qed.

Lemma find_hasId_unique (id : Id) (l : list Warehouse) (w w' : Warehouse) :
  NoDup (map wh_id l) ->
  find (hasId id) l = Some w ->
  In w' l -> wh_id w' = id -> w' = w.
Proof.
  induction l as [|x l IH]; intros Hnd Hf Hin Hid; [destruct Hin|].
  inversion Hnd as [|? ? Hnotin Hnd']; subst.
  cbn [find] in Hf. unfold hasId in Hf at 1.
  destruct (Nat.eqb (wh_id x) (wh_id w')) eqn:E.
  - injection Hf as <-. apply Nat.eqb_eq in E.
    destruct Hin as [->|Hin]; [reflexivity|].
    exfalso. apply Hnotin. rewrite E. apply in_map, Hin.
  - destruct Hin as [->|Hin]; [rewrite Nat.eqb_refl in E; discriminate|].
    apply IH; [exact Hnd' | exact Hf | exact Hin | reflexivity].
Qed.

Lemma filter_one_out (id : Id) (l : list Warehouse) (w : Warehouse) :
  NoDup (map wh_id l) ->
  find (hasId id) l = Some w ->
  S (List.length (filter (fun x => negb (hasId id x)) l)) = List.length l.
Proof.
  induction l as [|x l IH]; intros Hnd Hf; [discriminate|].
  inversion Hnd as [|? ? Hnotin Hnd']; subst.
  cbn [find filter] in *. destruct (hasId id x) eqn:E; cbn [negb List.length].
  - f_equal. f_equal. unfold hasId in E. apply Nat.eqb_eq in E.
    clear IH Hf Hnd Hnd'. induction l as [|y l IHl]; [reflexivity|].
    cbn [filter]. unfold hasId at 1.
    destruct (Nat.eqb (wh_id y) id) eqn:Ey.
    + exfalso. apply Hnotin. left. apply Nat.eqb_eq in Ey. congruence.
    + cbn [negb]. f_equal. apply IHl. intros H. apply Hnotin. right. exact H.
  - f_equal. apply IH; assumption.
Qed.

(** X25. [deleteWarehouse] never takes the last warehouse nor a
    default one, whatever the store answers. With distinct ids in the
    list: every default warehouse of the list is still in it afterwards,
    a list that is not empty stays so, and a current warehouse remains;
    and when the call reports a failure, the provider is unchanged. *)
Theorem deleteWarehouse_keeps_a_warehouse (id : Id) (s : Site) :
  NoDup (map wh_id (warehouses (provider s))) ->
  let result := fst (deleteWarehouse id s) in
  let s' := snd (deleteWarehouse id s) in
  (forall w, In w (warehouses (provider s)) -> wh_is_default w = true ->
     In w (warehouses (provider s')))
  /\ (warehouses (provider s) <> [] -> warehouses (provider s') <> [])
  /\ (currentWarehouse (provider s) <> None ->
      currentWarehouse (provider s') <> None)
  /\ (dr_success result = false -> provider s' = provider s).
Proof.
  intros Hnd result s'.
  assert (Hsame : provider s' = provider s ->
            (forall w, In w (warehouses (provider s)) -> wh_is_default w = true ->
               In w (warehouses (provider s')))
            /\ (warehouses (provider s) <> [] -> warehouses (provider s') <> [])
            /\ (currentWarehouse (provider s) <> None ->
                currentWarehouse (provider s') <> None)
            /\ (dr_success result = false -> provider s' = provider s)).
  { intros E. rewrite E. repeat split; auto. }
  subst result s'. unfold deleteWarehouse in *.
  destruct (negb (warehouseEnabled (provider s))); [apply Hsame; reflexivity|].
  destruct (find (hasId id) (warehouses (provider s))) as [warehouse|] eqn:Ef;
    [|apply Hsame; reflexivity].
  destruct (wh_is_default warehouse) eqn:Ed; [apply Hsame; reflexivity|].
  destruct (List.length (warehouses (provider s)) <=? 1)%nat eqn:El;
    [apply Hsame; reflexivity|].
  destruct (depot_delete_transactions_in id (depot s)) as [[e1|] d1];
    [apply Hsame; reflexivity|].
  destruct (depot_delete_products_in id d1) as [[e2|] d2];
    [apply Hsame; reflexivity|].
  destruct (depot_delete_warehouse id d2) as [[e3|] d3];
    [apply Hsame; reflexivity|].
  clear Hsame. cbn [fst snd provider warehouses dr_success].
  assert (Hlen : S (List.length (filter (fun x => negb (hasId id x))
                                        (warehouses (provider s))))
                 = List.length (warehouses (provider s)))
    by (apply (filter_one_out id _ warehouse Hnd Ef)).
  apply Nat.leb_gt in El.
  assert (Hne : filter (fun x => negb (hasId id x)) (warehouses (provider s)) <> []).
  { intros E. rewrite E in Hlen. cbn [List.length] in Hlen. lia. }
  split; [|split; [|split]].
  - intros w Hw Hdef. apply filter_In. split; [exact Hw|].
    unfold hasId. destruct (Nat.eqb (wh_id w) id) eqn:E; [|reflexivity].
    apply Nat.eqb_eq in E.
    rewrite (find_hasId_unique id _ warehouse w Hnd Ef Hw E) in Hdef.
    congruence.
  - intros _. exact Hne.
  - intros _ Hcur. apply currentWarehouse_none in Hcur.
    cbn [warehouses] in Hcur. exact (Hne Hcur).
  - discriminate.
Qed.

Lemma deleteWarehouse_keeps_a_warehouse_witness :
  let s :=
    mkSite (mkDepot [mkWarehouse 0%nat "A" true; mkWarehouse 1%nat "B" false]
                    [] [] 2%nat [])
           (mkProvider (Some 7%nat) true
              [mkWarehouse 0%nat "A" true; mkWarehouse 1%nat "B" false]
              true (Some 1%nat) [] [] []) in
  warehouses (provider (snd (deleteWarehouse 1%nat s)))
  = [mkWarehouse 0%nat "A" true]
  /\ (currentWarehouse (provider s) <> None ->
      currentWarehouse (provider (snd (deleteWarehouse 1%nat s))) <> None).
Proof.
  intros s. split; [reflexivity|].
  apply (deleteWarehouse_keeps_a_warehouse 1%nat s).
  repeat constructor; simpl; intuition discriminate.
Defined.

Lemma filter_twice {A} (f : A -> bool) (l : list A) :
  filter f (filter f l) = filter f l.
Proof.
  induction l as [|x l IH]; [reflexivity|].
  cbn [filter]. destruct (f x) eqn:E; [|exact IH].
  cbn [filter]. rewrite E, IH. reflexivity.
Qed.

Lemma filter_cleared {A} (id : Id) (l : list (Housed A)) :
  cleared id (filter (notIn id) l).
Proof.
  intros r Hr E. apply filter_In in Hr. destruct Hr as [_ Hr].
  unfold notIn in Hr. rewrite E, Nat.eqb_refl in Hr. discriminate.
Qed.

(** X26. A warehouse is deleted with everything in it. When the
    warehouse is in the list, is not a default one and not the only one,
    and the store accepts the three deletes, [deleteWarehouse] reports
    success; the warehouse, its products and its transactions are gone
    from the store and from the provider, and every other row stays in
    its place. A stored id that named the deleted warehouse now names a
    default warehouse of the new list; it is left dangling only when the
    new list has no default warehouse. *)
Theorem deleteWarehouse_cascade (id : Id) (s : Site) (warehouse : Warehouse) :
  warehouseEnabled (provider s) = true ->
  find (hasId id) (warehouses (provider s)) = Some warehouse ->
  wh_is_default warehouse = false ->
  (1 < List.length (warehouses (provider s)))%nat ->
  replyAt 0 s = None -> replyAt 1 s = None -> replyAt 2 s = None ->
  let s' := snd (deleteWarehouse id s) in
  let others := fun w => negb (hasId id w) in
  fst (deleteWarehouse id s) = mkDeleteResult true None
  /\ dp_warehouses (depot s') = filter others (dp_warehouses (depot s))
  /\ dp_products (depot s') = filter (notIn id) (dp_products (depot s))
  /\ dp_transactions (depot s') = filter (notIn id) (dp_transactions (depot s))
  /\ warehouses (provider s') = filter others (warehouses (provider s))
  /\ pv_products (provider s') = filter (notIn id) (pv_products (provider s))
  /\ pv_transactions (provider s')
     = filter (notIn id) (pv_transactions (provider s))
  /\ pv_allTransactions (provider s')
     = filter (notIn id) (pv_allTransactions (provider s))
  /\ cleared id (dp_products (depot s'))
  /\ cleared id (dp_transactions (depot s'))
  /\ cleared id (pv_products (provider s'))
  /\ cleared id (pv_transactions (provider s'))
  /\ cleared id (pv_allTransactions (provider s'))
  /\ (currentWarehouseId (provider s) = Some id ->
      (exists d, In d (warehouses (provider s'))
                 /\ wh_is_default d = true
                 /\ currentWarehouseId (provider s') = Some (wh_id d))
      \/ ((forall w, In w (warehouses (provider s')) -> wh_is_default w = false)
          /\ currentWarehouseId (provider s') = Some id)).
Proof.
  destruct s as [[ws ps ts nid replies] [u cfg lws en cur lps lts lats]].
  intros Hen Hf Hd Hlen H0 H1 H2 s' others.
  unfold replyAt in H0, H1, H2.
  cbn [depot provider dp_replies warehouseEnabled warehouses] in *.
  subst en.
  assert (El : (List.length lws <=? 1)%nat = false) by (apply Nat.leb_gt; exact Hlen).
  assert (Hrun : deleteWarehouse id
                   (mkSite (mkDepot ws ps ts nid replies)
                           (mkProvider u cfg lws true cur lps lts lats))
                 = (mkDeleteResult true None,
                    mkSite (mkDepot (filter others ws) (filter (notIn id) ps)
                                    (filter (notIn id) ts) nid
                                    (tl (tl (tl replies))))
                           (mkProvider u cfg (filter others lws) true
                              (match cur with
                               | Some current =>
                                 if Nat.eqb current id
                                 then
                                   match find (fun w => wh_is_default w
                                                        && negb (hasId id w)) lws with
                                   | Some defaultWarehouse =>
                                     Some (wh_id defaultWarehouse)
                                   | None => cur
                                   end
                                 else cur
                               | None => cur
                               end)
                              (filter (notIn id) lps) (filter (notIn id) lts)
                              (filter (notIn id) lats)))).
  { unfold deleteWarehouse. cbn [provider depot warehouseEnabled warehouses negb].
    rewrite Hf, Hd, El.
    unfold depot_delete_transactions_in, depot_delete_products_in,
      depot_delete_warehouse, nextReply.
    destruct replies as [|r0 [|r1 [|r2 rest]]]; cbn [nth] in H0, H1, H2;
      subst; cbn [dp_replies dp_warehouses dp_products dp_transactions
                  dp_next_id tl currentWarehouseId pv_user pv_configured
                  pv_products pv_transactions pv_allTransactions];
      rewrite !filter_twice; reflexivity. }
  subst s'. rewrite Hrun.
  cbn [fst snd depot provider dp_warehouses dp_products dp_transactions
       warehouses pv_products pv_transactions pv_allTransactions
       currentWarehouseId].
  repeat (split; [first [reflexivity | apply filter_cleared]|]).
  intros ->. rewrite Nat.eqb_refl.
  destruct (find (fun w => wh_is_default w && negb (hasId id w)) lws)
    as [d|] eqn:Edef.
  - left. apply find_some in Edef. destruct Edef as [Hin Hprop].
    apply andb_true_iff in Hprop. destruct Hprop as [Hdef Hother].
    exists d. split; [|split; [exact Hdef | reflexivity]].
    apply filter_In. split; [exact Hin | exact Hother].
  - right. split; [|reflexivity]. intros w Hw.
    apply filter_In in Hw. destruct Hw as [Hin Hother].
    pose proof (find_none _ _ Edef w Hin) as Hn. cbn beta in Hn.
    unfold others in Hother. rewrite Hother, andb_true_r in Hn. exact Hn.
Qed.

Lemma deleteWarehouse_cascade_witness :
  let s :=
    mkSite (mkDepot [mkWarehouse 0%nat "A" true; mkWarehouse 1%nat "B" false]
                    [mkHoused (mkProduct 2%nat 5) (Some 1%nat);
                     mkHoused (mkProduct 3%nat 8) (Some 0%nat)]
                    [mkHoused (mkTransaction 4%nat 2%nat TxIn 5 0) (Some 1%nat)]
                    5%nat [])
           (mkProvider (Some 7%nat) true
              [mkWarehouse 0%nat "A" true; mkWarehouse 1%nat "B" false]
              true (Some 1%nat)
              [mkHoused (mkProduct 2%nat 5) (Some 1%nat)]
              [mkHoused (mkTransaction 4%nat 2%nat TxIn 5 0) (Some 1%nat)]
              [mkHoused (mkTransaction 4%nat 2%nat TxIn 5 0) (Some 1%nat)]) in
  dp_products (depot (snd (deleteWarehouse 1%nat s)))
  = [mkHoused (mkProduct 3%nat 8) (Some 0%nat)]
  /\ currentWarehouseId (provider (snd (deleteWarehouse 1%nat s))) = Some 0%nat
  /\ fst (deleteWarehouse 1%nat s) = mkDeleteResult true None.
Proof.
  intros s. split; [reflexivity|]. split; [reflexivity|].
  apply (deleteWarehouse_cascade 1%nat s (mkWarehouse 1%nat "B" false));
    try reflexivity.
  simpl. lia.
Defined.

(** X27. A delete that fails half way puts nothing back. When the
    delete of the warehouse's transactions is accepted and a later
    delete is refused, [deleteWarehouse] reports the failure and leaves
    the provider as it was, with the warehouse still listed; the store
    keeps the warehouse row but has lost its transactions, and also its
    products when the refused delete is the last one. *)
Theorem deleteWarehouse_refused_half_way (id : Id) (s : Site)
    (warehouse : Warehouse) (e : SupabaseError) :
  warehouseEnabled (provider s) = true ->
  find (hasId id) (warehouses (provider s)) = Some warehouse ->
  wh_is_default warehouse = false ->
  (1 < List.length (warehouses (provider s)))%nat ->
  replyAt 0 s = None ->
  replyAt 1 s = Some e \/ (replyAt 1 s = None /\ replyAt 2 s = Some e) ->
  let s' := snd (deleteWarehouse id s) in
  dr_success (fst (deleteWarehouse id s)) = false
  /\ provider s' = provider s
  /\ dp_warehouses (depot s') = dp_warehouses (depot s)
  /\ dp_transactions (depot s') = filter (notIn id) (dp_transactions (depot s))
  /\ cleared id (dp_transactions (depot s'))
  /\ dp_products (depot s')
     = match replyAt 1 s with
       | Some _ => dp_products (depot s)
       | None => filter (notIn id) (dp_products (depot s))
       end.
Proof.
  destruct s as [[ws ps ts nid replies] [u cfg lws en cur lps lts lats]].
  intros Hen Hf Hd Hlen H0 H12 s'. subst s'.
  unfold replyAt in *.
  cbn [depot provider dp_replies warehouseEnabled warehouses] in *.
  subst en.
  assert (El : (List.length lws <=? 1)%nat = false) by (apply Nat.leb_gt; exact Hlen).
  unfold deleteWarehouse. cbn [provider depot warehouseEnabled warehouses negb].
  rewrite Hf, Hd, El.
  unfold depot_delete_transactions_in, depot_delete_products_in,
    depot_delete_warehouse, nextReply.
  destruct replies as [|r0 [|r1 [|r2 rest]]]; cbn [nth] in H0, H12;
    destruct H12 as [H1|[H1 H2]]; try discriminate; subst;
    cbn [dp_replies dp_warehouses dp_products dp_transactions dp_next_id tl
         fst snd depot provider dr_success];
    repeat (split; [first [reflexivity | apply filter_cleared]|]);
    reflexivity.
Qed.

Lemma deleteWarehouse_refused_half_way_witness :
  let s :=
    mkSite (mkDepot [mkWarehouse 0%nat "A" true; mkWarehouse 1%nat "B" false]
                    [mkHoused (mkProduct 2%nat 5) (Some 1%nat)]
                    [mkHoused (mkTransaction 4%nat 2%nat TxIn 5 0) (Some 1%nat)]
                    5%nat
                    [None; Some (mkSupabaseError "57014" (Some "timeout"))])
           (mkProvider (Some 7%nat) true
              [mkWarehouse 0%nat "A" true; mkWarehouse 1%nat "B" false]
              true (Some 1%nat)
              [mkHoused (mkProduct 2%nat 5) (Some 1%nat)]
              [mkHoused (mkTransaction 4%nat 2%nat TxIn 5 0) (Some 1%nat)]
              [mkHoused (mkTransaction 4%nat 2%nat TxIn 5 0) (Some 1%nat)]) in
  dp_transactions (depot (snd (deleteWarehouse 1%nat s))) = []
  /\ dp_products (depot (snd (deleteWarehouse 1%nat s)))
     = [mkHoused (mkProduct 2%nat 5) (Some 1%nat)]
  /\ dr_success (fst (deleteWarehouse 1%nat s)) = false.
Proof.
  intros s. split; [reflexivity|]. split; [reflexivity|].
  apply (deleteWarehouse_refused_half_way 1%nat s (mkWarehouse 1%nat "B" false)
           (mkSupabaseError "57014" (Some "timeout")));
    try reflexivity.
  - simpl. lia.
  - left. reflexivity.
Defined.

(** *** Sessions on the warehouse pages *)

Lemma filter_perm {A} (f : A -> bool) (l l' : list A) :
  Permutation l l' -> Permutation (filter f l) (filter f l').
Proof.
  induction 1 as [|x l l' H IH|x y l|l l' l'' H1 IH1 H2 IH2].
  - constructor.
  - cbn [filter]. destruct (f x); [apply perm_skip|]; exact IH.
  - cbn [filter]. destruct (f x), (f y); try reflexivity. apply perm_swap.
  - exact (perm_trans IH1 IH2).
Qed.

Lemma defaults_first_perm (l : list Warehouse) :
  Permutation (filter wh_is_default l
               ++ filter (fun w => negb (wh_is_default w)) l) l.
Proof.
  induction l as [|x l IH]; [constructor|].
  cbn [filter]. destruct (wh_is_default x); cbn [negb app].
  - apply perm_skip, IH.
  - apply Permutation_sym, Permutation_cons_app, Permutation_sym, IH.
Qed.

Lemma quiet_step (ws : list Warehouse) (ps : list (Housed Product))
    (ts : list (Housed Transaction)) (nid : Id)
    (replies : list (option SupabaseError)) :
  quiet (mkDepot ws ps ts nid replies) = true ->
  nextReply (mkDepot ws ps ts nid replies) = None
  /\ forall ws' ps' ts' nid',
       quiet (mkDepot ws' ps' ts' nid' (tl replies)) = true.
Proof.
  unfold quiet, nextReply. cbn [dp_replies].
  destruct replies as [|[e|] rest]; cbn [forallb tl]; intros H;
    try discriminate; split; auto.
Qed.

Lemma default_survives (f : Warehouse -> Warehouse) (l : list Warehouse) :
  (forall w, wh_is_default (f w) = wh_is_default w) ->
  (exists w, In w l /\ wh_is_default w = true) ->
  exists w, In w (map f l) /\ wh_is_default w = true.
Proof.
  intros Hf (w & Hin & Hd). exists (f w).
  split; [apply in_map, Hin | rewrite Hf; exact Hd].
Qed.

Lemma map_ids_update (id : Id) (updates : WarehouseUpdate) (l : list Warehouse) :
  map wh_id (map (fun w => if hasId id w then applyUpdate updates w else w) l)
  = map wh_id l.
Proof.
  rewrite map_map. apply map_ext. intros w.
  destruct (hasId id w); reflexivity.
Qed.

Lemma fetchWarehouses_inOrder (s : Site) :
  inOrder s -> inOrder (fetchWarehouses s).
Proof.
  destruct s as [[ws ps ts nid replies] [u cfg lws en cur lps lts lats]].
  intros (Hperm & Hnd & Hlt & Hq & Hu & Hcfg).
  cbn [depot provider warehouses dp_warehouses dp_next_id pv_user
       pv_configured] in *.
  destruct (quiet_step _ _ _ _ _ Hq) as [Hnext Hq'].
  unfold fetchWarehouses. cbn [provider depot pv_user].
  destruct u as [u|]; [|congruence].
  unfold depot_select_warehouses. rewrite Hnext.
  cbn [dp_warehouses dp_products dp_transactions dp_next_id dp_replies].
  set (list := filter wh_is_default ws
               ++ filter (fun w => negb (wh_is_default w)) ws).
  assert (Hlist : Permutation list ws) by apply defaults_first_perm.
  destruct (List.length list =? 0)%nat eqn:E.
  - apply Nat.eqb_eq in E. apply length_zero_iff_nil in E.
    rewrite E in Hlist. apply Permutation_nil in Hlist. subst ws.
    destruct (quiet_step _ _ _ _ _ (Hq' [] ps ts nid)) as [Hnext' Hq''].
    unfold depot_insert_warehouse. rewrite Hnext'.
    cbn [dp_warehouses dp_products dp_transactions dp_next_id dp_replies app].
    repeat split; cbn [depot provider warehouses dp_warehouses dp_next_id
                       pv_user pv_configured map wh_id].
    + reflexivity.
    + constructor; [intros [] | constructor].
    + intros w [<-|[]]. cbn [wh_id]. lia.
    + apply Hq''.
    + discriminate.
    + exact Hcfg.
  - repeat split; cbn [depot provider warehouses dp_warehouses dp_next_id
                       pv_user pv_configured].
    + exact Hlist.
    + exact Hnd.
    + exact Hlt.
    + apply Hq'.
    + discriminate.
    + exact Hcfg.
Qed.

Lemma fetchWarehouses_settles (s : Site) :
  inOrder s ->
  dp_warehouses (depot s) = [] \/ settled s ->
  settled (fetchWarehouses s).
Proof.
  destruct s as [[ws ps ts nid replies] [u cfg lws en cur lps lts lats]].
  intros (Hperm & Hnd & Hlt & Hq & Hu & Hcfg) Hcase.
  cbn [depot provider warehouses dp_warehouses dp_next_id pv_user
       pv_configured] in *.
  destruct (quiet_step _ _ _ _ _ Hq) as [Hnext Hq'].
  unfold fetchWarehouses. cbn [provider depot pv_user].
  destruct u as [u|]; [|congruence].
  unfold depot_select_warehouses. rewrite Hnext.
  cbn [dp_warehouses dp_products dp_transactions dp_next_id dp_replies].
  set (list := filter wh_is_default ws
               ++ filter (fun w => negb (wh_is_default w)) ws).
  assert (Hlist : Permutation list ws) by apply defaults_first_perm.
  destruct (List.length list =? 0)%nat eqn:E.
  - destruct (quiet_step _ _ _ _ _ (Hq' ws ps ts nid)) as [Hnext' _].
    unfold depot_insert_warehouse. rewrite Hnext'.
    split; [reflexivity|]. cbn [provider warehouses].
    eexists. split; [left; reflexivity | reflexivity].
  - split; [reflexivity|]. cbn [provider warehouses].
    destruct Hcase as [Hempty|[_ (w & Hw & Hd)]].
    + subst ws. discriminate E.
    + cbn [provider warehouses] in Hw. exists w. split; [|exact Hd].
      apply (Permutation_in _ (Permutation_sym Hlist)).
      apply (Permutation_in _ Hperm), Hw.
Qed.

Lemma createWarehouse_inOrder (warehouseData : WarehouseInsert) (s : Site) :
  inOrder s ->
  inOrder (snd (createWarehouse warehouseData s))
  /\ (settled s -> settled (snd (createWarehouse warehouseData s))).
Proof.
  destruct s as [[ws ps ts nid replies] [u cfg lws en cur lps lts lats]].
  intros (Hperm & Hnd & Hlt & Hq & Hu & Hcfg).
  cbn [depot provider warehouses dp_warehouses dp_next_id pv_user
       pv_configured] in *.
  destruct (quiet_step _ _ _ _ _ Hq) as [Hnext Hq'].
  unfold createWarehouse. cbn [provider depot pv_user pv_configured].
  destruct u as [u|]; [|congruence]. subst cfg. cbn [negb].
  unfold depot_insert_warehouse. rewrite Hnext.
  cbn [dp_warehouses dp_products dp_transactions dp_next_id dp_replies
       snd warehouses warehouseEnabled currentWarehouseId pv_products
       pv_transactions pv_allTransactions pv_user pv_configured].
  split.
  - repeat split; cbn [depot provider warehouses dp_warehouses dp_next_id
                       pv_user pv_configured].
    + apply Permutation_app_tail, Hperm.
    + rewrite map_app. cbn [map wh_id].
      apply NoDup_app; [exact Hnd | constructor; [intros [] | constructor]|].
      intros i Hi [<-|[]]. apply in_map_iff in Hi.
      destruct Hi as (w & E & Hw). specialize (Hlt w Hw). lia.
    + intros w Hw. apply in_app_or in Hw. destruct Hw as [Hw|[<-|[]]].
      * specialize (Hlt w Hw). lia.
      * cbn [wh_id]. lia.
    + apply Hq'.
    + discriminate.
  - intros [Hen (w & Hw & Hd)]. cbn [provider warehouseEnabled warehouses] in *.
    split.
    + cbn [provider warehouseEnabled]. destruct (List.length lws =? 0)%nat;
        [reflexivity | exact Hen].
    + cbn [provider warehouses]. exists w.
      split; [apply in_or_app; left; exact Hw | exact Hd].
Qed.

Lemma updateWarehouse_inOrder (id : Id) (name : string) (s : Site) :
  inOrder s ->
  inOrder (snd (updateWarehouse id (mkWarehouseUpdate (Some name) None) s))
  /\ (settled s ->
      settled (snd (updateWarehouse id (mkWarehouseUpdate (Some name) None) s))).
Proof.
  destruct s as [[ws ps ts nid replies] [u cfg lws en cur lps lts lats]].
  intros (Hperm & Hnd & Hlt & Hq & Hu & Hcfg).
  cbn [depot provider warehouses dp_warehouses dp_next_id pv_user
       pv_configured] in *.
  destruct (quiet_step _ _ _ _ _ Hq) as [Hnext Hq'].
  unfold updateWarehouse. cbn [provider depot warehouseEnabled].
  destruct en; cbn [negb].
  2:{ split; [repeat split; assumption | intros H; exact H]. }
  unfold depot_update_warehouse. rewrite Hnext.
  cbn [dp_warehouses dp_products dp_transactions dp_next_id dp_replies
       snd warehouses warehouseEnabled currentWarehouseId pv_products
       pv_transactions pv_allTransactions pv_user pv_configured].
  set (f := fun w => if hasId id w
                     then applyUpdate (mkWarehouseUpdate (Some name) None) w
                     else w).
  assert (Hid : forall w, wh_id (f w) = wh_id w)
    by (intros w; unfold f; destruct (hasId id w); reflexivity).
  assert (Hdef : forall w, wh_is_default (f w) = wh_is_default w)
    by (intros w; unfold f; destruct (hasId id w); reflexivity).
  split.
  - repeat split; cbn [depot provider warehouses dp_warehouses dp_next_id
                       pv_user pv_configured].
    + apply Permutation_map, Hperm.
    + unfold f. rewrite map_ids_update. exact Hnd.
    + intros w Hw. apply in_map_iff in Hw. destruct Hw as (w0 & <- & Hw0).
      rewrite Hid. apply Hlt, Hw0.
    + apply Hq'.
    + exact Hu.
    + exact Hcfg.
  - intros [Hen Hex]. cbn [provider warehouseEnabled warehouses] in *.
    split; [reflexivity|]. cbn [provider warehouses].
    apply default_survives; assumption.
Qed.

Lemma handleSave_inOrder (editingWarehouse : option Id) (name : string)
    (s : Site) :
  inOrder s ->
  inOrder (snd (handleSave editingWarehouse name s))
  /\ (settled s -> settled (snd (handleSave editingWarehouse name s))).
Proof.
  intros H. unfold handleSave.
  destruct (isBlank name); [split; [exact H | auto]|].
  destruct editingWarehouse as [id|].
  - pose proof (updateWarehouse_inOrder id (trim name) s H) as Hup.
    destruct (updateWarehouse id (mkWarehouseUpdate (Some (trim name)) None) s)
      as [success s']. exact Hup.
  - pose proof (createWarehouse_inOrder (mkWarehouseInsert (trim name) None) s H)
      as Hcr.
    destruct (createWarehouse (mkWarehouseInsert (trim name) None) s)
      as [result s']. exact Hcr.
Qed.

Lemma NoDup_map_filter_id (f : Warehouse -> bool) (l : list Warehouse) :
  NoDup (map wh_id l) -> NoDup (map wh_id (filter f l)).
Proof.
  induction l as [|x l IH]; intros H; [constructor|].
  inversion H as [|? ? Hnotin Hnd]; subst. cbn [filter].
  destruct (f x); [|apply IH, Hnd].
  cbn [map]. constructor; [|apply IH, Hnd].
  intros Hin. apply Hnotin. apply in_map_iff in Hin.
  destruct Hin as (w & E & Hw). apply filter_In in Hw.
  apply in_map_iff. exists w. split; [exact E | apply Hw].
Qed.

Lemma deleteWarehouse_inOrder (id : Id) (s : Site) :
  inOrder s ->
  inOrder (snd (deleteWarehouse id s))
  /\ (settled s -> settled (snd (deleteWarehouse id s))).
Proof.
  intros Hin.
  assert (Hkeep : snd (deleteWarehouse id s) = s ->
            inOrder (snd (deleteWarehouse id s))
            /\ (settled s -> settled (snd (deleteWarehouse id s))))
    by (intros ->; split; [exact Hin | auto]).
  destruct s as [[ws ps ts nid replies] [u cfg lws en cur lps lts lats]].
  destruct Hin as (Hperm & Hnd & Hlt & Hq & Hu & Hcfg).
  cbn [depot provider warehouses dp_warehouses dp_next_id pv_user
       pv_configured] in *.
  unfold deleteWarehouse in *. cbn [provider depot warehouseEnabled warehouses] in *.
  destruct en; cbn [negb] in *; [|apply Hkeep; reflexivity].
  destruct (find (hasId id) lws) as [warehouse|] eqn:Ef;
    [|apply Hkeep; reflexivity].
  destruct (wh_is_default warehouse) eqn:Ed; [apply Hkeep; reflexivity|].
  destruct (List.length lws <=? 1)%nat eqn:El; [apply Hkeep; reflexivity|].
  clear Hkeep.
  destruct (quiet_step _ _ _ _ _ Hq) as [Hnext Hq1].
  unfold depot_delete_transactions_in. rewrite Hnext.
  cbn [dp_warehouses dp_products dp_transactions dp_next_id dp_replies].
  destruct (quiet_step _ _ _ _ _ (Hq1 ws ps (filter (notIn id) ts) nid))
    as [Hnext1 Hq2].
  unfold depot_delete_products_in. rewrite Hnext1.
  cbn [dp_warehouses dp_products dp_transactions dp_next_id dp_replies].
  destruct (quiet_step _ _ _ _ _
              (Hq2 ws (filter (notIn id) ps) (filter (notIn id) ts) nid))
    as [Hnext2 Hq3].
  unfold depot_delete_warehouse. rewrite Hnext2.
  cbn [dp_warehouses dp_products dp_transactions dp_next_id dp_replies snd].
  assert (Hndl : NoDup (map wh_id lws)).
  { apply (Permutation_NoDup (l := map wh_id ws)); [|exact Hnd].
    apply Permutation_map, Permutation_sym, Hperm. }
  split.
  - repeat split; cbn [depot provider warehouses dp_warehouses dp_next_id
                       pv_user pv_configured].
    + apply filter_perm, Hperm.
    + apply NoDup_map_filter_id, Hnd.
    + intros w Hw. apply filter_In in Hw. apply Hlt, Hw.
    + apply Hq3.
    + exact Hu.
    + exact Hcfg.
  - intros [_ (w & Hw & Hd)]. cbn [provider warehouses] in Hw.
    split; [reflexivity|]. cbn [provider warehouses].
    exists w. split; [|exact Hd]. apply filter_In. split; [exact Hw|].
    unfold hasId. destruct (Nat.eqb (wh_id w) id) eqn:E; [|reflexivity].
    apply Nat.eqb_eq in E.
    rewrite (find_hasId_unique id lws warehouse w Hndl Ef Hw E) in Hd.
    congruence.
Qed.

Lemma warehouseStep_inOrder (e : WarehouseEvent) (s : Site) :
  inOrder s ->
  inOrder (warehouseStep s e)
  /\ (settled s -> settled (warehouseStep s e)).
Proof.
  intros H. destruct e as [|editingWarehouse name|id|id]; cbn [warehouseStep].
  - split; [apply fetchWarehouses_inOrder, H|].
    intros Hs. apply fetchWarehouses_settles; [exact H | right; exact Hs].
  - apply handleSave_inOrder, H.
  - apply deleteWarehouse_inOrder, H.
  - destruct s as [d p]. split; [exact H | intros Hs; exact Hs].
Qed.

Lemma warehouseRun_inOrder (events : list WarehouseEvent) (s : Site) :
  inOrder s -> settled s ->
  inOrder (warehouseRun events s) /\ settled (warehouseRun events s).
Proof.
  revert s. induction events as [|e events IH]; intros s H Hs.
  - split; assumption.
  - unfold warehouseRun in *. cbn [fold_left].
    destruct (warehouseStep_inOrder e s H) as [H' Hs'].
    apply IH; [exact H' | apply Hs', Hs].
Qed.

Lemma newSite_inOrder (u : Id) (replies : list (option SupabaseError)) :
  quiet (mkDepot [] [] [] 0%nat replies) = true ->
  inOrder (newSite u replies).
Proof.
  intros Hq. unfold newSite.
  repeat split; cbn [depot provider warehouses dp_warehouses dp_next_id
                     pv_user pv_configured map].
  - constructor.
  - constructor.
  - intros w [].
  - exact Hq.
  - discriminate.
Qed.

(** X28. There is always a warehouse to work in. In a session that
    begins with the provider's first [fetchWarehouses] on an empty store
    and meets no refusal, after that fetch and after every further save,
    delete, selection or fetch: the warehouse feature is on, the list
    holds a default warehouse, [currentWarehouse] is not null, and the
    provider's list is the store's table up to order, without an id
    twice. *)
Theorem session_keeps_default_warehouse (u : Id)
    (replies : list (option SupabaseError)) (events : list WarehouseEvent)
    (n : nat) :
  quiet (mkDepot [] [] [] 0%nat replies) = true ->
  let s := warehouseRun (Fetch :: firstn n events) (newSite u replies) in
  warehouseEnabled (provider s) = true
  /\ (exists w, In w (warehouses (provider s)) /\ wh_is_default w = true)
  /\ currentWarehouse (provider s) <> None
  /\ Permutation (warehouses (provider s)) (dp_warehouses (depot s))
  /\ NoDup (map wh_id (warehouses (provider s))).
Proof.
  intros Hq s. subst s. unfold warehouseRun. cbn [fold_left warehouseStep].
  pose proof (newSite_inOrder u replies Hq) as H0.
  assert (H1 : inOrder (fetchWarehouses (newSite u replies)))
    by (apply fetchWarehouses_inOrder, H0).
  assert (Hs1 : settled (fetchWarehouses (newSite u replies)))
    by (apply fetchWarehouses_settles; [exact H0 | left; reflexivity]).
  destruct (warehouseRun_inOrder (firstn n events) _ H1 Hs1) as [H Hs].
  unfold warehouseRun in H, Hs.
  set (s := fold_left warehouseStep (firstn n events)
              (fetchWarehouses (newSite u replies))) in *.
  destruct H as (Hperm & Hnd & _). destruct Hs as [Hen (w & Hw & Hd)].
  split; [exact Hen|]. split; [exists w; split; assumption|].
  split; [|split; [exact Hperm|]].
  - intros Hnone. apply currentWarehouse_none in Hnone.
    rewrite Hnone in Hw. destruct Hw.
  - apply (Permutation_NoDup (l := map wh_id (dp_warehouses (depot s))));
      [|exact Hnd].
    apply Permutation_map, Permutation_sym, Hperm.
Qed.

Lemma session_keeps_default_warehouse_witness :
  let s :=
    warehouseRun
      (Fetch :: firstn 4 [Save None " Salon "; Select 1%nat;
                          DeleteWarehouse 1%nat; DeleteWarehouse 0%nat])
      (newSite 7%nat []) in
  warehouses (provider s) = [mkWarehouse 0%nat "默认仓库" true]
  /\ warehouseEnabled (provider s) = true
  /\ currentWarehouse (provider s) <> None.
Proof.
  intros s. split; [reflexivity|].
  destruct (session_keeps_default_warehouse 7%nat []
              [Save None " Salon "; Select 1%nat;
               DeleteWarehouse 1%nat; DeleteWarehouse 0%nat] 4 eq_refl)
    as (Hen & _ & Hcur & _).
  split; [exact Hen | exact Hcur].
Defined.

(** ** The product list of the dashboard *)

Lemma insertBy_sorted_by {A} (compareFn : A -> A -> Z) (R : A -> A -> Prop)
    (x : A) (l : list A) :
  (forall a b, compareFn a b <= 0 -> R a b) ->
  (forall a b, 0 < compareFn a b -> R b a) ->
  (forall a b c, R a b -> R b c -> R a c) ->
  StronglySorted R l ->
  StronglySorted R (insertBy compareFn x l).
Proof.
  intros Hle Hgt Htrans. induction l as [|y l IH]; intros Hs.
  - cbn [insertBy]. constructor; [constructor | constructor].
  - cbn [insertBy]. inversion Hs as [|? ? Hs' Hy]; subst.
    destruct (compareFn x y <=? 0) eqn:E.
    + apply Z.leb_le in E. constructor; [exact Hs|].
      constructor; [apply Hle, E|].
      rewrite Forall_forall in Hy |- *. intros z Hz.
      apply (Htrans x y z); [apply Hle, E | apply Hy, Hz].
    + apply Z.leb_gt in E. constructor; [apply IH, Hs'|].
      rewrite Forall_forall in Hy |- *. intros z Hz.
      apply (Permutation_in _ (insertBy_perm _ x l)) in Hz.
      destruct Hz as [<-|Hz]; [apply Hgt, E | apply Hy, Hz].
Qed.

Lemma sortBy_sorted_by {A} (compareFn : A -> A -> Z) (R : A -> A -> Prop)
    (l : list A) :
  (forall a b, compareFn a b <= 0 -> R a b) ->
  (forall a b, 0 < compareFn a b -> R b a) ->
  (forall a b c, R a b -> R b c -> R a c) ->
  StronglySorted R (sortBy compareFn l).
Proof.
  intros Hle Hgt Htrans. induction l as [|x l IH]; [constructor|].
  unfold sortBy in *. cbn [fold_right].
  apply insertBy_sorted_by; assumption.
Qed.

(** The sort is stable: elements that compare equal keep their order. *)
Lemma insertBy_stable {A} (compareFn : A -> A -> Z) (keep : A -> bool)
    (x : A) (l : list A) :
  (forall y, keep x = true -> keep y = false -> compareFn x y <> 0) ->
  (forall y, keep x = true -> keep y = true -> compareFn x y <= 0) ->
  filter keep (insertBy compareFn x l)
  = if keep x then x :: filter keep l else filter keep l.
Proof.
  intros Hother Hsame. induction l as [|y l IH]; [reflexivity|].
  cbn [insertBy]. destruct (compareFn x y <=? 0) eqn:E; [reflexivity|].
  apply Z.leb_gt in E. cbn [filter]. rewrite IH.
  destruct (keep x) eqn:Ex; [|reflexivity].
  destruct (keep y) eqn:Ey; [|reflexivity].
  specialize (Hsame y eq_refl Ey). lia.
Qed.

Lemma sortBy_stable (key : Product -> Z) (compareFn : Product -> Product -> Z)
    (q : Z) (l : list Product) :
  (forall a b, compareFn a b = 0 <-> key a = key b) ->
  filter (fun p => key p =? q) (sortBy compareFn l)
  = filter (fun p => key p =? q) l.
Proof.
  intros Hcmp. induction l as [|x l IH]; [reflexivity|].
  unfold sortBy in *. cbn [fold_right]. rewrite insertBy_stable.
  - cbn [filter]. rewrite IH. reflexivity.
  - intros y Hx Hy E. apply Z.eqb_eq in Hx. apply Z.eqb_neq in Hy.
    apply Hcmp in E. congruence.
  - intros y Hx Hy. apply Z.eqb_eq in Hx. apply Z.eqb_eq in Hy.
    assert (E : compareFn x y = 0) by (apply Hcmp; congruence). lia.
Qed.

(** X29. The product list of the dashboard is the search result in the
    chosen order. Whatever the option, the list holds exactly the
    products that match the search, each once. With ['quantityAsc'] the
    quantities never decrease along the list, with ['quantityDesc'] they
    never increase, and with ['default'] the products keep the order of
    the provider; products with equal quantities always keep their
    order. *)
Theorem filteredAndSortedProducts_ordered (matchesSearch : Product -> bool)
    (sortOption : SortOption) (products : list Product) :
  let result := filteredAndSortedProducts matchesSearch sortOption products in
  Permutation result (filter matchesSearch products)
  /\ (sortOption = QuantityAsc ->
      StronglySorted (fun a b => p_quantity a <= p_quantity b) result)
  /\ (sortOption = QuantityDesc ->
      StronglySorted (fun a b => p_quantity a >= p_quantity b) result)
  /\ (sortOption = SortDefault -> result = filter matchesSearch products)
  /\ (forall q, withQuantity q result
                = withQuantity q (filter matchesSearch products)).
Proof.
  intros result. subst result. unfold filteredAndSortedProducts, withQuantity.
  destruct sortOption.
  - split; [reflexivity|]. split; [discriminate|]. split; [discriminate|].
    split; reflexivity.
  - split; [apply sortBy_perm|]. split; [|split; [discriminate|split; [discriminate|]]].
    + intros _. apply sortBy_sorted_by; intros; lia.
    + intros q. apply (sortBy_stable p_quantity). intros a b. lia.
  - split; [apply sortBy_perm|]. split; [discriminate|]. split; [|split; [discriminate|]].
    + intros _. apply sortBy_sorted_by; intros; lia.
    + intros q. apply (sortBy_stable p_quantity). intros a b. lia.
Qed.

(** ** The time shown in the log *)

(** X30. What the log shows as the time of an entry. An entry dated
    less than two minutes ago, or in the future, is shown as just now;
    from two minutes up to an hour as the whole minutes, 2 to 59; from
    one hour up to a day as the whole hours, 1 to 23; and from a day on
    as its time of day. *)
Theorem formatTime_ranges (toLocaleTimeString : Z -> string) (now date : Z) :
  let diffMs := now - date in
  (diffMs < 120000 -> formatTime toLocaleTimeString now date = "刚刚")
  /\ (120000 <= diffMs < 3600000 ->
      formatTime toLocaleTimeString now date
      = (numberToString (diffMs / 60000) ++ "分钟前")%string
      /\ 2 <= diffMs / 60000 <= 59)
  /\ (3600000 <= diffMs < 86400000 ->
      formatTime toLocaleTimeString now date
      = (numberToString (diffMs / 3600000) ++ "小时前")%string
      /\ 1 <= diffMs / 3600000 <= 23)
  /\ (86400000 <= diffMs ->
      formatTime toLocaleTimeString now date = toLocaleTimeString date).
Proof.
  intros diffMs. unfold formatTime. fold diffMs.
  change (1000 * 60 * 60) with 3600000. change (1000 * 60) with 60000.
  assert (Hh : forall k, diffMs / 3600000 < k <-> diffMs < k * 3600000).
  { intros k. split; intros H.
    - apply Z.nle_gt. intros Hge. apply Z.nle_gt in H. apply H.
      apply Z.div_le_lower_bound; lia.
    - apply Z.div_lt_upper_bound; lia. }
  assert (Hm : forall k, diffMs / 60000 < k <-> diffMs < k * 60000).
  { intros k. split; intros H.
    - apply Z.nle_gt. intros Hge. apply Z.nle_gt in H. apply H.
      apply Z.div_le_lower_bound; lia.
    - apply Z.div_lt_upper_bound; lia. }
  pose proof (Hh 1) as Hh1. pose proof (Hh 24) as Hh24.
  pose proof (Hm 2) as Hm2. pose proof (Hm 60) as Hm60.
  destruct (Z.ltb_spec (diffMs / 3600000) 1) as [H1|H1];
    [destruct (Z.leb_spec (diffMs / 60000) 1) as [H2|H2]
    |destruct (Z.ltb_spec (diffMs / 3600000) 24) as [H3|H3]];
    (split; [intros ?|split; [intros ?|split; [intros ?|intros ?]]]);
    try reflexivity; try lia; split; try reflexivity; lia.
Qed.
